(** * Sequential phase-field run controller: a shallow embedding

    The development follows [sequential_run.py] and [config.py]:

    - [Py]: the Python built-ins the script relies on ([str.split],
      [str.strip], [in], [str.replace], [int], [str(int)], ['%08d' %],
      text-mode line reading), over ASCII text;
    - [Float]: binary64 values as exact dyadic numbers, with [float(str)]
      and the ['.5e'] presentation type;
    - the process state ([world]), a state-and-exception monad for the
      script's effects, and the functions of the script, one definition
      per source function, under the same names. *)

From Stdlib Require Import ZArith QArith Ascii String List Lia Bool DecimalString.
From stdpp Require Import base gmap strings list sorting.

(* ===================================================================== *)
(** ** Python built-ins on [str] *)
(* ===================================================================== *)

Module Py.

(** [str.isspace] on one ASCII character: TAB, LF, VT, FF, CR, the four
    separators FS GS RS US, and SPACE. *)
Definition isspace (c : ascii) : bool :=
  match c with
  | "009" | "010" | "011" | "012" | "013"
  | "028" | "029" | "030" | "031" | " " => true
  | _ => false
  end%char.

Definition is_empty (s : string) : bool :=
  match s with "" => true | _ => false end.

(** [s.split()]: the maximal runs of non-whitespace characters.
    [split_aux] returns the token that starts at the head of [s]
    (empty when [s] starts with whitespace) and the tokens after it. *)
Fixpoint split_aux (s : string) : string * list string :=
  match s with
  | "" => ("", [])
  | String c s' =>
      let '(w, ws) := split_aux s' in
      if isspace c
      then ("", if is_empty w then ws else w :: ws)
      else (String c w, ws)
  end.

Definition split (s : string) : list string :=
  let '(w, ws) := split_aux s in if is_empty w then ws else w :: ws.

(** Stripping the characters [sp] accepts from both ends. *)
Fixpoint lstrip_with (sp : ascii → bool) (s : string) : string :=
  match s with
  | "" => ""
  | String c s' => if sp c then lstrip_with sp s' else s
  end.

Fixpoint rstrip_with (sp : ascii → bool) (s : string) : string :=
  match s with
  | "" => ""
  | String c s' =>
      let r := rstrip_with sp s' in
      if sp c && is_empty r then "" else String c r
  end.

(** [s.strip()]. *)
Definition strip (s : string) : string :=
  rstrip_with isspace (lstrip_with isspace s).

(** The white space [int] and [float] skip around an ASCII literal:
    TAB, LF, VT, FF, CR and SPACE, without the four separators. *)
Definition isspace_literal (c : ascii) : bool :=
  let n := N_of_ascii c in
  ((9 <=? n)%N && (n <=? 13)%N) || (n =? 32)%N.

Definition strip_literal (s : string) : string :=
  rstrip_with isspace_literal (lstrip_with isspace_literal s).

(** [sub in s]. *)
Fixpoint contains (sub s : string) : bool :=
  String.prefix sub s ||
  match s with
  | "" => false
  | String _ s' => contains sub s'
  end.

(** [s.split(sep, 1)] for a one-character separator: [[s]] when [sep]
    does not occur, [[before; after]] around its first occurrence. *)
Fixpoint split_once (sep : ascii) (s : string) : list string :=
  match s with
  | "" => [""]
  | String c s' =>
      if Ascii.eqb c sep then [""; s']
      else match split_once sep s' with
           | [a] => [String c a]
           | a :: rest => String c a :: rest
           | [] => []
           end
  end.

(** [s.replace(old, new)] for a non-empty [old]: occurrences are found
    left to right and do not overlap. [skip] counts the characters of
    a matched occurrence still to be dropped. *)
Fixpoint replace_go (old new : string) (skip : nat) (s : string) : string :=
  match s with
  | "" => ""
  | String c s' =>
      match skip with
      | S k => replace_go old new k s'
      | O =>
          if String.prefix old s
          then new +:+ replace_go old new (String.length old - 1) s'
          else String c (replace_go old new O s')
      end
  end.

Definition replace (old new s : string) : string := replace_go old new 0 s.

(** The value of a decimal digit: the characters of codes 48 to 57. *)
Definition digit (c : ascii) : option Z :=
  let n := Z.of_N (N_of_ascii c) in
  if (48 <=? n)%Z && (n <=? 57)%Z then Some (n - 48)%Z else None.

(** The digit part of a decimal literal: digits, with single
    underscores allowed between two digits. [acc] is the value read so
    far; [after_digit] tells whether the previous character was a
    digit. *)
Fixpoint digitpart (acc : Z) (after_digit : bool) (s : string) : option Z :=
  match s with
  | "" => if after_digit then Some acc else None
  | String c s' =>
      match digit c with
      | Some d => digitpart (10 * acc + d)%Z true s'
      | None =>
          if Ascii.eqb c "_" && after_digit
          then match s' with
               | String c' _ =>
                   match digit c' with
                   | Some _ => digitpart acc false s'
                   | None => None
                   end
               | "" => None
               end
          else None
      end
  end.

(** [int(s)] in base 10; [None] stands for [ValueError]. *)
Definition int (s : string) : option Z :=
  match strip_literal s with
  | String "+" r => digitpart 0 false r
  | String "-" r => Z.opp <$> digitpart 0 false r
  | r => digitpart 0 false r
  end.

(** [str(n)] for an [int]. *)
Definition str_of_int (n : Z) : string :=
  NilZero.string_of_int (Z.to_int n).

Fixpoint zeros (n : nat) : string :=
  match n with O => "" | S k => String "0" (zeros k) end.

(** ['%0<w>d' % n]: zero padding goes between the sign and the digits. *)
Definition fmt_0d (w : nat) (n : Z) : string :=
  let ds := NilZero.string_of_uint (N.to_uint (Z.abs_N n)) in
  if (n <? 0)%Z
  then String "-" (zeros (w - 1 - String.length ds) +:+ ds)
  else zeros (w - String.length ds) +:+ ds.

(** Text-mode reading with universal newlines: [CR LF] and a lone [CR]
    both read as [LF]. [after_cr] tells that the previous character
    was a [CR], already read as [LF]. *)
Fixpoint translate_newlines (after_cr : bool) (s : string) : string :=
  match s with
  | "" => ""
  | String c s' =>
      if Ascii.eqb c "013" then String "010" (translate_newlines true s')
      else if Ascii.eqb c "010" && after_cr then translate_newlines false s'
      else String c (translate_newlines false s')
  end.

Definition universal_newlines (s : string) : string :=
  translate_newlines false s.

(** [f.readlines()] on the translated text: every line keeps its
    terminating LF; the last line may have none. *)
Fixpoint splitlines (s : string) : list string :=
  match s with
  | "" => []
  | String c s' =>
      if Ascii.eqb c "010" then String c "" :: splitlines s'
      else match splitlines s' with
           | [] => [String c ""]
           | l :: ls => String c l :: ls
           end
  end.

Definition readlines (content : string) : list string :=
  splitlines (universal_newlines content).

(** [f.writelines(lines)]. *)
Definition writelines (lines : list string) : string :=
  foldr String.append "" lines.

(** [range(n)]. *)
Definition range (n : Z) : list Z := seqZ 0 n.

(** Position denoted by the index [i] in a sequence of length [n]:
    negative indices count from the end; [None] stands for
    [IndexError]. *)
Definition index (n : nat) (i : Z) : option nat :=
  if (0 <=? i)%Z && (i <? Z.of_nat n)%Z then Some (Z.to_nat i)
  else if (- Z.of_nat n <=? i)%Z && (i <? 0)%Z then Some (Z.to_nat (i + Z.of_nat n))
  else None.

End Py.

(* ===================================================================== *)
(** ** Python [float]: binary64 *)
(* ===================================================================== *)

Module Float.

(** A binary64 value: not-a-number, an infinity, or the dyadic number
    [(-1)^neg * m * 2^e] with [m < 2^53] and [-1074 <= e <= 971]
    (zero is [m = 0], and keeps its sign). *)
Inductive float :=
  | NaN
  | Inf (neg : bool)
  | Finite (neg : bool) (m : N) (e : Z).

(** The entries of [np.zeros]. *)
Definition zero : float := Finite false 0 0.

(** [num / den] rounded to the nearest integer, ties to even
    ([0 <= num], [0 < den]). *)
Definition round_half_even (num den : Z) : Z :=
  let q := (num / den)%Z in
  let r := (num mod den)%Z in
  if (2 * r <? den)%Z then q
  else if (den <? 2 * r)%Z then (q + 1)%Z
  else if Z.even q then q else (q + 1)%Z.

(** [b^k * den <= num], for any sign of [k]. *)
Definition scaled_le (b k num den : Z) : bool :=
  if (0 <=? k)%Z then (b ^ k * den <=? num)%Z
  else (den <=? b ^ (- k) * num)%Z.

(** [num / (b^k * den)] rounded half-even, for any sign of [k]. *)
Definition scaled_round (b k num den : Z) : Z :=
  if (0 <=? k)%Z then round_half_even num (b ^ k * den)
  else round_half_even (b ^ (- k) * num) den.

(** Largest [k] with [2^k <= num / den] ([0 < num], [0 < den]). *)
Definition floor_log2 (num den : Z) : Z :=
  let l := (Z.log2 num - Z.log2 den)%Z in
  if scaled_le 2 l num den then l else (l - 1)%Z.

(** The binary64 nearest to [(-1)^neg * num / den], ties to even;
    overflow gives an infinity, underflow a subnormal or zero. *)
Definition of_ratio (neg : bool) (num den : Z) : float :=
  if (num =? 0)%Z then Finite neg 0 0
  else
    let e := Z.max (floor_log2 num den - 52) (-1074) in
    let m := scaled_round 2 e num den in
    let '(m, e) := if (m =? 2 ^ 53)%Z then (2 ^ 52, e + 1)%Z else (m, e) in
    if (971 <? e)%Z then Inf neg else Finite neg (Z.to_N m) e.

(** A run of decimal digits at the head of [s], with the underscores
    Python allows between two digits: the value with [acc] as the
    digits already read, how many digits were read, and the rest. *)
Fixpoint digits (acc : Z) (n : Z) (s : string) : Z * Z * string :=
  match s with
  | "" => (acc, n, "")
  | String c s' =>
      match Py.digit c with
      | Some d =>
          match s' with
          | String "_" (String c' _ as s'') =>
              match Py.digit c' with
              | Some _ => digits (10 * acc + d) (n + 1) s''
              | None => (10 * acc + d, n + 1, s')%Z
              end
          | _ => digits (10 * acc + d) (n + 1) s'
          end
      | None => (acc, n, s)
      end
  end.

Definition lower (c : ascii) : ascii :=
  let n := nat_of_ascii c in
  if (65 <=? n)%nat && (n <=? 90)%nat then ascii_of_nat (n + 32) else c.

Fixpoint lower_str (s : string) : string :=
  match s with
  | "" => ""
  | String c s' => String (lower c) (lower_str s')
  end.

(** The exponent part [e[+-]digits]; an absent exponent is [0]. *)
Definition exponent (s : string) : option Z :=
  match s with
  | "" => Some 0%Z
  | String c s' =>
      if Ascii.eqb (lower c) "e" then
        let '(neg, s'') :=
          match s' with
          | String "+" r => (false, r)
          | String "-" r => (true, r)
          | _ => (false, s')
          end in
        match digits 0 0 s'' with
        | (v, n, "") =>
            if (0 <? n)%Z then Some (if neg then (- v)%Z else v) else None
        | _ => None
        end
      else None
  end.

(** [number [exponent]] without its sign, as the pair [(d, x)] that
    stands for [d * 10^x]. *)
Definition decimal (s : string) : option (Z * Z) :=
  let '(ip, ni, s1) := digits 0 0 s in
  let '(d, nf, s2) :=
    match s1 with
    | String "." r => let '(d, nf, s2) := digits ip 0 r in (d, nf, s2)
    | _ => (ip, 0%Z, s1)
    end in
  if (0 <? ni + nf)%Z then
    x ← exponent s2; Some (d, (x - nf)%Z)
  else None.

Definition of_decimal (neg : bool) (d x : Z) : float :=
  if (0 <=? x)%Z then of_ratio neg (d * 10 ^ x) 1
  else of_ratio neg d (10 ^ (- x)).

(** [float(s)]; [None] stands for [ValueError]. *)
Definition of_string (s : string) : option float :=
  let s := Py.strip_literal s in
  let '(neg, body) :=
    match s with
    | String "+" r => (false, r)
    | String "-" r => (true, r)
    | _ => (false, s)
    end in
  let l := lower_str body in
  if String.eqb l "inf" || String.eqb l "infinity" then Some (Inf neg)
  else if String.eqb l "nan" then Some NaN
  else '(d, x) ← decimal body; Some (of_decimal neg d x).

(** Number of decimal digits of [n > 0]. *)
Fixpoint ndigits_go (fuel : nat) (n : Z) : Z :=
  match fuel with
  | O => 0
  | S k => if (n <? 10)%Z then 1 else (1 + ndigits_go k (n / 10))%Z
  end.
Definition ndigits (n : Z) : Z := ndigits_go (S (Z.to_nat (Z.log2 n))) n.

(** Largest [k] with [10^k <= num / den] ([0 < num], [0 < den]). *)
Definition floor_log10 (num den : Z) : Z :=
  let l := (ndigits num - ndigits den)%Z in
  if scaled_le 10 l num den then l else (l - 1)%Z.

(** [num / den] to [p + 1] significant decimal digits, ties to even:
    the digits as an integer [D] with [10^p <= D < 10^(p+1)] and the
    decimal exponent [E], so that [num / den] is about [D * 10^(E-p)]. *)
Definition sci_digits (p : Z) (num den : Z) : Z * Z :=
  let E := floor_log10 num den in
  let D := scaled_round 10 (E - p) num den in
  if (D =? 10 ^ (p + 1))%Z then (10 ^ p, E + 1)%Z else (D, E).

Definition digit_char (d : Z) : ascii :=
  ascii_of_nat (48 + Z.to_nat d).

(** The [n] low decimal digits of [D], most significant first. *)
Fixpoint low_digits (n : nat) (D : Z) : string :=
  match n with
  | O => ""
  | S k => String (digit_char ((D / 10 ^ Z.of_nat k) mod 10)) (low_digits k D)
  end.

(** The exponent of the ['e'] presentation: a sign and at least two
    digits. *)
Definition exp_str (E : Z) : string :=
  let ds := NilZero.string_of_uint (N.to_uint (Z.abs_N E)) in
  String (if (E <? 0)%Z then "-" else "+")%char
         (if (String.length ds <? 2)%nat then String "0" ds else ds).

(** [format(x, '.<p>e')]. *)
Definition format_e (p : nat) (x : float) : string :=
  match x with
  | NaN => "nan"
  | Inf neg => if neg then "-inf" else "inf"
  | Finite neg m e =>
      let m := Z.of_N m in
      let '(D, E) :=
        if (m =? 0)%Z then (0, 0)%Z
        else if (0 <=? e)%Z then sci_digits (Z.of_nat p) (m * 2 ^ e) 1
        else sci_digits (Z.of_nat p) m (2 ^ (- e)) in
      (if neg then "-" else "") +:+
      String (digit_char (D / 10 ^ Z.of_nat p))
        ((if (0 <? p)%nat then "." else "") +:+ low_digits p D) +:+
      "e" +:+ exp_str E
  end.

End Float.

(* ===================================================================== *)
(** ** Configuration ([config.py]) *)
(* ===================================================================== *)

Record config := Config {
  SOURCE_DIR : string;
  JOB_SCRIPT : string;
  INPUT_FILE : string;
  NUM_CHUNKS : Z;
  DAT_WIDTH : nat;          (* DAT_PATTERN = DAT_PREFIX + '%0<DAT_WIDTH>d' + DAT_SUFFIX *)
  DAT_PREFIX : string;
  DAT_SUFFIX : string;
  CHECK_INTERVAL : Z;
  LOG_FILE : string;
}.

(** [CONFIG] of [config.py]; ['PELOOP.%08d.dat'] is split around its
    conversion. *)
Definition CONFIG : config :=
  {| SOURCE_DIR := "origin";
     JOB_SCRIPT := "V-3.sh";
     INPUT_FILE := "inputN.in";
     NUM_CHUNKS := 20;
     DAT_WIDTH := 8; DAT_PREFIX := "PELOOP."; DAT_SUFFIX := ".dat";
     CHECK_INTERVAL := 60;
     LOG_FILE := "sequential_run.log" |}.

(** One entry of [STEPS]. [params] is the dict in insertion order. *)
Record step := Step {
  name : string;
  description : string;
  params : list (string * string);
  final_step : Z;
}.

Definition STEPS : list step :=
  [ {| name := "Step 1: Apply positive field";
       description := "mx0=100, phi0=40, 5000 steps";
       params := [ ("line8", "5000 1000 1000 0");
                   ("line10", "1 0 0 1");
                   ("line23", "1 5 20 100 20 40.0 0 100 8");
                   ("line24", "40.0 0.0 0.01 0.6 0.4 0.0") ];
       final_step := 5000 |};
    {| name := "Step 2: Relax";
       description := "mx0=100, phi0=0, 2000 steps";
       params := [ ("line8", "2000 1000 1000 5000");
                   ("line10", "1 0 0 1");
                   ("line23", "1 5 20 100 20 40.0 0 100 8");
                   ("line24", "0.0 0.0 0.01 0.6 0.4 0.0") ];
       final_step := 7000 |} ].

(* ===================================================================== *)
(** ** NumPy arrays of rank 3 *)
(* ===================================================================== *)

Module Np.

(** A [float64] array of shape [(n0, n1, n2)]. [data] holds the
    entries that were assigned; every other entry is still the zero
    [np.zeros] put there. *)
Record ndarray := NdArray {
  shape : Z * Z * Z;
  data : gmap (Z * Z * Z) Float.float;
}.

(** The bytes of a [float64], and the largest [npy_intp] of a 64-bit
    platform. *)
Definition itemsize : Z := 8.
Definition max_intp : Z := 2 ^ 63 - 1.

(** The size check of an array of rank 3: the item size times the
    dimensions, those of 0 left out, must fit [npy_intp]. *)
Definition fits (sh : Z * Z * Z) : bool :=
  let '(n0, n1, n2) := sh in
  (itemsize * Z.max 1 n0 * Z.max 1 n1 * Z.max 1 n2 <=? max_intp)%Z.

(** [np.zeros(shape)]; [None] stands for the [ValueError] on a
    negative dimension and on a shape that fails the size check. The
    memory of an array that passes the check is taken to be there. *)
Definition zeros (sh : Z * Z * Z) : option ndarray :=
  let '(n0, n1, n2) := sh in
  if (0 <=? n0)%Z && (0 <=? n1)%Z && (0 <=? n2)%Z && fits sh
  then Some (NdArray sh ∅) else None.

(** Position along an axis of length [n]: negative indices wrap. *)
Definition axis (n i : Z) : option Z :=
  if (0 <=? i)%Z && (i <? n)%Z then Some i
  else if (- n <=? i)%Z && (i <? 0)%Z then Some (i + n)%Z
  else None.

Definition position (a : ndarray) (ix : Z * Z * Z) : option (Z * Z * Z) :=
  let '(n0, n1, n2) := shape a in
  let '(i, j, k) := ix in
  i' ← axis n0 i; j' ← axis n1 j; k' ← axis n2 k; Some (i', j', k').

(** [a[i, j, k]] and [a[i, j, k] = x]; [None] stands for [IndexError]. *)
Definition get (a : ndarray) (ix : Z * Z * Z) : option Float.float :=
  p ← position a ix; Some (default Float.zero (data a !! p)).

Definition set (a : ndarray) (ix : Z * Z * Z) (x : Float.float) : option ndarray :=
  p ← position a ix; Some (NdArray (shape a) (<[p := x]> (data a))).

End Np.

(* ===================================================================== *)
(** ** Process state and effects *)
(* ===================================================================== *)

(** Exceptions the script can meet. *)
Inductive exn :=
  | ValueError
  | IndexError
  | TypeError
  | FileNotFoundError
  | CalledProcessError (returncode : Z)
  | OSError (msg : string).

(** A line handed to [log_message]. The f-strings that interpolate an
    exception or an elapsed time keep the interpolated value itself. *)
Inductive log_entry :=
  | Msg (text : string)
  | MsgExn (text : string) (e : exn)
  | MsgMinutes (before : string) (elapsed : Q) (decimals : nat) (after : string).

(** What the scheduler commands did, as [subprocess.run] reports it. *)
Inductive sbatch_outcome :=
  | SbatchExit0 (stdout : string)
  | SbatchNonZero (returncode : Z)
  | SbatchNotRun (e : exn).

Inductive squeue_outcome :=
  | SqueueRan (stdout : string)
  | SqueueNotRun (e : exn).

(** Interactions with the outside of the process, in the order made. *)
Inductive call :=
  | Sbatch (dir : list string) (script : string)
  | Squeue (job_id : string)
  | Sleep (seconds : Z).

(** Paths are lists of components below the directory the script was
    started in. *)
Definition path := list string.

(** The state of the process and of what it touches: the current
    directory, the regular files and the directories, the lines
    appended to the log file and those printed, and the interactions
    made. The log file lies beside the script and is written by
    [log_message] only: it is kept apart from [files]. *)
Record world := World {
  cwd : path;
  files : gmap path string;
  dirs : gset path;
  log : list log_entry;
  screen : list log_entry;
  calls : list call;
}.

Definition set_cwd (c : path) (w : world) : world :=
  World c (files w) (dirs w) (log w) (screen w) (calls w).
Definition set_files (f : gmap path string) (w : world) : world :=
  World (cwd w) f (dirs w) (log w) (screen w) (calls w).
Definition set_dirs (d : gset path) (w : world) : world :=
  World (cwd w) (files w) d (log w) (screen w) (calls w).
Definition add_log (e : log_entry) (to_screen : bool) (w : world) : world :=
  World (cwd w) (files w) (dirs w) (log w ++ [e])
        (if to_screen then screen w ++ [e] else screen w) (calls w).
Definition add_call (c : call) (w : world) : world :=
  World (cwd w) (files w) (dirs w) (log w) (screen w) (calls w ++ [c]).

(** A computation returns a value, raises, or is still blocked when the
    polls it was given are used up. *)
Inductive result (A : Type) : Type :=
  | Ok (a : A)
  | Raise (e : exn)
  | Blocked.
Arguments Ok {A} a.
Arguments Raise {A} e.
Arguments Blocked {A}.

Definition M (A : Type) : Type := world → result A * world.

#[global] Instance M_ret : MRet M := λ A a w, (Ok a, w).
#[global] Instance M_bind : MBind M := λ A B f m w,
  match m w with
  | (Ok a, w') => f a w'
  | (Raise e, w') => (Raise e, w')
  | (Blocked, w') => (Blocked, w')
  end.
#[global] Instance M_throw : MThrow exn M := λ A e w, (Raise e, w).

Definition gets {A} (f : world → A) : M A := λ w, (Ok (f w), w).
Definition modify (f : world → world) : M unit := λ w, (Ok tt, f w).

(** [try: body except <class> as e: handler e]; [caught] tells which
    exceptions are instances of the class. *)
Definition try_except {A} (body : M A) (caught : exn → bool)
    (handler : exn → M A) : M A := λ w,
  match body w with
  | (Raise e, w') => if caught e then handler e w' else (Raise e, w')
  | r => r
  end.

(** Every exception of the model derives from [Exception]. *)
Definition Exception (e : exn) : bool := true.

Definition is_CalledProcessError (e : exn) : bool :=
  match e with CalledProcessError _ => true | _ => false end.

(** A [for] loop whose body has no result. *)
Fixpoint for_ {A} (l : list A) (body : A → M unit) : M unit :=
  match l with
  | [] => mret tt
  | x :: l' => body x ;; for_ l' body
  end.

(** Leaving a function from inside a loop: the value returned, or the
    loop variables to go on with. *)
Inductive flow (R A : Type) : Type :=
  | Return (r : R)
  | Continue (a : A).
Arguments Return {R A} r.
Arguments Continue {R A} a.

(** [try: body finally: cleanup]. *)
Definition try_finally {A} (body : M A) (cleanup : M unit) : M A := λ w,
  match body w with
  | (Ok a, w') => (cleanup ;; mret a) w'
  | (Raise e, w') => (cleanup ;; mthrow e) w'
  | (Blocked, w') => (Blocked, w')
  end.

Definition of_option {A} (e : exn) (o : option A) : M A :=
  match o with Some a => mret a | None => mthrow e end.

(** [l[i]] and [l[i] = x] on a Python list. *)
Definition getitem {A} (l : list A) (i : Z) : M A :=
  n ← of_option IndexError (Py.index (length l) i);
  of_option IndexError (l !! n).

Definition setitem {A} (l : list A) (i : Z) (x : A) : M (list A) :=
  n ← of_option IndexError (Py.index (length l) i);
  mret (<[n := x]> l).

(** [os.chdir(d)] for a directory name [d], and [os.chdir('..')], where
    the directory is there: [main] creates the work directory before
    anything else. A call where it is missing raises in the script and
    is not described here; a statement that needs the directory says
    so. *)
Definition chdir (d : string) : M unit :=
  modify (λ w, set_cwd (cwd w ++ [d]) w).

Definition chdir_up : M unit :=
  modify (λ w, set_cwd (removelast (cwd w)) w).

(** [os.path.isfile]. *)
Definition isfile (p : path) : M bool :=
  gets (λ w, bool_decide (is_Some (files w !! (cwd w ++ p)))).

(** Whole content of [open(p)], for a path that names a regular file
    or nothing: [FileNotFoundError] is the one failure described. *)
Definition read_file (p : path) : M string :=
  o ← gets (λ w, files w !! (cwd w ++ p));
  of_option FileNotFoundError o.

(** [open(p, 'w')] followed by writing [content], for a path that can
    be opened for writing (no directory has its name). Opening
    truncates. *)
Definition write_file (p : path) (content : string) : M unit :=
  modify (λ w, set_files (<[cwd w ++ p := content]> (files w)) w).

(** [f.write(s)] on a file opened for writing at [p]. *)
Definition fwrite (p : path) (s : string) : M unit :=
  modify (λ w, set_files
    (<[cwd w ++ p := default "" (files w !! (cwd w ++ p)) +:+ s]> (files w)) w).

(** [os.makedirs(p, exist_ok=True)]: fails when a regular file is in the
    way. *)
Definition makedirs (p : path) : M unit :=
  is_file ← isfile p;
  if is_file : bool then mthrow (OSError "File exists")
  else modify (λ w, set_dirs (dirs w ∪ {[cwd w ++ p]}) w).

(** [shutil.copy2(src, dst)]. *)
Definition copy2 (src dst : path) : M unit :=
  content ← read_file src;
  write_file dst content.

(** [os.path.join] of plain names, as the string it returns. *)
Definition path_str (p : path) : string := String.concat "/" p.

Definition LF : string := String "010" "".

Section Script.

Variable cfg : config.
(** The global [WORK_DIR], set once by [main]. *)
Variable WORK_DIR : string.

(** [log_message]: the time stamp is left out. *)
Definition log_entry_to (e : log_entry) (print_to_screen : bool) : M unit :=
  modify (add_log e print_to_screen).
Definition log_message (message : string) : M unit :=
  log_entry_to (Msg message) true.

Definition read_input_file (filepath : path) : M (list string) :=
  content ← read_file filepath;
  mret (Py.readlines content).

Definition write_input_file (filepath : path) (lines : list string) : M unit :=
  write_file filepath (Py.writelines lines).

(** The loop of [modify_input_params] over [params.items()]. *)
Fixpoint modify_lines (lines : list string) (items : list (string * string))
  : M (list string) :=
  match items with
  | [] => mret lines
  | (line_key, new_content) :: items' =>
      line_num ← of_option ValueError (Py.int (Py.replace "line" "" line_key));
      old_line ← getitem lines (line_num - 1);
      new_line ←
        (if Py.contains "!" old_line then
           rest ← getitem (Py.split_once "!" old_line) 1;
           mret (new_content +:+ " " +:+ ("!" +:+ rest))
         else mret (new_content +:+ LF));
      lines' ← setitem lines (line_num - 1) new_line;
      log_message ("  Line " +:+ Py.str_of_int line_num +:+ ": " +:+ new_content);;
      modify_lines lines' items'
  end.

Definition modify_input_params (params : list (string * string)) : M unit :=
  let input_path := [WORK_DIR; INPUT_FILE cfg] in
  log_message ("Modifying " +:+ path_str input_path +:+ "...");;
  lines ← read_input_file input_path;
  lines ← modify_lines lines params;
  write_input_file input_path lines;;
  log_message ("✓ " +:+ INPUT_FILE cfg +:+ " updated successfully").


(** The three arrays and the dimensions [extract_final_state] holds
    once the first header is read; before that all six are [None]. *)
Record grid := Grid {
  nx : Z; ny : Z; nz : Z;
  pxx : Np.ndarray; pyy : Np.ndarray; pzz : Np.ndarray;
}.

(** [DAT_PATTERN % idx]. *)
Definition dat_name (idx : Z) : string :=
  DAT_PREFIX cfg +:+ Py.fmt_0d (DAT_WIDTH cfg) idx +:+ DAT_SUFFIX cfg.

(** One iteration of [for line in f]. *)
Definition scan_line (g : grid) (line : string) : M grid :=
  let pts := Py.split line in
  if (length pts <? 6)%nat then mret g
  else
    i1 ← of_option ValueError (Py.int (default "" (pts !! 0%nat)));
    j1 ← of_option ValueError (Py.int (default "" (pts !! 1%nat)));
    k1 ← of_option ValueError (Py.int (default "" (pts !! 2%nat)));
    px ← of_option ValueError (Float.of_string (default "" (pts !! 3%nat)));
    py ← of_option ValueError (Float.of_string (default "" (pts !! 4%nat)));
    pz ← of_option ValueError (Float.of_string (default "" (pts !! 5%nat)));
    let ix := (i1 - 1, j1 - 1, k1 - 1)%Z in
    pxx' ← of_option IndexError (Np.set (pxx g) ix px);
    pyy' ← of_option IndexError (Np.set (pyy g) ix py);
    pzz' ← of_option IndexError (Np.set (pzz g) ix pz);
    mret (Grid (nx g) (ny g) (nz g) pxx' pyy' pzz').

Fixpoint scan_lines (g : grid) (lines : list string) : M grid :=
  match lines with
  | [] => mret g
  | line :: lines' => g' ← scan_line g line; scan_lines g' lines'
  end.

(** The body of [for chunk in range(NUM_CHUNKS)]. *)
Definition scan_chunk (final_step : Z) (g : option grid) (chunk : Z)
  : M (flow bool (option grid)) :=
  let idx := (final_step + chunk)%Z in
  let fname := dat_name idx in
  present ← isfile [fname];
  if negb present then
    log_message ("ERROR: Missing data file: " +:+ fname);;
    mret (Return false)
  else
    content ← read_file [fname];
    let lines := Py.readlines content in
    let header := Py.split (default "" (head lines)) in
    if (length header <? 3)%nat then
      log_message ("ERROR: Bad header in " +:+ fname);;
      mret (Return false)
    else
      g ← match g with
          | Some g => mret g
          | None =>
              nx ← of_option ValueError (Py.int (default "" (header !! 0%nat)));
              ny ← of_option ValueError (Py.int (default "" (header !! 1%nat)));
              nz ← of_option ValueError (Py.int (default "" (header !! 2%nat)));
              log_message ("Grid dimensions: nx=" +:+ Py.str_of_int nx +:+
                           ", ny=" +:+ Py.str_of_int ny +:+
                           ", nz=" +:+ Py.str_of_int nz);;
              pxx ← of_option ValueError (Np.zeros (nx, ny, nz));
              pyy ← of_option ValueError (Np.zeros (nx, ny, nz));
              pzz ← of_option ValueError (Np.zeros (nx, ny, nz));
              mret (Grid nx ny nz pxx pyy pzz)
          end;
      g ← scan_lines g (tail lines);
      mret (Continue (Some g)).

Fixpoint scan_chunks (final_step : Z) (g : option grid) (chunks : list Z)
  : M (flow bool (option grid)) :=
  match chunks with
  | [] => mret (Continue g)
  | chunk :: chunks' =>
      r ← scan_chunk final_step g chunk;
      match r with
      | Return b => mret (Return b)
      | Continue g' => scan_chunks final_step g' chunks'
      end
  end.

(** One line of the restart file, [i], [j], [k] zero-based. *)
Definition write_point (g : grid) (i j k : Z) : M unit :=
  px ← of_option IndexError (Np.get (pxx g) (i, j, k));
  py ← of_option IndexError (Np.get (pyy g) (i, j, k));
  pz ← of_option IndexError (Np.get (pzz g) (i, j, k));
  fwrite ["pxyz.in"]
    (Py.str_of_int (i + 1) +:+ " " +:+ Py.str_of_int (j + 1) +:+ " " +:+
     Py.str_of_int (k + 1) +:+ " " +:+ Float.format_e 5 px +:+ " " +:+
     Float.format_e 5 py +:+ " " +:+ Float.format_e 5 pz +:+ LF).

(** The [with open('pxyz.in', 'w')] block. With no chunk read the
    dimensions are still [None]: the header line is written as such
    and [range(None)] raises. *)
Definition write_restart (g : option grid) : M unit :=
  write_file ["pxyz.in"] "";;
  match g with
  | None =>
      fwrite ["pxyz.in"] ("None None None" +:+ LF);;
      mthrow TypeError
  | Some g =>
      fwrite ["pxyz.in"]
        (Py.str_of_int (nx g) +:+ " " +:+ Py.str_of_int (ny g) +:+ " " +:+
         Py.str_of_int (nz g) +:+ LF);;
      for_ (Py.range (nx g)) (λ i,
        for_ (Py.range (ny g)) (λ j,
          for_ (Py.range (nz g)) (λ k, write_point g i j k)))
  end.

Definition extract_final_state (final_step : Z) : M bool :=
  log_message ("Extracting final state at step " +:+ Py.str_of_int final_step +:+ "...");;
  chdir WORK_DIR;;
  try_finally
    (try_except
       (r ← scan_chunks final_step None (Py.range (NUM_CHUNKS cfg));
        match r with
        | Return b => mret b
        | Continue g =>
            log_message "Writing pxyz.in...";;
            write_restart g;;
            match g with
            | Some g =>
                log_message ("Successfully generated pxyz.in with " +:+
                             Py.str_of_int (nx g * ny g * nz g) +:+ " grid points")
            | None => mthrow TypeError
            end;;
            mret true
        end)
       Exception
       (λ e, log_entry_to (MsgExn "ERROR during data extraction: " e) true;;
             mret false))
    chdir_up.

Definition backup_files (step_num : Z) (step_name : string) : M unit :=
  let backup_dir := [WORK_DIR; "step" +:+ Py.str_of_int step_num +:+ "_backup"] in
  makedirs backup_dir;;
  let files_to_backup := [ [WORK_DIR; INPUT_FILE cfg]; [WORK_DIR; "pxyz.in"] ] in
  for_ files_to_backup (λ src,
    present ← isfile src;
    if present : bool then copy2 src (backup_dir ++ [default "" (last src)])
    else mret tt);;
  log_message ("Backed up files to " +:+ path_str backup_dir +:+ "/").

(** *** The scheduler *)

(** What is outside the process, as functions of the interactions made
    so far: the outcome of the next [sbatch] and [squeue], what the
    submitted jobs have done to the files once an interaction is over,
    and the reading of [time.time()]. *)
Variable sbatch_run : list call → sbatch_outcome.
Variable squeue_run : list call → squeue_outcome.
Variable outside : list call → gmap path string → gmap path string.
Variable clock : list call → Q.

(** The state once the interaction [c] is over. *)
Definition after_call (c : call) (w : world) : world :=
  set_files (outside (calls w ++ [c]) (files w)) (add_call c w).

Definition interact (c : call) : M unit := modify (after_call c).

Definition submit_job : M (option string) :=
  chdir WORK_DIR;;
  try_finally
    (try_except
       (outcome ← gets (λ w, sbatch_run (calls w));
        dir ← gets cwd;
        interact (Sbatch dir (JOB_SCRIPT cfg));;
        stdout ← match outcome with
                 | SbatchExit0 stdout => mret stdout
                 | SbatchNonZero code => mthrow (CalledProcessError code)
                 | SbatchNotRun e => mthrow e
                 end;
        let output := Py.strip stdout in
        if Py.contains "Submitted batch job" output then
          job_id ← getitem (Py.split output) (-1);
          log_message ("Job submitted successfully. Job ID: " +:+ job_id);;
          mret (Some job_id)
        else
          log_message ("WARNING: Unexpected sbatch output: " +:+ output);;
          mret None)
       is_CalledProcessError
       (λ e, log_entry_to (MsgExn "ERROR: Job submission failed: " e) true;;
             mret None))
    chdir_up.

Definition check_job_status (job_id : string) : M bool :=
  try_except
    (outcome ← gets (λ w, squeue_run (calls w));
     interact (Squeue job_id);;
     match outcome with
     | SqueueRan stdout => mret (Py.contains job_id stdout)
     | SqueueNotRun e => mthrow e
     end)
    Exception
    (λ e, log_entry_to (MsgExn "WARNING: Error checking job status: " e) true;;
          mret false).

(** [time.sleep]: a negative duration is a [ValueError]. *)
Definition sleep (seconds : Z) : M unit :=
  if (seconds <? 0)%Z then mthrow ValueError else interact (Sleep seconds).

(** [int(x)] for a float [x]: truncation towards zero. *)
Definition int_of_Q (x : Q) : Z := Z.quot (Qnum x) (Zpos (Qden x)).

(** The [while True] loop of [wait_for_job_completion], given [polls]
    iterations. *)
Fixpoint wait_loop (polls : nat) (job_id : string) (start_time : Q) : M bool :=
  match polls with
  | O => λ w, (Blocked, w)
  | S polls' =>
      now ← gets (λ w, clock (calls w));
      let elapsed := (now - start_time)%Q in
      running ← check_job_status job_id;
      if negb running then
        log_entry_to (MsgMinutes ("Job " +:+ job_id +:+ " completed after ")
                                 elapsed 1 " minutes") true;;
        mret true
      else
        sleep (CHECK_INTERVAL cfg);;
        (if (int_of_Q elapsed mod 600 =? 0)%Z then
           log_entry_to (MsgMinutes ("Job " +:+ job_id +:+ " still running... (")
                                    elapsed 0 " min elapsed)") false
         else mret tt);;
        wait_loop polls' job_id start_time
  end.

Definition wait_for_job_completion (polls : nat) (job_id : string) : M bool :=
  log_message ("Waiting for job " +:+ job_id +:+ " to complete...");;
  start_time ← gets (λ w, clock (calls w));
  wait_loop polls job_id start_time.

(** *** The orchestrator *)

(** ["=" * n]. *)
Fixpoint rule (n : nat) : string :=
  match n with O => "" | S k => String "=" (rule k) end.

(** The body of the loop of [run_sequential_steps]: [Return false] is
    one of its three [return False]; [Continue tt] goes on with the
    next step. *)
Definition run_step (polls : nat) (total : nat) (step_idx : Z)
    (step_config : step) : M (flow bool unit) :=
  log_message (LF +:+ rule 70);;
  log_message ("STEP " +:+ Py.str_of_int step_idx +:+ "/" +:+
               Py.str_of_int (Z.of_nat total) +:+ ": " +:+ name step_config);;
  log_message (rule 70);;
  log_message ("Description: " +:+ description step_config);;
  log_message (LF +:+ "[1/5] Modifying input parameters...");;
  modify_input_params (params step_config);;
  log_message (LF +:+ "[2/5] Submitting job to compute nodes...");;
  job_id ← submit_job;
  match job_id with
  | None =>
      log_message "ERROR: Failed to submit job. Stopping.";;
      mret (Return false)
  | Some job_id =>
      log_message (LF +:+ "[3/5] Waiting for job completion...");;
      completed ← wait_for_job_completion polls job_id;
      if negb completed then
        log_message "ERROR: Job did not complete successfully. Stopping.";;
        mret (Return false)
      else
        log_message (LF +:+ "[4/5] Extracting final state at step " +:+
                     Py.str_of_int (final_step step_config) +:+ "...");;
        extracted ← extract_final_state (final_step step_config);
        if negb extracted then
          log_message "ERROR: Failed to extract final state. Stopping.";;
          mret (Return false)
        else
          log_message (LF +:+ "[5/5] Backing up files...");;
          backup_files step_idx (name step_config);;
          log_message (LF +:+ "✓ Step " +:+ Py.str_of_int step_idx +:+
                       " completed successfully!");;
          mret (Continue tt)
  end.

(** [for step_idx, step_config in enumerate(..., step_idx)]. *)
Fixpoint run_steps (polls : nat) (total : nat) (step_idx : Z)
    (steps : list step) : M bool :=
  match steps with
  | [] => mret true
  | step_config :: steps' =>
      r ← run_step polls total step_idx step_config;
      match r with
      | Return b => mret b
      | Continue _ => run_steps polls total (step_idx + 1) steps'
      end
  end.

Definition run_sequential_steps (polls : nat) (steps : list step) : M bool :=
  log_message (rule 70);;
  log_message "SEQUENTIAL PARAMETER ADJUSTMENT AND AUTO-PROGRESSION";;
  log_message (rule 70);;
  log_message ("Total steps to execute: " +:+
               Py.str_of_int (Z.of_nat (length steps)) +:+ LF);;
  run_steps polls (length steps) 1 steps.

End Script.


(* ===================================================================== *)
(** ** The preview and the entry point *)
(* ===================================================================== *)

(** [print(text)]: the text goes to the screen and nowhere else. *)
Definition print (text : string) : M unit :=
  modify (λ w, World (cwd w) (files w) (dirs w) (log w)
                     (screen w ++ [Msg text]) (calls w)).

(** [key in d] and [d[key]] on a dict given by its items; the keys of a
    dict are pairwise different. *)
Definition dict_get (key : string) (d : list (string * string)) : option string :=
  snd <$> List.find (λ item, String.eqb item.1 key) d.

(** [format(s, '>2')] and the like: [s] moved to the right in a field
    of [width] characters. *)
Definition rjust (width : nat) (s : string) : string :=
  Nat.iter (width - String.length s) (String " ") s.

(** The first loop of [preview_steps]; [prev_final] is
    [STEPS[i-2]['final_step']], and [None] at the first step. *)
Fixpoint preview_listing (i : Z) (prev_final : option Z) (steps : list step)
  : M unit :=
  match steps with
  | [] => mret tt
  | st :: steps' =>
      print (LF +:+ rule 80);;
      print ("STEP " +:+ Py.str_of_int i +:+ ": " +:+ name st);;
      print (rule 80);;
      print ("Description: " +:+ description st);;
      print ("Final step:  " +:+ Py.str_of_int (final_step st));;
      print (LF +:+ "Parameters to modify:");;
      for_ (params st) (λ item,
        let line_num := Py.replace "line" "" item.1 in
        print ("  Line " +:+ rjust 2 line_num +:+ ": " +:+ item.2));;
      let duration :=
        match prev_final with
        | None => final_step st
        | Some prev => (final_step st - prev)%Z
        end in
      print (LF +:+ "Duration: " +:+ Py.str_of_int duration +:+ " steps");;
      preview_listing (i + 1) (Some (final_step st)) steps'
  end.

(** The loop that checks the continuity of the steps: [st], the head
    of [steps], is [STEPS[i]] and [prev] is [STEPS[i-1]]. *)
Fixpoint check_continuity (i : Z) (prev : step) (steps : list step)
    (errors : list string) : M (list string) :=
  match steps with
  | [] => mret errors
  | st :: steps' =>
      errors ←
        match dict_get "line8" (params st) with
        | Some line8 =>
            token ← getitem (Py.split line8) 3;
            current_kstart ← of_option ValueError (Py.int token);
            let prev_final := final_step prev in
            if negb (current_kstart =? prev_final)%Z then
              mret (errors ++
                    ["Step " +:+ Py.str_of_int (i + 1) +:+ ": kstart=" +:+
                     Py.str_of_int current_kstart +:+
                     " doesn't match previous final_step=" +:+
                     Py.str_of_int prev_final])
            else mret errors
        | None => mret errors
        end;
      check_continuity (i + 1) st steps' errors
  end.

(** The loop that checks [final_step] against [kstep + kstart]. *)
Fixpoint check_final_step (i : Z) (steps : list step) (errors : list string)
  : M (list string) :=
  match steps with
  | [] => mret errors
  | st :: steps' =>
      errors ←
        match dict_get "line8" (params st) with
        | Some line8 =>
            let line8_parts := Py.split line8 in
            token0 ← getitem line8_parts 0;
            kstep ← of_option ValueError (Py.int token0);
            token3 ← getitem line8_parts 3;
            kstart ← of_option ValueError (Py.int token3);
            let expected_final := (kstep + kstart)%Z in
            if negb (expected_final =? final_step st)%Z then
              mret (errors ++
                    ["Step " +:+ Py.str_of_int i +:+ ": kstep(" +:+
                     Py.str_of_int kstep +:+ ")+kstart(" +:+
                     Py.str_of_int kstart +:+ ")=" +:+
                     Py.str_of_int expected_final +:+
                     " doesn't match final_step=" +:+
                     Py.str_of_int (final_step st)])
            else mret errors
        | None => mret errors
        end;
      check_final_step (i + 1) steps' errors
  end.

Definition preview_steps (steps : list step) : M bool :=
  print (rule 80);;
  print "SEQUENTIAL STEPS PREVIEW";;
  print (rule 80);;
  print (LF +:+ "Total steps configured: " +:+
         Py.str_of_int (Z.of_nat (length steps)) +:+ LF);;
  preview_listing 1 None steps;;
  print (LF +:+ rule 80);;
  print "VALIDATION CHECKS";;
  print (rule 80);;
  errors ← match steps with
           | [] => mret []
           | first :: rest => check_continuity 1 first rest []
           end;
  errors ← check_final_step 1 steps errors;
  (if negb (bool_decide (errors = [])) then
     print (LF +:+ "❌ ERRORS FOUND:");;
     for_ errors (λ err, print ("  - " +:+ err))
   else
     print (LF +:+ "✓ No critical errors found");;
     print "✓✓✓ Configuration looks good!");;
  mret (bool_decide (length errors = 0%nat)).

(** *** The work directory *)

(** [print] of an f-string that interpolates an exception. *)
Definition print_entry (e : log_entry) : M unit :=
  modify (λ w, World (cwd w) (files w) (dirs w) (log w) (screen w ++ [e])
                     (calls w)).

(** [fnmatch.fnmatch(name, pat)] on a POSIX system, for patterns
    without bracket expressions, as are those of the script: [*]
    stands for any run of characters, [?] for any one character, and
    every other character for itself. *)
Fixpoint fnmatch (pat name : string) : bool :=
  match pat with
  | "" => Py.is_empty name
  | String c pat' =>
      if Ascii.eqb c "*" then
        (fix skip (name : string) : bool :=
           fnmatch pat' name ||
           match name with
           | "" => false
           | String _ name' => skip name'
           end) name
      else
        match name with
        | "" => false
        | String d name' =>
            (Ascii.eqb c "?" || Ascii.eqb c d) && fnmatch pat' name'
        end
  end.

(** The patterns given to [shutil.ignore_patterns], and the names the
    function it returns tells [copytree] to leave out. *)
Definition IGNORE_PATTERNS : list string :=
  ["*.dat"; "PELOOP.*"; "slurm-*"; "fort.*"; "energy_out.dat"].

Definition ignored (name : string) : bool :=
  existsb (λ pat, fnmatch pat name) IGNORE_PATTERNS.

(** [os.path.isdir]. *)
Definition isdir (p : path) : M bool :=
  gets (λ w, bool_decide (cwd w ++ p ∈ dirs w)).

(** What is left of [p] below the directory [dir]. *)
Fixpoint below (dir p : path) : option path :=
  match dir, p with
  | [], _ => Some p
  | d :: dir', x :: p' => if String.eqb d x then below dir' p' else None
  | _ :: _, [] => None
  end.

(** Where [copytree(src, dst, ignore)] puts what is at [p]: nowhere
    when [p] is not [src] or below it, or when one of the names on the
    way from [src] to [p] is left out. *)
Definition copy_target (ignore : string → bool) (src dst p : path)
    : option path :=
  rest ← below src p;
  if forallb (λ n, negb (ignore n)) rest then Some (dst ++ rest) else None.

(** [shutil.copytree(src, dst, ignore=ignore)], on regular files and
    directories: [dst] must not exist; every directory and file of
    [src] is copied, but those with a name that [ignore] leaves out
    and what is below them. *)
Definition copytree (src dst : path) (ignore : string → bool) : M unit :=
  is_dir ← isdir src;
  if negb is_dir then
    is_file ← isfile src;
    if is_file : bool then mthrow (OSError "Not a directory")
    else mthrow FileNotFoundError
  else
    is_file ← isfile dst;
    is_dir ← isdir dst;
    if is_file || is_dir then mthrow (OSError "File exists")
    else
      modify (λ w,
        let target := copy_target ignore (cwd w ++ src) (cwd w ++ dst) in
        let copies : gmap path string :=
          list_to_map
            (omap (λ item : path * string, (λ q, (q, item.2)) <$> target item.1)
                  (map_to_list (files w))) in
        let made : gset path := list_to_set (omap target (elements (dirs w))) in
        set_files (copies ∪ files w) (set_dirs (dirs w ∪ made) w)).

Section Main.

Variable cfg : config.
(** [STEPS]. *)
Variable steps : list step.
Variable sbatch_run : list call → sbatch_outcome.
Variable squeue_run : list call → squeue_outcome.
Variable outside : list call → gmap path string → gmap path string.
Variable clock : list call → Q.

(** [timestamp] is [datetime.now().strftime('%Y%m%d_%H%M%S')]. *)
Definition create_work_directory (timestamp : string) : M (option string) :=
  let work_dir := "seq_run_" +:+ timestamp in
  print (LF +:+ "Creating work directory: " +:+ work_dir);;
  print ("Copying from: " +:+ SOURCE_DIR cfg);;
  is_dir ← isdir [SOURCE_DIR cfg];
  if negb is_dir then
    print ("ERROR: Source directory not found: " +:+ SOURCE_DIR cfg);;
    mret None
  else
    try_except
      (copytree [SOURCE_DIR cfg] [work_dir] ignored;;
       print "✓ Work directory created successfully";;
       let pxyz_src := [SOURCE_DIR cfg; "pxyz.in"] in
       present ← isfile pxyz_src;
       (if present : bool then
          let pxyz_dst := [work_dir; "pxyz.in"] in
          copy2 pxyz_src pxyz_dst;;
          print "✓ Copied initial pxyz.in"
        else mret tt);;
       mret (Some work_dir))
      Exception
      (λ e, print_entry (MsgExn "ERROR: Failed to create work directory: " e);;
            mret None).

(** The command line, as [argparse] hands it over. *)
Record args := Args { preview : bool; auto_yes : bool }.

(** [str.lower] on ASCII text. *)
Definition lower_char (c : ascii) : ascii :=
  let n := N_of_ascii c in
  if ((65 <=? n)%N && (n <=? 90)%N) then ascii_of_N (n + 32) else c.

Fixpoint lower (s : string) : string :=
  match s with
  | "" => ""
  | String c s' => String (lower_char c) (lower s')
  end.

(** The loop of [main] that lists the steps. *)
Fixpoint print_plan (i : Z) (steps : list step) : M unit :=
  match steps with
  | [] => mret tt
  | st :: steps' =>
      print (LF +:+ Py.str_of_int i +:+ ". " +:+ name st);;
      print ("   " +:+ description st);;
      print ("   Final step: " +:+ Py.str_of_int (final_step st));;
      print_plan (i + 1) steps'
  end.

(** [open(log_path, 'w')]: the log starts anew with what is written. *)
Definition start_log (lines : list log_entry) : M unit :=
  modify (λ w, World (cwd w) (files w) (dirs w) lines (screen w) (calls w)).

(** [main]. [timestamp] and [started_at] are what [datetime.now()]
    gives in [create_work_directory] and in the first line of the log,
    [response] is the line [input] reads when it is called, and [polls]
    bounds the waiting loops. The result is [Some code] when [main]
    leaves through [sys.exit(code)] and [None] when it returns. The
    first lines of the log file are written as they are, without the
    time stamp of [log_message]; [WORK_DIR] is the global that [main]
    sets. *)
Definition main (a : args) (timestamp started_at response : string)
    (polls : nat) : M (option Z) :=
  if preview a then
    is_valid ← preview_steps steps;
    mret (Some (if is_valid : bool then 0 else 1)%Z)
  else
    print (rule 70);;
    print "Sequential Phase Field Simulation Controller";;
    print (rule 70);;
    print ("Source directory: " +:+ SOURCE_DIR cfg);;
    print ("Total steps: " +:+ Py.str_of_int (Z.of_nat (length steps)));;
    print (rule 70);;
    is_dir ← isdir [SOURCE_DIR cfg];
    if negb is_dir then
      print ("ERROR: Source directory not found: " +:+ SOURCE_DIR cfg);;
      mret None
    else
      work_dir ← create_work_directory timestamp;
      match work_dir with
      | None => mret None
      | Some WORK_DIR =>
          print ("Working directory: " +:+ WORK_DIR);;
          has_script ← isfile [WORK_DIR; JOB_SCRIPT cfg];
          if negb has_script then
            print ("ERROR: Job script not found: " +:+
                   path_str [WORK_DIR; JOB_SCRIPT cfg]);;
            mret None
          else
            start_log [Msg ("Sequential simulation started at " +:+ started_at);
                       Msg ("Work directory: " +:+ WORK_DIR);
                       Msg (rule 70); Msg ""];;
            print (LF +:+ "Steps to be executed:");;
            print_plan 1 steps;;
            let execute : M (option Z) :=
              log_message (LF +:+ "Starting sequential execution..." +:+ LF);;
              success ← run_sequential_steps cfg WORK_DIR sbatch_run squeue_run
                          outside clock polls steps;
              (if success : bool then
                 log_message (LF +:+ rule 70);;
                 log_message "ALL STEPS COMPLETED SUCCESSFULLY!";;
                 log_message (rule 70);;
                 log_message (LF +:+ "Final pxyz.in is ready for next simulation.");;
                 log_message "Backup folders created: step1_backup, step2_backup, ...";;
                 log_message (LF +:+ "Log file: " +:+ LOG_FILE cfg)
               else
                 log_message (LF +:+ rule 70);;
                 log_message "EXECUTION STOPPED DUE TO ERROR";;
                 log_message (rule 70);;
                 log_message ("Check log file for details: " +:+ LOG_FILE cfg));;
              mret None in
            if negb (auto_yes a) then
              print (LF +:+ "Proceed with execution? [y/N]: ");;
              if negb (String.eqb (lower response) "y") then
                print "Execution cancelled by user.";;
                mret None
              else execute
            else execute
      end.

End Main.
(* ===================================================================== *)
(** ** Vocabulary of the properties *)
(* ===================================================================== *)

(** No carriage return and no line feed in [s]. *)
Fixpoint no_line_break (s : string) : bool :=
  match s with
  | "" => true
  | String c s' =>
      negb (Ascii.eqb c "013") && negb (Ascii.eqb c "010") && no_line_break s'
  end.

(** No carriage return in [s]. *)
Fixpoint no_cr (s : string) : bool :=
  match s with
  | "" => true
  | String c s' => negb (Ascii.eqb c "013") && no_cr s'
  end.

(** The lines of a file as they lie in it, byte for byte: each ends
    with its line feed, the last one possibly without. *)
Definition file_lines (content : string) : list string :=
  Py.splitlines content.

(** A line as [readlines] returns it: no carriage return, and a line
    feed at the end and nowhere else. *)
Definition terminated (l : string) : Prop :=
  ∃ b, no_line_break b = true ∧ l = b +:+ LF.

(** The last line of a file that does not end with a line feed. *)
Definition unterminated (l : string) : Prop :=
  no_line_break l = true ∧ l ≠ "".

(** The lists of lines [readlines] can return. *)
Fixpoint lines_ok (ls : list string) : Prop :=
  match ls with
  | [] => True
  | [l] => terminated l ∨ unterminated l
  | l :: ls' => terminated l ∧ lines_ok ls'
  end.

(** The line [modify_input_params] puts in place of [old_line]. *)
Definition edited_line (new_content old_line : string) : string :=
  if Py.contains "!" old_line
  then new_content +:+ " " +:+
       ("!" +:+ default "" (Py.split_once "!" old_line !! 1%nat))
  else new_content +:+ LF.

(** What the specification says of an edited line: the new content
    and a line feed, or, when the old line has a ['!'], the new
    content, a space, and the old line from its first ['!'] on. *)
Definition edit_of (new_content old_line new_line : string) : Prop :=
  (Py.contains "!" old_line = false → new_line = new_content +:+ LF) ∧
  (∀ before after,
     old_line = before +:+ "!" +:+ after →
     Py.contains "!" before = false →
     new_line = new_content +:+ " " +:+ "!" +:+ after).

(** An edit that [modify_lines] carries out: the key reads as a line
    number whose index [n - 1] is a position of the list, counted
    from either end. *)
Definition applicable (len : nat) (item : string * string) : Prop :=
  ∃ n, Py.int (Py.replace "line" "" item.1) = Some n ∧
       (- Z.of_nat len < n <= Z.of_nat len)%Z.


(** *** A small run directory, used to exercise the statements *)

Definition CRLF : string := String "013" (String "010" "").

(** A parameter file of three lines; the last one has no line feed. *)
Definition example_input : string :=
  "5000 1000 1000 0   ! kstep kprint kbackup kstart" +:+ LF +:+
  "1 0 0 1" +:+ LF +:+
  "40.0 0.0 0.01 ! phi0".

Definition example_world : world :=
  {| cwd := [];
     files := {[ ["run"; "inputN.in"] := example_input ]};
     dirs := {[ ["run"] ]};
     log := []; screen := []; calls := [] |}.

(** A parameter file of two lines that end in CR LF. *)
Definition crlf_world : world :=
  {| cwd := [];
     files := {[ ["run"; "inputN.in"]
                 := "1 1 1" +:+ CRLF +:+ "0.5 ! dt" +:+ CRLF ]};
     dirs := {[ ["run"] ]};
     log := []; screen := []; calls := [] |}.

(** *** Effects a computation does not have *)

(** [m] leaves the relation [R] between the state it starts in and the
    state it ends in, whatever its outcome. *)
Definition stable (R : relation world) {A} (m : M A) : Prop :=
  ∀ w, R w (m w).2.

(** Same files, same current directory. *)
Definition same_files (w w' : world) : Prop :=
  files w' = files w ∧ cwd w' = cwd w.

(** *** Chunk files *)

(** A data record: the index triple and the three scalars. *)
Definition record : Type := (Z * Z * Z) * (Float.float * Float.float * Float.float).

(** What a line after the header stands for: no record when it has
    fewer than six tokens, else the record its first six tokens read
    as; [None] when one of them does not read as a number. *)
Definition parse_line (line : string) : option (option record) :=
  let pts := Py.split line in
  if (length pts <? 6)%nat then Some None
  else
    i ← Py.int (default "" (pts !! 0%nat));
    j ← Py.int (default "" (pts !! 1%nat));
    k ← Py.int (default "" (pts !! 2%nat));
    px ← Float.of_string (default "" (pts !! 3%nat));
    py ← Float.of_string (default "" (pts !! 4%nat));
    pz ← Float.of_string (default "" (pts !! 5%nat));
    Some (Some ((i, j, k), (px, py, pz))).

Fixpoint parse_lines (lines : list string) : option (list record) :=
  match lines with
  | [] => Some []
  | line :: lines' =>
      r ← parse_line line;
      rs ← parse_lines lines';
      Some (match r with Some r => r :: rs | None => rs end)
  end.

(** The tokens of the header line of a chunk file. *)
Definition header_of (content : string) : list string :=
  Py.split (default "" (head (Py.readlines content))).

(** The data records of a chunk file. *)
Definition records_of (content : string) : option (list record) :=
  parse_lines (tail (Py.readlines content)).

(** The chunk file of a rank, where [extract_final_state] looks for it. *)
Definition chunk_file (cfg : config) (WORK_DIR : string) (final_step : Z)
    (w : world) (rank : Z) : option string :=
  files w !! (cwd w ++ [WORK_DIR; dat_name cfg (final_step + rank)]).

(** The restart file. *)
Definition restart_file (WORK_DIR : string) (w : world) : option string :=
  files w !! (cwd w ++ [WORK_DIR; "pxyz.in"]).

(** A chunk file, named from the current directory, that is absent or
    whose header line has fewer than three tokens. *)
Definition bad_chunk (w : world) (fname : string) : Prop :=
  files w !! (cwd w ++ [fname]) = None ∨
  ∃ content, files w !! (cwd w ++ [fname]) = Some content ∧
             (length (header_of content) < 3)%nat.


(** *** The grid, as a function of the records read *)

(** Zero-based position of an index triple, and of a record. *)
Definition pos_of (t : Z * Z * Z) : Z * Z * Z :=
  let '(i, j, k) := t in (i - 1, j - 1, k - 1)%Z.

Definition pos (r : record) : Z * Z * Z := pos_of r.1.

(** The three assignments [scan_line] makes for a record; [None] when
    the position is outside the arrays. *)
Definition store (g : grid) (r : record) : option grid :=
  let '(px, py, pz) := r.2 in
  pxx' ← Np.set (pxx g) (pos r) px;
  pyy' ← Np.set (pyy g) (pos r) py;
  pzz' ← Np.set (pzz g) (pos r) pz;
  Some (Grid (nx g) (ny g) (nz g) pxx' pyy' pzz').

Fixpoint store_all (g : grid) (rs : list record) : option grid :=
  match rs with
  | [] => Some g
  | r :: rs' => g' ← store g r; store_all g' rs'
  end.

(** The three arrays have the shape the dimensions announce. *)
Definition grid_wf (g : grid) : Prop :=
  (0 <= nx g)%Z ∧ (0 <= ny g)%Z ∧ (0 <= nz g)%Z ∧
  Np.shape (pxx g) = (nx g, ny g, nz g) ∧
  Np.shape (pyy g) = (nx g, ny g, nz g) ∧
  Np.shape (pzz g) = (nx g, ny g, nz g).

(** The grid right after the first header is read. *)
Definition zero_grid (nx ny nz : Z) : grid :=
  Grid nx ny nz (Np.NdArray (nx, ny, nz) ∅) (Np.NdArray (nx, ny, nz) ∅)
       (Np.NdArray (nx, ny, nz) ∅).

(** The scalars the grid holds at a zero-based position. *)
Definition grid_at (g : grid) (p : Z * Z * Z)
    : Float.float * Float.float * Float.float :=
  (default Float.zero (Np.data (pxx g) !! p),
   default Float.zero (Np.data (pyy g) !! p),
   default Float.zero (Np.data (pzz g) !! p)).

(** *** The restart file, in the words of the specification *)

(** The index triples of [[1,nx] x [1,ny] x [1,nz]]. *)
Definition in_box (nx ny nz : Z) (t : Z * Z * Z) : Prop :=
  let '(i, j, k) := t in
  (1 <= i <= nx)%Z ∧ (1 <= j <= ny)%Z ∧ (1 <= k <= nz)%Z.

(** Nested order: outer [i], middle [j], inner [k]. *)
Definition nested_lt (t t' : Z * Z * Z) : Prop :=
  let '(i, j, k) := t in
  let '(i', j', k') := t' in
  (i < i')%Z ∨ (i = i' ∧ ((j < j')%Z ∨ (j = j' ∧ (k < k')%Z))).

(** First line: [nx ny nz]. *)
Definition restart_header (nx ny nz : Z) : string :=
  Py.str_of_int nx +:+ " " +:+ Py.str_of_int ny +:+ " " +:+
  Py.str_of_int nz +:+ LF.

(** A data line: [i j k px py pz], one-based indices, the scalars in
    the ['.5e'] presentation. *)
Definition restart_line (r : record) : string :=
  let '((i, j, k), (px, py, pz)) := r in
  Py.str_of_int i +:+ " " +:+ Py.str_of_int j +:+ " " +:+
  Py.str_of_int k +:+ " " +:+ Float.format_e 5 px +:+ " " +:+
  Float.format_e 5 py +:+ " " +:+ Float.format_e 5 pz +:+ LF.

(** The triples in the order the restart file lists them. *)
Definition box_list (nx ny nz : Z) : list (Z * Z * Z) :=
  i ← Py.range nx; j ← Py.range ny; k ← Py.range nz;
  [((i + 1)%Z, (j + 1)%Z, (k + 1)%Z)].

(** The record the grid holds for an index triple. *)
Definition record_at (g : grid) (t : Z * Z * Z) : record :=
  (t, grid_at g (pos_of t)).

(** The file at [p], named from the current directory, holds [c]. *)
Definition with_file (p : path) (c : string) (w : world) : world :=
  set_files (<[cwd w ++ p := c]> (files w)) w.

(** The dimensions the header line of a chunk file announces. *)
Definition dims_of (content : string) : option (Z * Z * Z) :=
  let header := header_of content in
  nx ← Py.int (default "" (header !! 0%nat));
  ny ← Py.int (default "" (header !! 1%nat));
  nz ← Py.int (default "" (header !! 2%nat));
  Some (nx, ny, nz).

(** A readable chunk file, named from the current directory: it is
    there, its header has three tokens or more, and its data lines read
    as the records [c.2]. *)
Definition readable_chunk (w : world) (fname : string)
    (c : string * list record) : Prop :=
  files w !! (cwd w ++ [fname]) = Some c.1 ∧
  (3 <= length (header_of c.1))%nat ∧
  records_of c.1 = Some c.2.

(** A complete set of chunk files for an extraction at [final_step]:
    one readable file per rank in [[0, NUM_CHUNKS)]. *)
Definition complete_chunks (cfg : config) (WORK_DIR : string) (final_step : Z)
    (w : world) (chunks : list (string * list record)) : Prop :=
  Z.of_nat (length chunks) = NUM_CHUNKS cfg ∧
  ∀ (rank : nat) c, chunks !! rank = Some c →
    chunk_file cfg WORK_DIR final_step w (Z.of_nat rank) = Some c.1 ∧
    (3 <= length (header_of c.1))%nat ∧
    records_of c.1 = Some c.2.

(** Dimensions of which NumPy makes an array of [float64]: the byte
    count, the dimensions of 0 counted as 1, is below [2^63]. *)
Definition allocatable (nx ny nz : Z) : Prop :=
  (8 * Z.max 1 nx * Z.max 1 ny * Z.max 1 nz < 2 ^ 63)%Z.

(** No directory has the name of the restart file. *)
Definition restart_writable (WORK_DIR : string) (w : world) : Prop :=
  cwd w ++ [WORK_DIR; "pxyz.in"] ∉ dirs w.

(** The records cover the box exactly: every triple of the box is the
    triple of one record and of one only, and no record lies outside. *)
Definition exact_cover (nx ny nz : Z) (rs : list record) : Prop :=
  NoDup rs.*1 ∧ ∀ t, t ∈ rs.*1 ↔ in_box nx ny nz t.

(** An extraction at step 5000 from two chunk files that share a grid
    of 2 x 2 x 1 points. *)
Definition two_chunks : config :=
  {| SOURCE_DIR := "origin"; JOB_SCRIPT := "V-3.sh"; INPUT_FILE := "inputN.in";
     NUM_CHUNKS := 2;
     DAT_WIDTH := 8; DAT_PREFIX := "PELOOP."; DAT_SUFFIX := ".dat";
     CHECK_INTERVAL := 60; LOG_FILE := "sequential_run.log" |}.

Definition chunk_5000 : string :=
  "2 2 1" +:+ LF +:+
  "1 1 1 0.12345 0.0 -1.5e-3" +:+ LF +:+
  "1 2 1 0.5 0.25 1e10" +:+ LF.

Definition chunk_5001 : string :=
  "2 2 1" +:+ LF +:+
  "2 1 1 -0.5 2 3" +:+ LF +:+
  LF +:+
  "2 2 1 1 1 1" +:+ LF.

Definition example_chunks : list (string * list record) :=
  (λ c, (c, default [] (records_of c))) <$> [chunk_5000; chunk_5001].

Definition extraction_world : world :=
  {| cwd := [];
     files := {[ ["run"; "inputN.in"] := example_input;
                 ["run"; "PELOOP.00005000.dat"] := chunk_5000;
                 ["run"; "PELOOP.00005001.dat"] := chunk_5001 ]};
     dirs := {[ ["run"] ]};
     log := []; screen := []; calls := [] |}.

(** *** The orchestrator, as seen from outside *)

(** The five stages of a step. *)
Inductive stage := Edit | Submit | Wait | Extract | Backup.

(** What the orchestrator writes in the log about the course of a run:
    that a stage begins, or that the run stops because a stage failed. *)
Inductive mark :=
  | Begins (s : stage)
  | Stops (s : stage).

(** The stage a message [\n[n/5] ...] announces. *)
Definition announced (text : string) : option stage :=
  match text with
  | String "010" (String "[" (String n (String "/" (String "5" (String "]" _))))) =>
      if Ascii.eqb n "1" then Some Edit
      else if Ascii.eqb n "2" then Some Submit
      else if Ascii.eqb n "3" then Some Wait
      else if Ascii.eqb n "4" then Some Extract
      else if Ascii.eqb n "5" then Some Backup
      else None
  | _ => None
  end.

Definition mark_of (e : log_entry) : option mark :=
  match e with
  | Msg text =>
      if String.eqb text "ERROR: Failed to submit job. Stopping."
      then Some (Stops Submit)
      else if String.eqb text "ERROR: Job did not complete successfully. Stopping."
      then Some (Stops Wait)
      else if String.eqb text "ERROR: Failed to extract final state. Stopping."
      then Some (Stops Extract)
      else Begins <$> announced text
  | _ => None
  end.

(** The marks among some log entries, in order. *)
Definition marks (l : list log_entry) : list mark := omap mark_of l.

(** The log entries added between two states. *)
Definition logged (w w' : world) : list log_entry :=
  drop (length (log w)) (log w').

(** The marks of a step that goes through its five stages. *)
Definition full_step : list mark :=
  [Begins Edit; Begins Submit; Begins Wait; Begins Extract; Begins Backup].

Definition is_sbatch (c : call) : bool :=
  match c with Sbatch _ _ => true | _ => false end.

(** Number of job submissions among the interactions. *)
Definition submissions (w : world) : nat :=
  length (filter (λ c, is_sbatch c = true) (calls w)).

(** The backup directory of a step, from the directory the script runs in. *)
Definition backup_dir (WORK_DIR : string) (step_num : Z) : path :=
  [WORK_DIR; "step" +:+ Py.str_of_int step_num +:+ "_backup"].

(** A computation that cannot be left waiting for the scheduler. *)
Definition nonblocking {A} (m : M A) : Prop :=
  ∀ w, (m w).1 ≠ Blocked.

(** Relations between the state before and the state after. *)

(** Only entries that say nothing of the course of the run are logged. *)
Definition silent (w w' : world) : Prop :=
  ∃ l, log w' = log w ++ l ∧ marks l = [].

(** No directory is removed. *)
Definition dirs_grow (w w' : world) : Prop := dirs w ⊆ dirs w'.

(** No job is submitted. *)
Definition no_submission (w w' : world) : Prop :=
  submissions w' = submissions w.

(** The current directory is the same. *)
Definition same_cwd (w w' : world) : Prop := cwd w' = cwd w.

(** *** Schedulers used to exercise the statements *)

(** No files are touched from outside. *)
Definition quiet_outside (h : list call) (f : gmap path string) : gmap path string := f.

(** A clock that advances by a minute with every interaction. *)
Definition minute_clock (h : list call) : Q := inject_Z (60 * Z.of_nat (length h)).

(** [squeue] cannot be run. *)
Definition squeue_missing (h : list call) : squeue_outcome :=
  SqueueNotRun FileNotFoundError.

Definition is_squeue (c : call) : bool :=
  match c with Squeue _ => true | _ => false end.

(** [squeue] lists job 4242 at the first two status queries and no job
    afterwards. *)
Definition squeue_two_polls (h : list call) : squeue_outcome :=
  if (length (filter (λ c, is_squeue c = true) h) <? 2)%nat
  then SqueueRan ("JOBID PARTITION NAME" +:+ LF +:+ "4242 cpu V-3.sh" +:+ LF)
  else SqueueRan ("JOBID PARTITION NAME" +:+ LF).

(** [sbatch] acknowledges every submission as job 4242. *)
Definition sbatch_accepts (h : list call) : sbatch_outcome :=
  SbatchExit0 ("Submitted batch job 4242" +:+ LF).

(** [sbatch] exits with status 0 and prints something else. *)
Definition sbatch_mumbles (h : list call) : sbatch_outcome :=
  SbatchExit0 ("sbatch: job queued" +:+ LF).

(** *** The stages of a step, as the orchestrator runs them *)

Section Stages.

Variable cfg : config.
Variable WORK_DIR : string.
Variable sbatch_run : list call → sbatch_outcome.
Variable squeue_run : list call → squeue_outcome.
Variable outside : list call → gmap path string → gmap path string.
Variable clock : list call → Q.
Variable polls : nat.
Variable total : nat.

(** Stage 1, with the banner of the step before it. *)
Definition edit_stage (step_idx : Z) (step_config : step) : M unit :=
  log_message (LF +:+ rule 70);;
  log_message ("STEP " +:+ Py.str_of_int step_idx +:+ "/" +:+
               Py.str_of_int (Z.of_nat total) +:+ ": " +:+ name step_config);;
  log_message (rule 70);;
  log_message ("Description: " +:+ description step_config);;
  log_message (LF +:+ "[1/5] Modifying input parameters...");;
  modify_input_params cfg WORK_DIR (params step_config).

Definition submit_stage : M (option string) :=
  log_message (LF +:+ "[2/5] Submitting job to compute nodes...");;
  submit_job cfg WORK_DIR sbatch_run outside.

Definition wait_stage (job_id : string) : M bool :=
  log_message (LF +:+ "[3/5] Waiting for job completion...");;
  wait_for_job_completion cfg squeue_run outside clock polls job_id.

Definition extract_stage (step_config : step) : M bool :=
  log_message (LF +:+ "[4/5] Extracting final state at step " +:+
               Py.str_of_int (final_step step_config) +:+ "...");;
  extract_final_state cfg WORK_DIR (final_step step_config).

Definition backup_stage (step_idx : Z) (step_config : step) : M unit :=
  log_message (LF +:+ "[5/5] Backing up files...");;
  backup_files cfg WORK_DIR step_idx (name step_config);;
  log_message (LF +:+ "✓ Step " +:+ Py.str_of_int step_idx +:+
               " completed successfully!").

(** A stage of the step reports failure: starting the step in [w], the
    stages before [s] succeed, and stage [s] returns its failure value,
    [None] for the submission and [False] for the other two, leaving
    the state [w']. *)
Inductive stage_fails (step_idx : Z) (step_config : step)
    : stage → world → world → Prop :=
  | submit_fails w w1 w' :
      edit_stage step_idx step_config w = (Ok tt, w1) →
      submit_stage w1 = (Ok None, w') →
      stage_fails step_idx step_config Submit w w'
  | wait_fails w w1 job_id w2 w' :
      edit_stage step_idx step_config w = (Ok tt, w1) →
      submit_stage w1 = (Ok (Some job_id), w2) →
      wait_stage job_id w2 = (Ok false, w') →
      stage_fails step_idx step_config Wait w w'
  | extract_fails w w1 job_id w2 w3 w' :
      edit_stage step_idx step_config w = (Ok tt, w1) →
      submit_stage w1 = (Ok (Some job_id), w2) →
      wait_stage job_id w2 = (Ok true, w3) →
      extract_stage step_config w3 = (Ok false, w') →
      stage_fails step_idx step_config Extract w w'.

End Stages.

(** The message with which the orchestrator stops at a failed stage. *)
Definition stop_message (s : stage) : string :=
  match s with
  | Submit => "ERROR: Failed to submit job. Stopping."
  | Wait => "ERROR: Job did not complete successfully. Stopping."
  | Extract => "ERROR: Failed to extract final state. Stopping."
  | Edit | Backup => ""
  end.

(** The marks of a step that stops at stage [s]. *)
Definition stopped_step (s : stage) : list mark :=
  match s with
  | Edit => [Begins Edit]
  | Submit => [Begins Edit; Begins Submit; Stops Submit]
  | Wait => [Begins Edit; Begins Submit; Begins Wait; Stops Wait]
  | Extract => [Begins Edit; Begins Submit; Begins Wait; Begins Extract;
                Stops Extract]
  | Backup => full_step
  end.

(** The marks [s] are those of the entries logged from [w] to [w']. *)
Definition trace (s : list mark) (w w' : world) : Prop :=
  ∃ l, log w' = log w ++ l ∧ marks l = s.

(** A relation that holds across the elementary state changes of the
    stages: logging an entry without a mark, changing files, making
    directories, and an interaction other than a submission. *)
Class Inner (R : relation world) := {
  inner_preorder :: PreOrder R;
  inner_log : ∀ e b w, mark_of e = None → R w (add_log e b w);
  inner_files : ∀ f w, R w (set_files f w);
  inner_dirs : ∀ d w, R w (set_dirs (dirs w ∪ d) w);
  inner_call : ∀ c w, is_sbatch c = false → R w (add_call c w);
}.

(** It also holds across a change of directory. *)
Class InnerCwd (R : relation world) :=
  inner_cwd : ∀ c w, R w (set_cwd c w).

(** It also holds across a submission. *)
Class InnerSubmit (R : relation world) :=
  inner_any_call : ∀ c w, R w (add_call c w).

(** It also holds across any log entry. *)
Class InnerLog (R : relation world) :=
  inner_any_log : ∀ e b w, R w (add_log e b w).

(** The state once [run_sequential_steps] has logged its banner. *)
Definition started (steps : list step) (w : world) : world :=
  add_log (Msg ("Total steps to execute: " +:+
                Py.str_of_int (Z.of_nat (length steps)) +:+ LF)) true
    (add_log (Msg (rule 70)) true
       (add_log (Msg "SEQUENTIAL PARAMETER ADJUSTMENT AND AUTO-PROGRESSION") true
          (add_log (Msg (rule 70)) true w))).

(** The run never logs that it stops for the waiting stage. *)
Definition no_wait_stop (w w' : world) : Prop :=
  ∃ l, log w' = log w ++ l ∧ Stops Wait ∉ marks l.

(** *** A run of the two steps of [config.py] *)

(** A parameter file of 24 lines. *)
Definition long_input : string :=
  Py.writelines
    ((λ n, "0 0 0 0   ! parameters of line " +:+ Py.str_of_int n +:+ LF)
       <$> seqZ 1 24).

(** The run directory after the job of step 1 has written its two
    chunk files; the job of step 2 writes none. *)
Definition run_world : world :=
  {| cwd := [];
     files := {[ ["run"; "inputN.in"] := long_input;
                 ["run"; "PELOOP.00005000.dat"] := chunk_5000;
                 ["run"; "PELOOP.00005001.dat"] := chunk_5001 ]};
     dirs := {[ ["run"] ]};
     log := []; screen := []; calls := [] |}.

Definition step_1 : step := default (Step "" "" [] 0) (STEPS !! 0%nat).
Definition step_2 : step := default (Step "" "" [] 0) (STEPS !! 1%nat).

(** The state after step 1, and the states step 2 goes through. *)
Definition after_step_1 : world :=
  (run_steps two_chunks "run" sbatch_accepts squeue_two_polls quiet_outside
     minute_clock 5 2 1 [step_1] (started STEPS run_world)).2.

Definition after_edit_2 : world :=
  (edit_stage two_chunks "run" 2 2 step_2 after_step_1).2.

Definition after_submit_2 : world :=
  (submit_stage two_chunks "run" sbatch_accepts quiet_outside after_edit_2).2.

Definition after_wait_2 : world :=
  (wait_stage two_chunks squeue_two_polls quiet_outside minute_clock 5 "4242"
     after_submit_2).2.

Definition after_extract_2 : world :=
  (extract_stage two_chunks "run" step_2 after_wait_2).2.

(** *** The ['e'] presentation, in the words of the specification *)









(** Chunk files that announce an empty grid with a first dimension
    beyond what NumPy takes. *)
Definition chunk_too_big : string := "100000000000000000000 0 1" +:+ LF.

Definition too_big_world : world :=
  {| cwd := [];
     files := {[ ["run"; "PELOOP.00005000.dat"] := chunk_too_big;
                 ["run"; "PELOOP.00005001.dat"] := chunk_too_big ]};
     dirs := {[ ["run"] ]};
     log := []; screen := []; calls := [] |}.

(** A grid of one point whose chunk file gives scalars that are not
    finite. *)
Definition chunk_not_finite : string :=
  "1 1 1" +:+ LF +:+
  "1 1 1 nan -inf 0.12345" +:+ LF.

Definition chunk_header_only : string := "1 1 1" +:+ LF.

Definition not_finite_world : world :=
  {| cwd := [];
     files := {[ ["run"; "PELOOP.00005000.dat"] := chunk_not_finite;
                 ["run"; "PELOOP.00005001.dat"] := chunk_header_only ]};
     dirs := {[ ["run"] ]};
     log := []; screen := []; calls := [] |}.

(** No grid yet, or one whose arrays have the announced shape. *)
Definition grid_ok (g : option grid) : Prop :=
  match g with Some g => grid_wf g | None => True end.


(* ===================================================================== *)
(** ** Vocabulary of the further properties *)
(* ===================================================================== *)

(** The position, in a file of [len] lines, of the line an edit with
    key [key] addresses. *)
Definition line_index (len : nat) (key : string) : option nat :=
  n ← Py.int (Py.replace "line" "" key); Py.index len (n - 1).

(** Number of status queries among the interactions. *)
Definition queries (h : list call) : nat :=
  length (filter (λ c, is_squeue c = true) h).

(** What [check_job_status] makes of the outcome of [squeue]: the job
    is listed when the identifier occurs in the output. *)
Definition listed (job_id : string) (o : squeue_outcome) : bool :=
  match o with
  | SqueueRan stdout => Py.contains job_id stdout
  | SqueueNotRun _ => false
  end.

(** [squeue] lists job 4242 whenever it is asked. *)
Definition squeue_always (h : list call) : squeue_outcome :=
  SqueueRan ("JOBID PARTITION NAME" +:+ LF +:+ "4242 cpu V-3.sh" +:+ LF).

(** [sbatch] exits with status 1. *)
Definition sbatch_rejects (h : list call) : sbatch_outcome := SbatchNonZero 1.

(** [sbatch] is not installed. *)
Definition sbatch_missing (h : list call) : sbatch_outcome :=
  SbatchNotRun FileNotFoundError.


(** *** Where a record goes, and what the restart file shows *)

(** The one-based index a one-based index [i] denotes along an axis of
    length [n], the indices below 1 counting from the far end. *)
Definition wrap (n i : Z) : Z := if (1 <=? i)%Z then i else (i + n)%Z.

(** The indices that denote a position: from [1 - n] to [n]. *)
Definition storable (nx ny nz : Z) (t : Z * Z * Z) : Prop :=
  let '(i, j, k) := t in
  (1 - nx <= i <= nx)%Z ∧ (1 - ny <= j <= ny)%Z ∧ (1 - nz <= k <= nz)%Z.

(** The triple of the box at which a record with triple [t] is stored. *)
Definition home (nx ny nz : Z) (t : Z * Z * Z) : Z * Z * Z :=
  let '(i, j, k) := t in (wrap nx i, wrap ny j, wrap nz k).

(** The scalars of the last of the records stored at [t]; zeros when
    there is none. *)
Definition value_at (nx ny nz : Z) (rs : list record) (t : Z * Z * Z)
    : Float.float * Float.float * Float.float :=
  foldl (λ acc r, if decide (home nx ny nz r.1 = t) then r.2 else acc)
        (Float.zero, Float.zero, Float.zero) rs.

(** The restart file for a grid of [nx * ny * nz] points and the
    records [rs], in reading order. *)
Definition restart_of (nx ny nz : Z) (rs : list record) : string :=
  restart_header nx ny nz +:+
  Py.writelines
    (restart_line <$> ((λ t, (t, value_at nx ny nz rs t)) <$> box_list nx ny nz)).

(** Chunk files with a point given twice, a point given by an index
    below 1, and points not given at all. *)
Definition chunk_twice : string :=
  "2 2 1" +:+ LF +:+
  "1 1 1 1.0 1.0 1.0" +:+ LF +:+
  "1 1 1 2.0 2.0 2.0" +:+ LF.

Definition chunk_from_end : string :=
  "these words are not read" +:+ LF +:+
  "0 2 1 3.0 3.0 3.0" +:+ LF.

Definition sparse_chunks : list (string * list record) :=
  (λ c, (c, default [] (records_of c))) <$> [chunk_twice; chunk_from_end].

Definition sparse_world : world :=
  {| cwd := [];
     files := {[ ["run"; "PELOOP.00005000.dat"] := chunk_twice;
                 ["run"; "PELOOP.00005001.dat"] := chunk_from_end ]};
     dirs := {[ ["run"] ]};
     log := []; screen := []; calls := [] |}.


(** *** The validation of the steps *)

(** The state after [print(text)]. *)
Definition printed (text : string) (w : world) : world :=
  World (cwd w) (files w) (dirs w) (log w) (screen w ++ [Msg text]) (calls w).

(** Nothing changes but what is on the screen. *)
Definition only_screen (w w' : world) : Prop :=
  cwd w' = cwd w ∧ files w' = files w ∧ dirs w' = dirs w ∧
  log w' = log w ∧ calls w' = calls w.

(** What the validation reads in a step: nothing when its params have
    no [line8]; else [kstep] and [kstart], the tokens 0 and 3 of that
    line; [None] when the line has fewer than four tokens or one of
    the two does not read as a number. *)
Definition line8_numbers (st : step) : option (option (Z * Z)) :=
  match dict_get "line8" (params st) with
  | None => Some None
  | Some line8 =>
      token0 ← Py.split line8 !! 0%nat; kstep ← Py.int token0;
      token3 ← Py.split line8 !! 3%nat; kstart ← Py.int token3;
      Some (Some (kstep, kstart))
  end.

(** Every step that gives a [kstart] starts at the step number at
    which the step just before it ends. *)
Definition continuous (steps : list step) : Prop :=
  ∀ (i : nat) prev st kstep kstart,
    steps !! i = Some prev → steps !! S i = Some st →
    line8_numbers st = Some (Some (kstep, kstart)) →
    kstart = final_step prev.

(** Every step that gives [kstep] and [kstart] ends at their sum. *)
Definition consistent (steps : list step) : Prop :=
  ∀ st kstep kstart,
    st ∈ steps → line8_numbers st = Some (Some (kstep, kstart)) →
    (kstep + kstart)%Z = final_step st.

(** Two steps, the second of which does not start where the first
    ends. *)
Definition broken_steps : list step :=
  [ Step "first" "ten steps" [("line8", "10 1 1 0")] 10;
    Step "second" "ten more" [("line8", "10 1 1 12"); ("line10", "1 0 0 1")] 22 ].

(** *** The work directory *)

(** None of the names of a relative path is left out by [ignore]. *)
Definition kept (ignore : string → bool) (rest : path) : bool :=
  forallb (λ n, negb (ignore n)) rest.

(** The files [copytree] makes. *)
Definition tree_copies (ignore : string → bool) (src dst : path)
    (m : gmap path string) : gmap path string :=
  list_to_map
    (omap (λ item : path * string,
             (λ q, (q, item.2)) <$> copy_target ignore src dst item.1)
          (map_to_list m)).

(** A source directory with the files of a finished run in it. *)
Definition origin_world : world :=
  {| cwd := [];
     files := {[ ["origin"; "inputN.in"] := long_input;
                 ["origin"; "V-3.sh"] := "#!/bin/bash" +:+ LF;
                 ["origin"; "pxyz.in"] := "1 1 1" +:+ LF;
                 ["origin"; "PELOOP.00005000.dat"] := chunk_5000;
                 ["origin"; "energy_out.dat"] := "0.0" +:+ LF;
                 ["origin"; "slurm-77.out"] := "done" +:+ LF;
                 ["origin"; "tables"; "fort.7"] := "7" +:+ LF;
                 ["origin"; "tables"; "notes.txt"] := "keep" +:+ LF ]};
     dirs := {[ ["origin"]; ["origin"; "tables"] ]};
     log := [Msg "a line of an earlier run"]; screen := []; calls := [] |}.

(** *** The entry point *)

(** [m] returns, whatever the state, and what it returns satisfies
    [P]. *)
Definition yields {A} (P : A → Prop) (m : M A) : Prop :=
  ∀ w, ∃ a w', m w = (Ok a, w') ∧ P a.

(** No command is run. *)
Definition no_call (w w' : world) : Prop := calls w' = calls w.

(** The log is only added to. *)
Definition log_extends (w w' : world) : Prop := ∃ l, log w' = log w ++ l.

(** The lines with which [main] starts the log. *)
Definition log_header (started_at WORK_DIR : string) : list log_entry :=
  [Msg ("Sequential simulation started at " +:+ started_at);
   Msg ("Work directory: " +:+ WORK_DIR);
   Msg (rule 70); Msg ""].

(** The lines with which [main] closes the log, after a run that
    returned [success]. *)
Definition closing_lines (cfg : config) (success : bool) : list log_entry :=
  if success then
    [Msg (LF +:+ rule 70); Msg "ALL STEPS COMPLETED SUCCESSFULLY!"; Msg (rule 70);
     Msg (LF +:+ "Final pxyz.in is ready for next simulation.");
     Msg "Backup folders created: step1_backup, step2_backup, ...";
     Msg (LF +:+ "Log file: " +:+ LOG_FILE cfg)]
  else
    [Msg (LF +:+ rule 70); Msg "EXECUTION STOPPED DUE TO ERROR"; Msg (rule 70);
     Msg ("Check log file for details: " +:+ LOG_FILE cfg)].

(** The command lines used to exercise the statements. *)
Definition args_preview : args := Args true false.
Definition args_ask : args := Args false false.
Definition args_auto : args := Args false true.
(* ===================================================================== *)
(** * Properties *)
(* ===================================================================== *)

(** ** Strings *)

Lemma append_cons c (s t : string) : String c s +:+ t = String c (s +:+ t).
Proof. reflexivity. Qed.

Lemma append_nil_l (t : string) : "" +:+ t = t.
Proof. reflexivity. Qed.

Lemma append_nil_r (s : string) : s +:+ "" = s.
Proof. induction s as [|c s IH]; [done|]. by rewrite append_cons, IH. Qed.

Lemma append_assoc (s t u : string) : (s +:+ t) +:+ u = s +:+ (t +:+ u).
Proof. induction s as [|c s IH]; [done|]. by rewrite !append_cons, IH. Qed.



Lemma no_line_break_app s t :
  no_line_break (s +:+ t) = no_line_break s && no_line_break t.
Proof.
  induction s as [|c s IH]; [done|].
  rewrite append_cons. simpl. rewrite IH. by rewrite andb_assoc.
Qed.

Lemma no_cr_app s t : no_cr (s +:+ t) = no_cr s && no_cr t.
Proof.
  induction s as [|c s IH]; [done|].
  rewrite append_cons. simpl. rewrite IH. by rewrite andb_assoc.
Qed.

Lemma no_line_break_no_cr s : no_line_break s = true → no_cr s = true.
Proof.
  induction s as [|c s IH]; [done|]. simpl.
  intros [[H1 H2]%andb_prop H3]%andb_prop. rewrite H1. auto.
Qed.

Lemma universal_newlines_no_cr s : no_cr s = true → Py.universal_newlines s = s.
Proof.
  unfold Py.universal_newlines.
  induction s as [|c s IH]; [done|]. simpl.
  intros [H1 H2]%andb_prop. apply negb_true_iff in H1. rewrite H1.
  rewrite andb_false_r. by rewrite IH.
Qed.

Lemma translate_newlines_clean b s : no_cr (Py.translate_newlines b s) = true.
Proof.
  revert b. induction s as [|c s IH]; intros b; [done|]. simpl.
  destruct (Ascii.eqb c "013") eqn:Hc; [by simpl|].
  destruct (Ascii.eqb c "010" && b); [done|].
  simpl. rewrite Hc. apply IH.
Qed.




Lemma lines_ok_cons l ls :
  lines_ok (l :: ls) ↔
  (terminated l ∧ lines_ok ls) ∨ (unterminated l ∧ ls = []).
Proof.
  destruct ls as [|l' ls]; simpl; [|intuition congruence].
  intuition.
Qed.

Lemma terminated_cons c l :
  Ascii.eqb c "013" = false → Ascii.eqb c "010" = false →
  terminated l → terminated (String c l).
Proof.
  intros H1 H2 (b & Hb & ->). exists (String c b). split; [|done].
  simpl. by rewrite H1, H2.
Qed.

Lemma unterminated_cons c l :
  Ascii.eqb c "013" = false → Ascii.eqb c "010" = false →
  no_line_break l = true → unterminated (String c l).
Proof. intros H1 H2 Hl. split; [|done]. simpl. by rewrite H1, H2. Qed.

Lemma splitlines_ok s : no_cr s = true → lines_ok (Py.splitlines s).
Proof.
  induction s as [|c s IH]; [done|]. simpl.
  intros [Hc Hs]%andb_prop. apply negb_true_iff in Hc.
  specialize (IH Hs).
  destruct (Ascii.eqb_spec c "010") as [->|Hn].
  - apply lines_ok_cons. left. split; [|done]. by exists "".
  - apply Ascii.eqb_neq in Hn.
    destruct (Py.splitlines s) as [|l ls]; simpl.
    + right. by apply unterminated_cons.
    + apply lines_ok_cons. apply lines_ok_cons in IH as [[Hl Hls]|[Hl ->]].
      * left. split; [|done]. by apply terminated_cons.
      * right. split; [|done]. apply unterminated_cons; [done..|apply Hl].
Qed.

Lemma readlines_ok content : lines_ok (Py.readlines content).
Proof. apply splitlines_ok, translate_newlines_clean. Qed.

Lemma splitlines_terminated b rest :
  no_line_break b = true →
  Py.splitlines (b +:+ LF +:+ rest) = (b +:+ LF) :: Py.splitlines rest.
Proof.
  induction b as [|c b IH]; [done|]. simpl no_line_break.
  intros [[H1 H2]%andb_prop H3]%andb_prop.
  rewrite !append_cons. simpl. apply negb_true_iff in H2. rewrite H2.
  by rewrite IH.
Qed.

Lemma splitlines_unterminated l : unterminated l → Py.splitlines l = [l].
Proof.
  intros [Hl Hne]. induction l as [|c l IH]; [done|]. simpl in *.
  apply andb_prop in Hl as [[H1 H2]%andb_prop H3].
  apply negb_true_iff in H2. rewrite H2.
  destruct l as [|c' l]; [done|]. by rewrite IH.
Qed.

Lemma lines_ok_no_cr ls : lines_ok ls → no_cr (Py.writelines ls) = true.
Proof.
  induction ls as [|l ls IH]; [done|].
  intros Hok. apply lines_ok_cons in Hok.
  change (Py.writelines (l :: ls)) with (l +:+ Py.writelines ls).
  rewrite no_cr_app. apply andb_true_intro.
  destruct Hok as [[(b & Hb & ->) Hls]|[[Hl _] ->]].
  - split; [|by apply IH]. rewrite no_cr_app.
    by rewrite (no_line_break_no_cr _ Hb).
  - split; [|done]. by apply no_line_break_no_cr.
Qed.

(** Writing well-formed lines and reading them back returns them. *)
Lemma readlines_writelines ls :
  lines_ok ls → Py.readlines (Py.writelines ls) = ls.
Proof.
  intros Hok. unfold Py.readlines.
  rewrite universal_newlines_no_cr by by apply lines_ok_no_cr.
  induction ls as [|l ls IH]; [done|].
  change (Py.writelines (l :: ls)) with (l +:+ Py.writelines ls).
  apply lines_ok_cons in Hok as [[(b & Hb & ->) Hls]|[Hl ->]].
  - rewrite append_assoc, splitlines_terminated by done. by rewrite IH.
  - change (Py.writelines []) with "". rewrite append_nil_r.
    by apply splitlines_unterminated.
Qed.

Lemma terminated_not_clean l : terminated l → no_line_break l = false.
Proof.
  intros (b & Hb & ->). rewrite no_line_break_app, Hb. reflexivity.
Qed.

Lemma terminated_suffix a s : terminated (a +:+ s) → s ≠ "" → terminated s.
Proof.
  induction a as [|c a IH]; [done|]. intros (b & Hb & Heq) Hs.
  rewrite append_cons in Heq. destruct b as [|c0 b].
  - injection Heq as _ Heq. destruct a; [|done]. by rewrite append_nil_l in Heq.
  - rewrite append_cons in Heq. injection Heq as _ Heq. apply IH; [|done].
    exists b. split; [|done]. simpl in Hb.
    by apply andb_prop in Hb as [_ Hb].
Qed.

Lemma terminated_prefix p s :
  no_line_break p = true → terminated s → terminated (p +:+ s).
Proof.
  intros Hp (b & Hb & ->). exists (p +:+ b). split.
  - by rewrite no_line_break_app, Hp, Hb.
  - by rewrite append_assoc.
Qed.

Lemma lines_ok_lookup ls i l :
  lines_ok ls → ls !! i = Some l → terminated l ∨ unterminated l.
Proof.
  revert i. induction ls as [|l0 ls IH]; intros i Hok Hi; [done|].
  apply lines_ok_cons in Hok. destruct i as [|i]; simpl in Hi.
  - injection Hi as ->. tauto.
  - destruct Hok as [[_ Hok]|[_ ->]]; [by eapply IH|done].
Qed.

Lemma lines_ok_insert ls i old l' :
  lines_ok ls → ls !! i = Some old →
  terminated l' ∨ (unterminated l' ∧ unterminated old) →
  lines_ok (<[i := l']> ls).
Proof.
  revert i. induction ls as [|l0 ls IH]; intros i Hok Hi Hl'; [done|].
  apply lines_ok_cons in Hok. destruct i as [|i]; simpl in *.
  - injection Hi as ->. apply lines_ok_cons.
    destruct Hl' as [Hl'|[Hl' [Hold _]]].
    + left. split; [done|]. destruct Hok as [[_ ?]|[_ ->]]; done.
    + destruct Hok as [[Ht _]|[_ ->]]; [|by right].
      apply terminated_not_clean in Ht. congruence.
  - destruct Hok as [[Ht Hok]|[_ ->]]; [|done].
    apply lines_ok_cons. left. split; [done|]. by eapply IH.
Qed.

(** ** [in] and [split] around the first ['!'] *)

Lemma prefix_nil s : String.prefix "" s = true.
Proof. by destruct s. Qed.

Lemma contains_char x c s :
  Py.contains (String x "") (String c s)
  = Ascii.eqb c x || Py.contains (String x "") s.
Proof.
  simpl. destruct (ascii_dec x c) as [->|Hne].
  - by rewrite prefix_nil, Ascii.eqb_refl.
  - assert (Ascii.eqb c x = false) as -> by (apply Ascii.eqb_neq; congruence).
    reflexivity.
Qed.

Lemma contains_char_nil x : Py.contains (String x "") "" = false.
Proof. reflexivity. Qed.

(** When [x] occurs in [s], [s.split(x, 1)] is the text before the
    first [x] and the text after it. *)
Lemma split_once_found x s :
  Py.contains (String x "") s = true →
  ∃ a b, Py.split_once x s = [a; b] ∧ s = a +:+ String x b ∧
         Py.contains (String x "") a = false.
Proof.
  induction s as [|c s IH]; [done|]. rewrite contains_char. simpl.
  destruct (Ascii.eqb_spec c x) as [->|Hne]; simpl.
  - intros _. by exists "", s.
  - intros (a & b & -> & -> & Ha)%IH. exists (String c a), b.
    split_and!; [done..|]. rewrite contains_char, Ha.
    apply Ascii.eqb_neq in Hne. by rewrite Hne.
Qed.

Lemma split_once_at x a b :
  Py.contains (String x "") a = false →
  Py.contains (String x "") (a +:+ String x b) = true ∧
  Py.split_once x (a +:+ String x b) = [a; b].
Proof.
  induction a as [|c a IH].
  - intros _. rewrite append_nil_l, contains_char. simpl.
    by rewrite Ascii.eqb_refl.
  - rewrite contains_char. intros [Hc Ha]%orb_false_elim.
    destruct (IH Ha) as [H1 H2]. rewrite append_cons, contains_char. simpl.
    by rewrite H1, H2, Hc, orb_true_r.
Qed.

(** ** The parameter editor *)


Lemma edited_line_plain new_content old_line :
  Py.contains "!" old_line = false →
  edited_line new_content old_line = new_content +:+ LF.
Proof. unfold edited_line. by intros ->. Qed.

Lemma edited_line_comment new_content before after :
  Py.contains "!" before = false →
  edited_line new_content (before +:+ "!" +:+ after)
  = new_content +:+ " " +:+ "!" +:+ after.
Proof.
  intros Hb. unfold edited_line.
  destruct (split_once_at "!" before after Hb) as [H1 H2].
  change ("!" +:+ after) with (String "!" after). by rewrite H1, H2.
Qed.

Lemma edited_line_ok new_content old_line :
  no_line_break new_content = true →
  terminated old_line ∨ unterminated old_line →
  terminated (edited_line new_content old_line) ∨
  (unterminated (edited_line new_content old_line) ∧ unterminated old_line).
Proof.
  intros Hnew Hold. unfold edited_line.
  destruct (Py.contains "!" old_line) eqn:Hc.
  - apply split_once_found in Hc as (a & b & Hs & -> & Ha). rewrite Hs. simpl.
    assert (Hp : no_line_break (new_content +:+ " ") = true)
      by by rewrite no_line_break_app, Hnew.
    rewrite <- append_assoc. change ("!" +:+ b) with (String "!" b).
    destruct Hold as [Ht|[Hu Hne]].
    + left. apply terminated_prefix; [done|].
      by apply (terminated_suffix a).
    + right. split; [|done]. split.
      * rewrite no_line_break_app, Hp.
        rewrite no_line_break_app in Hu. by apply andb_prop in Hu as [_ ->].
      * by destruct new_content.
  - left. by exists new_content.
Qed.

Lemma index_Some n i k : Py.index n i = Some k → (k < n)%nat.
Proof.
  unfold Py.index. repeat case_match; intros [= <-]; lia.
Qed.

Lemma index_in_range n i :
  (0 <= i < Z.of_nat n)%Z → Py.index n i = Some (Z.to_nat i).
Proof.
  intros H. unfold Py.index.
  assert ((0 <=? i)%Z && (i <? Z.of_nat n)%Z = true) as -> by lia. done.
Qed.

Lemma index_too_large n i : (Z.of_nat n <= i)%Z → Py.index n i = None.
Proof.
  intros H. unfold Py.index.
  assert ((0 <=? i)%Z && (i <? Z.of_nat n)%Z = false) as -> by lia.
  assert ((- Z.of_nat n <=? i)%Z && (i <? 0)%Z = false) as -> by lia. done.
Qed.

Lemma index_minus_one n : (0 < n)%nat → Py.index n (-1) = Some (n - 1)%nat.
Proof.
  intros H. unfold Py.index.
  assert ((0 <=? -1)%Z && (-1 <? Z.of_nat n)%Z = false) as -> by lia.
  assert ((- Z.of_nat n <=? -1)%Z && (-1 <? 0)%Z = true) as -> by lia.
  f_equal. lia.
Qed.

Section Editor.

Variable cfg : config.
Variable WORK_DIR : string.

Lemma modify_lines_step lines key new_content items n i old w :
  Py.int (Py.replace "line" "" key) = Some n →
  Py.index (length lines) (n - 1) = Some i →
  lines !! i = Some old →
  modify_lines lines ((key, new_content) :: items) w
  = modify_lines (<[i := edited_line new_content old]> lines) items
      (add_log (Msg ("  Line " +:+ Py.str_of_int n +:+ ": " +:+ new_content))
               true w).
Proof.
  intros Hn Hi Hold. cbn [modify_lines].
  unfold mbind, M_bind, getitem, setitem, mbind, M_bind.
  rewrite Hn. cbn [of_option mret M_ret]. rewrite Hi. cbn [of_option mret M_ret].
  rewrite Hold. cbn [of_option mret M_ret].
  unfold edited_line.
  destruct (Py.contains "!" old) eqn:Hc.
  - apply split_once_found in Hc as (a & b & Hs & -> & Ha). rewrite Hs.
    reflexivity.
  - reflexivity.
Qed.


Lemma edited_line_edit_of new_content old_line :
  edit_of new_content old_line (edited_line new_content old_line).
Proof.
  split.
  - apply edited_line_plain.
  - intros before after -> Hb. by apply edited_line_comment.
Qed.


Lemma index_applicable len n :
  (- Z.of_nat len < n <= Z.of_nat len)%Z →
  ∃ i, Py.index len (n - 1) = Some i.
Proof.
  intros H. unfold Py.index.
  destruct ((0 <=? n - 1)%Z && (n - 1 <? Z.of_nat len)%Z) eqn:E1; [eauto|].
  assert ((- Z.of_nat len <=? n - 1)%Z && (n - 1 <? 0)%Z = true) as -> by lia.
  eauto.
Qed.

Lemma modify_lines_applicable pre rest lines w :
  Forall (applicable (length lines)) pre →
  ∃ lines' w',
    modify_lines lines (pre ++ rest) w = modify_lines lines' rest w' ∧
    length lines' = length lines ∧
    files w' = files w ∧ cwd w' = cwd w.
Proof.
  revert lines w. induction pre as [|[key new_content] pre IH]; intros lines w Hpre.
  { by exists lines, w. }
  apply Forall_cons in Hpre as [(n & Hn & Hrange) Hpre]. simpl in Hn.
  destruct (index_applicable _ _ Hrange) as [i Hi].
  destruct (lookup_lt_is_Some_2 lines i (index_Some _ _ _ Hi)) as [old Hold].
  rewrite <- app_comm_cons, (modify_lines_step _ _ _ _ _ _ _ _ Hn Hi Hold).
  edestruct (IH (<[i:=edited_line new_content old]> lines)) as (lines' & w' & -> & Hlen & Hf & Hc).
  { by rewrite length_insert. }
  exists lines', w'. rewrite length_insert in Hlen. done.
Qed.

Lemma modify_lines_out_of_range lines key new_content items n w :
  Py.int (Py.replace "line" "" key) = Some n →
  (Z.of_nat (length lines) < n)%Z →
  modify_lines lines ((key, new_content) :: items) w = (Raise IndexError, w).
Proof.
  intros Hn Hrange. cbn [modify_lines].
  unfold mbind, M_bind, getitem, mbind, M_bind.
  rewrite Hn. cbn [of_option mret M_ret].
  rewrite index_too_large by lia. reflexivity.
Qed.

Let input_path : path := [WORK_DIR; INPUT_FILE cfg].

Lemma modify_input_params_run params w content :
  files w !! (cwd w ++ input_path) = Some content →
  modify_input_params cfg WORK_DIR params w
  = match modify_lines (Py.readlines content) params
            (add_log (Msg ("Modifying " +:+ path_str input_path +:+ "...")) true w)
    with
    | (Ok lines, w') =>
        (Ok tt,
         add_log (Msg ("✓ " +:+ INPUT_FILE cfg +:+ " updated successfully")) true
           (set_files (<[cwd w' ++ input_path := Py.writelines lines]> (files w')) w'))
    | (Raise e, w') => (Raise e, w')
    | (Blocked, w') => (Blocked, w')
    end.
Proof.
  intros Hfile. unfold modify_input_params, read_input_file, read_file.
  unfold mbind, M_bind, log_message, log_entry_to, modify, gets.
  cbn [add_log cwd files]. fold input_path. rewrite Hfile. cbn [of_option mret M_ret].
  destruct (modify_lines _ _ _) as [[lines| |] w']; reflexivity.
Qed.

End Editor.

(** Running the editor on one applicable edit: the file is rewritten
    with the edited line in place of the old one. *)
Lemma modify_input_params_one cfg WORK_DIR w content key new_content n i old_line :
  files w !! (cwd w ++ [WORK_DIR; INPUT_FILE cfg]) = Some content →
  Py.int (Py.replace "line" "" key) = Some n →
  Py.index (length (Py.readlines content)) (n - 1) = Some i →
  Py.readlines content !! i = Some old_line →
  ∃ w',
    modify_input_params cfg WORK_DIR [(key, new_content)] w = (Ok tt, w') ∧
    cwd w' = cwd w ∧
    files w' = <[cwd w ++ [WORK_DIR; INPUT_FILE cfg] :=
                   Py.writelines (<[i := edited_line new_content old_line]>
                                    (Py.readlines content))]> (files w).
Proof.
  intros Hfile Hn Hi Hold.
  rewrite (modify_input_params_run _ _ _ _ _ Hfile).
  rewrite (modify_lines_step _ _ _ _ _ _ _ _ Hn Hi Hold).
  cbn [modify_lines mret M_ret]. eexists. split; [reflexivity|]. done.
Qed.

(** C5, as amended: for an edit whose line number is between 1 and the
    line count and whose new content holds no line break, the editor
    succeeds, and reading the file again gives as many lines as before,
    the same line at every other position, and at the edited position
    the new content followed by a line feed or, when the old line has a
    ['!'], by a space and the old line from its first ['!'] on. When
    the file holds no carriage return, every other line is the same
    byte for byte, the lines taken as they lie in the file. *)
Theorem modify_input_params_valid_edit cfg WORK_DIR w content key new_content n :
  files w !! (cwd w ++ [WORK_DIR; INPUT_FILE cfg]) = Some content →
  Py.int (Py.replace "line" "" key) = Some n →
  (1 <= n <= Z.of_nat (length (Py.readlines content)))%Z →
  no_line_break new_content = true →
  ∃ w' content' old_line new_line,
    modify_input_params cfg WORK_DIR [(key, new_content)] w = (Ok tt, w') ∧
    files w' !! (cwd w' ++ [WORK_DIR; INPUT_FILE cfg]) = Some content' ∧
    Py.readlines content !! Z.to_nat (n - 1) = Some old_line ∧
    Py.readlines content' !! Z.to_nat (n - 1) = Some new_line ∧
    edit_of new_content old_line new_line ∧
    (∀ j, j ≠ Z.to_nat (n - 1) →
          Py.readlines content' !! j = Py.readlines content !! j) ∧
    length (Py.readlines content') = length (Py.readlines content) ∧
    (no_cr content = true →
     length (file_lines content') = length (file_lines content) ∧
     ∀ j, j ≠ Z.to_nat (n - 1) →
          file_lines content' !! j = file_lines content !! j).
Proof.
  intros Hfile Hn Hrange Hnew.
  assert (Hraw : no_cr content = true → file_lines content = Py.readlines content).
  { intros Hcr. unfold file_lines, Py.readlines.
    by rewrite universal_newlines_no_cr. }
  set (lines := Py.readlines content) in *.
  set (i := Z.to_nat (n - 1)).
  assert (Hi : Py.index (length lines) (n - 1) = Some i)
    by (apply index_in_range; lia).
  destruct (lookup_lt_is_Some_2 lines i) as [old_line Hold]; [lia|].
  destruct (modify_input_params_one cfg WORK_DIR w content key new_content
              n i old_line Hfile Hn Hi Hold) as (w' & Hrun & Hcwd & Hfiles).
  fold lines in Hfiles.
  exists w', (Py.writelines (<[i := edited_line new_content old_line]> lines)),
         old_line, (edited_line new_content old_line).
  assert (Hok : lines_ok (<[i := edited_line new_content old_line]> lines)).
  { eapply lines_ok_insert; [apply readlines_ok|done|].
    apply edited_line_ok; [done|].
    eapply lines_ok_lookup; [apply readlines_ok|done]. }
  assert (Hread : Py.readlines
            (Py.writelines (<[i := edited_line new_content old_line]> lines))
          = <[i := edited_line new_content old_line]> lines)
    by by apply readlines_writelines.
  assert (Hraw' : file_lines
            (Py.writelines (<[i := edited_line new_content old_line]> lines))
          = <[i := edited_line new_content old_line]> lines).
  { rewrite <- Hread at 2. unfold file_lines, Py.readlines.
    by rewrite universal_newlines_no_cr by by apply lines_ok_no_cr. }
  rewrite Hread, Hraw'.
  split_and!.
  - done.
  - by rewrite Hcwd, Hfiles, lookup_insert_eq.
  - done.
  - apply list_lookup_insert_eq. lia.
  - apply edited_line_edit_of.
  - intros j Hj. by apply list_lookup_insert_ne.
  - apply length_insert.
  - intros Hcr. rewrite (Hraw Hcr). split; [apply length_insert|].
    intros j Hj. by apply list_lookup_insert_ne.
Qed.

Lemma modify_input_params_valid_edit_witness :
  ∃ w' content' old_line new_line,
    modify_input_params CONFIG "run" [("line1", "2000 1000 1000 5000")]
      example_world = (Ok tt, w') ∧
    files w' !! (cwd w' ++ ["run"; "inputN.in"]) = Some content' ∧
    Py.readlines example_input !! 0%nat = Some old_line ∧
    Py.readlines content' !! 0%nat = Some new_line ∧
    edit_of "2000 1000 1000 5000" old_line new_line ∧
    (∀ j, j ≠ 0%nat →
          Py.readlines content' !! j = Py.readlines example_input !! j) ∧
    length (Py.readlines content') = length (Py.readlines example_input) ∧
    (no_cr example_input = true →
     length (file_lines content') = length (file_lines example_input) ∧
     ∀ j, j ≠ 0%nat → file_lines content' !! j = file_lines example_input !! j).
Proof.
  apply (modify_input_params_valid_edit CONFIG "run" example_world
           example_input "line1" "2000 1000 1000 5000" 1).
  - reflexivity.
  - reflexivity.
  - vm_compute. split; discriminate.
  - reflexivity.
Defined.

(** On a file whose lines end in CR LF the lines the edit does not
    address are not the same byte for byte afterwards: they are read
    with their ending as a line feed and written back so. *)
Example modify_input_params_crlf_rewritten :
  ∃ w',
    modify_input_params CONFIG "run" [("line1", "2 2 1")] crlf_world = (Ok tt, w') ∧
    files crlf_world !! ["run"; "inputN.in"]
    = Some ("1 1 1" +:+ CRLF +:+ "0.5 ! dt" +:+ CRLF) ∧
    files w' !! ["run"; "inputN.in"]
    = Some ("2 2 1" +:+ LF +:+ "0.5 ! dt" +:+ LF).
Proof. eexists. split_and!; vm_compute; reflexivity. Qed.

(** C5 as stated fails for a new content that holds a line feed: the
    edit of line 2 of a three-line file leaves a file of four lines. *)
Lemma modify_input_params_line_count_changes :
  let new_content := "1 0" +:+ LF +:+ "0 1" in
  ∃ w' content',
    Py.int (Py.replace "line" "" "line2") = Some 2%Z ∧
    length (Py.readlines example_input) = 3%nat ∧
    modify_input_params CONFIG "run" [("line2", new_content)] example_world
    = (Ok tt, w') ∧
    files w' !! (cwd w' ++ ["run"; "inputN.in"]) = Some content' ∧
    length (Py.readlines content') = 4%nat ∧
    Py.readlines content' !! 1%nat ≠ Some (new_content +:+ LF).
Proof.
  eexists _, _. split_and!; [reflexivity..| |].
  - vm_compute. reflexivity.
  - vm_compute. congruence.
Qed.

(** C7: an edit whose line number exceeds the line count makes the
    editor raise [IndexError], whatever applicable edits come before it
    in the dict, and the files are as they were. *)
Theorem modify_input_params_out_of_range
    cfg WORK_DIR w content pre key new_content post n :
  files w !! (cwd w ++ [WORK_DIR; INPUT_FILE cfg]) = Some content →
  Forall (applicable (length (Py.readlines content))) pre →
  Py.int (Py.replace "line" "" key) = Some n →
  (Z.of_nat (length (Py.readlines content)) < n)%Z →
  ∃ w',
    modify_input_params cfg WORK_DIR (pre ++ (key, new_content) :: post) w
    = (Raise IndexError, w') ∧
    files w' = files w.
Proof.
  intros Hfile Hpre Hn Hrange.
  rewrite (modify_input_params_run _ _ _ _ _ Hfile).
  edestruct (modify_lines_applicable pre ((key, new_content) :: post))
    as (lines' & w' & -> & Hlen & Hfiles & _); [exact Hpre|].
  rewrite (modify_lines_out_of_range _ _ _ _ n) by (rewrite ?Hlen; done).
  exists w'. split; [reflexivity|]. by rewrite Hfiles.
Qed.

Lemma modify_input_params_out_of_range_witness :
  ∃ w',
    modify_input_params CONFIG "run"
      ([("line1", "2000 1000 1000 5000")] ++ ("line24", "0.0 0.0") :: [])
      example_world
    = (Raise IndexError, w') ∧
    files w' = files example_world.
Proof.
  apply (modify_input_params_out_of_range CONFIG "run" example_world
           example_input [("line1", "2000 1000 1000 5000")] "line24" "0.0 0.0"
           [] 24).
  - reflexivity.
  - apply Forall_cons. split; [|by apply Forall_nil].
    exists 1%Z. split; [reflexivity|]. vm_compute. split; [reflexivity|discriminate].
  - reflexivity.
  - vm_compute. reflexivity.
Defined.

(** C10: with a key that reads as line number 0 and a file of at least
    one line, the editor does not fail: the index [-1] denotes the last
    line, and the file is rewritten with that line edited. *)
Theorem modify_input_params_line_zero cfg WORK_DIR w content key new_content :
  files w !! (cwd w ++ [WORK_DIR; INPUT_FILE cfg]) = Some content →
  Py.int (Py.replace "line" "" key) = Some 0%Z →
  (0 < length (Py.readlines content))%nat →
  ∃ w' old_line new_line,
    modify_input_params cfg WORK_DIR [(key, new_content)] w = (Ok tt, w') ∧
    last (Py.readlines content) = Some old_line ∧
    edit_of new_content old_line new_line ∧
    files w' !! (cwd w' ++ [WORK_DIR; INPUT_FILE cfg])
    = Some (Py.writelines
              (<[(length (Py.readlines content) - 1)%nat := new_line]>
                 (Py.readlines content))).
Proof.
  intros Hfile Hn Hlen.
  set (lines := Py.readlines content) in *.
  pose proof (index_minus_one (length lines) Hlen) as Hi.
  destruct (lookup_lt_is_Some_2 lines (length lines - 1)) as [old_line Hold];
    [lia|].
  destruct (modify_input_params_one cfg WORK_DIR w content key new_content
              0 _ old_line Hfile Hn Hi Hold) as (w' & Hrun & Hcwd & Hfiles).
  exists w', old_line, (edited_line new_content old_line). split_and!.
  - done.
  - rewrite last_lookup. by replace (Nat.pred (length lines)) with (length lines - 1)%nat by lia.
  - apply edited_line_edit_of.
  - by rewrite Hcwd, Hfiles, lookup_insert_eq.
Qed.

Lemma modify_input_params_line_zero_witness :
  ∃ w' old_line new_line,
    modify_input_params CONFIG "run" [("line0", "0.0 0.0 0.01")] example_world
    = (Ok tt, w') ∧
    last (Py.readlines example_input) = Some old_line ∧
    edit_of "0.0 0.0 0.01" old_line new_line ∧
    files w' !! (cwd w' ++ ["run"; "inputN.in"])
    = Some (Py.writelines
              (<[(length (Py.readlines example_input) - 1)%nat := new_line]>
                 (Py.readlines example_input))).
Proof.
  apply (modify_input_params_line_zero CONFIG "run" example_world
           example_input "line0" "0.0 0.0 0.01").
  - reflexivity.
  - reflexivity.
  - vm_compute. lia.
Defined.

(** ** Effects a computation does not have *)

Section Stable.

Context (R : relation world) `{!PreOrder R}.

Lemma stable_ret {A} (a : A) : stable R (mret a).
Proof. intros w. reflexivity. Qed.

Lemma stable_throw {A} (e : exn) : stable R (mthrow (A := A) e).
Proof. intros w. reflexivity. Qed.

Lemma stable_bind {A B} (m : M A) (f : A → M B) :
  stable R m → (∀ a, stable R (f a)) → stable R (m ≫= f).
Proof.
  intros Hm Hf w. specialize (Hm w). unfold mbind, M_bind.
  destruct (m w) as [[a|e|] w']; [|done..].
  etrans; [exact Hm|apply Hf].
Qed.

Lemma stable_gets {A} (f : world → A) : stable R (gets f).
Proof. intros w. reflexivity. Qed.

Lemma stable_of_option {A} e (o : option A) : stable R (of_option e o).
Proof. destruct o; [apply stable_ret|apply stable_throw]. Qed.

Lemma stable_modify (f : world → world) :
  (∀ w, R w (f w)) → stable R (modify f).
Proof. intros Hf w. apply Hf. Qed.

Lemma stable_try_except {A} (m : M A) caught handler :
  stable R m → (∀ e, stable R (handler e)) →
  stable R (try_except m caught handler).
Proof.
  intros Hm Hh w. specialize (Hm w). unfold try_except.
  destruct (m w) as [[a|e|] w']; [done| |done].
  destruct (caught e); [|done]. etrans; [exact Hm|apply Hh].
Qed.

Lemma stable_try_finally {A} (m : M A) cleanup :
  stable R m → stable R cleanup → stable R (try_finally m cleanup).
Proof.
  intros Hm Hc w. specialize (Hm w). unfold try_finally.
  destruct (m w) as [[a|e|] w']; [| |done].
  - etrans; [exact Hm|]. apply (stable_bind cleanup); [done|].
    intros; apply stable_ret.
  - etrans; [exact Hm|]. apply (stable_bind cleanup); [done|].
    intros; apply stable_throw.
Qed.

Lemma stable_for {A} (l : list A) body :
  (∀ x, stable R (body x)) → stable R (for_ l body).
Proof.
  intros Hb. induction l as [|x l IH]; [apply stable_ret|].
  apply stable_bind; [apply Hb|]. intros _. apply IH.
Qed.

Lemma stable_getitem {A} (l : list A) i : stable R (getitem l i).
Proof.
  apply stable_bind; [apply stable_of_option|].
  intros; apply stable_of_option.
Qed.

Lemma stable_setitem {A} (l : list A) i x : stable R (setitem l i x).
Proof.
  apply stable_bind; [apply stable_of_option|]. intros; apply stable_ret.
Qed.

End Stable.

#[global] Instance same_files_preorder : PreOrder same_files.
Proof.
  split.
  - by intros w.
  - intros w1 w2 w3 [H1 H2] [H3 H4]. split; congruence.
Qed.

(** Leaf facts go in the [stable] database; [solve_stable] follows the
    structure of the computation down to them. *)
Create HintDb stable discriminated.

Ltac stable_with leaf :=
  lazymatch goal with
  | |- stable _ (_ ≫= _) =>
      apply stable_bind; [apply _|stable_with leaf|intros; stable_with leaf]
  | |- stable _ (mret _) => apply stable_ret; apply _
  | |- stable _ (mthrow _) => apply stable_throw; apply _
  | |- stable _ (gets _) => apply stable_gets; apply _
  | |- stable _ (of_option _ _) => apply stable_of_option; apply _
  | |- stable _ (getitem _ _) => apply stable_getitem; apply _
  | |- stable _ (setitem _ _ _) => apply stable_setitem; apply _
  | |- stable _ (for_ _ _) =>
      apply stable_for; [apply _|intros; stable_with leaf]
  | |- stable _ (try_except _ _ _) =>
      apply stable_try_except;
      [apply _|stable_with leaf|intros; stable_with leaf]
  | |- stable _ (try_finally _ _) =>
      apply stable_try_finally; [apply _|stable_with leaf|stable_with leaf]
  | |- stable _ (match ?x with _ => _ end) => destruct x; stable_with leaf
  | |- stable _ (let '_ := ?x in _) => destruct x; stable_with leaf
  | |- _ => first [solve [eauto with stable] | leaf]
  end.

Ltac solve_stable := stable_with fail.

Lemma stable_log_message R `{!PreOrder R} message :
  (∀ e b w, R w (add_log e b w)) → stable R (log_message message).
Proof. intros H. apply stable_modify. intros w. apply H. Qed.

Lemma stable_log_entry_to R `{!PreOrder R} e b :
  (∀ e b w, R w (add_log e b w)) → stable R (log_entry_to e b).
Proof. intros H. apply stable_modify. intros w. apply H. Qed.

(** ** Extraction: scanning the chunk files *)

Lemma same_files_add_log e b w : same_files w (add_log e b w).
Proof. done. Qed.

Lemma log_message_same_files message : stable same_files (log_message message).
Proof. apply stable_log_message; [apply _|apply same_files_add_log]. Qed.

Lemma log_entry_to_same_files e b : stable same_files (log_entry_to e b).
Proof. apply stable_log_entry_to; [apply _|apply same_files_add_log]. Qed.

#[global] Hint Resolve log_message_same_files log_entry_to_same_files : stable.

Lemma scan_line_same_files g line : stable same_files (scan_line g line).
Proof. unfold scan_line. solve_stable. Qed.

Lemma scan_lines_same_files g lines : stable same_files (scan_lines g lines).
Proof.
  revert g. induction lines as [|line lines IH]; intros g; simpl.
  - solve_stable.
  - apply stable_bind; [apply _|apply scan_line_same_files|]. intros; apply IH.
Qed.

Lemma isfile_same_files p : stable same_files (isfile p).
Proof. unfold isfile. solve_stable. Qed.

Lemma read_file_same_files p : stable same_files (read_file p).
Proof. unfold read_file. solve_stable. Qed.

#[global] Hint Resolve scan_lines_same_files isfile_same_files
  read_file_same_files : stable.

Lemma scan_chunk_same_files cfg final_step g chunk :
  stable same_files (scan_chunk cfg final_step g chunk).
Proof. unfold scan_chunk. solve_stable. Qed.

Lemma scan_chunks_same_files cfg final_step g chunks :
  stable same_files (scan_chunks cfg final_step g chunks).
Proof.
  revert g. induction chunks as [|chunk chunks IH]; intros g; simpl.
  - solve_stable.
  - apply stable_bind; [apply _|apply scan_chunk_same_files|].
    intros [b|g']; [solve_stable|apply IH].
Qed.

(** Unfolding the monad down to functions on [world]. *)
Ltac unfold_M :=
  cbv beta iota zeta delta
    [mbind M_bind mret M_ret mthrow M_throw gets modify of_option
     isfile read_file write_file fwrite log_message log_entry_to
     chdir chdir_up] in *.

Ltac case_split := repeat (case_match; simplify_eq/=; try done).

(** The only value [scan_chunk] makes the function return is [False]. *)
Lemma scan_chunk_return cfg final_step g chunk w b w' :
  scan_chunk cfg final_step g chunk w = (Ok (Return b), w') → b = false.
Proof.
  unfold scan_chunk. unfold_M. case_split; unfold_M; case_split.
  all: by intros; simplify_eq.
Qed.

Lemma scan_chunks_return cfg final_step g chunks w b w' :
  scan_chunks cfg final_step g chunks w = (Ok (Return b), w') → b = false.
Proof.
  revert g w. induction chunks as [|chunk chunks IH]; intros g w; simpl.
  - by intros [=].
  - unfold mbind, M_bind.
    destruct (scan_chunk _ _ _ _ _) as [[[b0|g']| |] w1] eqn:E; try by intros [=].
    + intros [= <- <-]. by eapply scan_chunk_return.
    + apply IH.
Qed.

Lemma scan_chunk_bad cfg final_step g chunk w :
  bad_chunk w (dat_name cfg (final_step + chunk)) →
  ∃ w', scan_chunk cfg final_step g chunk w = (Ok (Return false), w').
Proof.
  intros Hbad. unfold scan_chunk. unfold_M.
  destruct Hbad as [Hnone|(content & Hsome & Hlen)].
  - rewrite Hnone. rewrite bool_decide_eq_false_2 by (by intros [? [=]]).
    simpl. eauto.
  - rewrite Hsome. rewrite bool_decide_eq_true_2 by eauto. cbn [negb].
    unfold header_of in Hlen. apply Nat.ltb_lt in Hlen.
    rewrite Hsome. cbv beta iota. rewrite Hlen. eauto.
Qed.

Lemma bad_chunk_same_files w w' fname :
  same_files w w' → bad_chunk w fname → bad_chunk w' fname.
Proof. intros [Hf Hc]. unfold bad_chunk. by rewrite Hf, Hc. Qed.

Lemma scan_chunks_bad cfg final_step g chunks chunk w :
  chunk ∈ chunks →
  bad_chunk w (dat_name cfg (final_step + chunk)) →
  ∃ w', same_files w w' ∧
    (scan_chunks cfg final_step g chunks w = (Ok (Return false), w') ∨
     ∃ e, scan_chunks cfg final_step g chunks w = (Raise e, w')).
Proof.
  revert g w. induction chunks as [|c chunks IH]; intros g w Hin Hbad.
  { by apply elem_of_nil in Hin. }
  pose proof (scan_chunk_same_files cfg final_step g c w) as Hsame.
  simpl. unfold mbind, M_bind.
  destruct (decide (chunk = c)) as [->|Hne].
  - destruct (scan_chunk_bad cfg final_step g c w Hbad) as [w' Hw'].
    rewrite Hw' in *. eauto.
  - apply elem_of_cons in Hin as [?|Hin]; [done|].
    destruct (scan_chunk _ _ _ _ _) as [[[b|g']|e|] w1] eqn:E; simpl in Hsame.
    + apply scan_chunk_return in E as ->. eauto.
    + destruct (IH g' w1 Hin) as (w' & Hs & Hr).
      { by eapply bad_chunk_same_files. }
      exists w'. split; [by etrans|done].
    + eauto.
    + (* [scan_chunk] never blocks *)
      exfalso. revert E.
      assert (Hl : ∀ g ls w, (scan_lines g ls w).1 ≠ Blocked).
      { clear. intros g ls. revert g. induction ls as [|l ls IH]; intros g w; [done|].
        simpl. unfold mbind, M_bind.
        destruct (scan_line g l w) as [[g'| |] w'] eqn:E; [apply IH|done|].
        revert E. unfold scan_line. unfold_M. unfold of_option. case_split. }
      unfold scan_chunk. unfold_M. unfold of_option.
      case_split; unfold_M; case_split.
      all: match goal with
           | H : scan_lines ?g ?ls ?w = (Blocked, _) |- _ =>
               by destruct (Hl g ls w); rewrite H
           end.
Qed.

Lemma elem_of_range x n : x ∈ Py.range n ↔ (0 <= x < n)%Z.
Proof.
  unfold Py.range. rewrite elem_of_seqZ. lia.
Qed.

(** C2: in a work directory that is there, when the chunk file of some
    rank is absent, or its header line has fewer than three tokens,
    extraction returns [False], and no file is created or modified,
    the log apart: the restart file is what it was. *)
Theorem extract_final_state_bad_chunk cfg WORK_DIR final_step w rank :
  cwd w ++ [WORK_DIR] ∈ dirs w →
  (0 <= rank < NUM_CHUNKS cfg)%Z →
  (chunk_file cfg WORK_DIR final_step w rank = None ∨
   ∃ content, chunk_file cfg WORK_DIR final_step w rank = Some content ∧
              (length (header_of content) < 3)%nat) →
  ∃ w',
    extract_final_state cfg WORK_DIR final_step w = (Ok false, w') ∧
    files w' = files w ∧
    restart_file WORK_DIR w' = restart_file WORK_DIR w.
Proof.
  intros _ Hrank Hbad.
  assert (∃ w', extract_final_state cfg WORK_DIR final_step w = (Ok false, w')
                ∧ same_files w w') as (w' & Hrun & Hfiles & Hcwd).
  2:{ exists w'. unfold restart_file. by rewrite Hfiles, Hcwd. }
  unfold extract_final_state.
  set (w0 := add_log (Msg ("Extracting final state at step " +:+
                           Py.str_of_int final_step +:+ "...")) true w).
  set (w1 := set_cwd (cwd w0 ++ [WORK_DIR]) w0).
  assert (Hbad1 : bad_chunk w1 (dat_name cfg (final_step + rank))).
  { unfold bad_chunk, chunk_file in *. simpl. by rewrite <- !app_assoc. }
  destruct (scan_chunks_bad cfg final_step None (Py.range (NUM_CHUNKS cfg))
              rank w1 (proj2 (elem_of_range _ _) Hrank) Hbad1)
    as (w2 & [Hf2 Hc2] & Hscan).
  unfold try_finally, try_except. unfold_M. fold w0 w1.
  destruct Hscan as [->|[e ->]]; simpl.
  - eexists. split; [reflexivity|]. split; simpl; [done|].
    rewrite Hc2. simpl. apply removelast_last.
  - eexists. split; [reflexivity|]. split; simpl; [done|].
    rewrite Hc2. simpl. apply removelast_last.
Qed.

Lemma extract_final_state_bad_chunk_witness :
  ∃ w',
    extract_final_state CONFIG "run" 5000 example_world = (Ok false, w') ∧
    files w' = files example_world ∧
    restart_file "run" w' = restart_file "run" example_world.
Proof.
  apply (extract_final_state_bad_chunk CONFIG "run" 5000 example_world 0).
  - apply (bool_decide_unpack _). vm_compute. exact I.
  - vm_compute. split; [discriminate|reflexivity].
  - left. reflexivity.
Defined.

(** ** Extraction: the grid after scanning *)

Lemma scan_line_parse g line w :
  scan_line g line w
  = match parse_line line with
    | None => (Raise ValueError, w)
    | Some None => (Ok g, w)
    | Some (Some r) =>
        match store g r with
        | Some g' => (Ok g', w)
        | None => (Raise IndexError, w)
        end
    end.
Proof.
  unfold scan_line, parse_line, store, pos, pos_of. unfold_M.
  destruct (_ <? _)%nat; [done|].
  repeat (destruct (Py.int _); simpl; [|done]).
  repeat (destruct (Float.of_string _); simpl; [|done]).
  repeat (destruct (Np.set _ _ _); simpl; [|done]).
  done.
Qed.

Lemma scan_lines_parse g lines w recs g' :
  parse_lines lines = Some recs →
  store_all g recs = Some g' →
  scan_lines g lines w = (Ok g', w).
Proof.
  revert g recs. induction lines as [|line lines IH]; intros g recs; simpl.
  { by intros [= <-] [= <-]. }
  unfold mbind at 3, M_bind. rewrite scan_line_parse.
  destruct (parse_line line) as [[r|]|]; simpl; [| |done].
  - destruct (parse_lines lines) as [rs|]; simpl; [|done].
    intros [= <-]. simpl. destruct (store g r) as [g1|]; simpl; [|done].
    by apply IH.
  - destruct (parse_lines lines) as [rs|]; simpl; [|done].
    intros [= <-]. by apply IH.
Qed.

Lemma store_all_app g rs1 rs2 :
  store_all g (rs1 ++ rs2) = g' ← store_all g rs1; store_all g' rs2.
Proof.
  revert g. induction rs1 as [|r rs1 IH]; intros g; simpl; [done|].
  destruct (store g r); simpl; [apply IH|done].
Qed.

Lemma axis_in_range n i : (0 <= i < n)%Z → Np.axis n i = Some i.
Proof.
  intros H. unfold Np.axis.
  assert ((0 <=? i)%Z && (i <? n)%Z = true) as -> by lia. done.
Qed.

Lemma position_in_range a n0 n1 n2 i j k :
  Np.shape a = (n0, n1, n2) →
  (0 <= i < n0)%Z → (0 <= j < n1)%Z → (0 <= k < n2)%Z →
  Np.position a (i, j, k) = Some (i, j, k).
Proof.
  intros Hs Hi Hj Hk. unfold Np.position. rewrite Hs.
  by rewrite !axis_in_range by done.
Qed.

(** A record of the box is stored where its indices say. *)
Lemma store_in_box g r :
  grid_wf g → in_box (nx g) (ny g) (nz g) r.1 →
  ∃ g', store g r = Some g' ∧ grid_wf g' ∧
        nx g' = nx g ∧ ny g' = ny g ∧ nz g' = nz g ∧
        Np.data (pxx g') = <[pos r := r.2.1.1]> (Np.data (pxx g)) ∧
        Np.data (pyy g') = <[pos r := r.2.1.2]> (Np.data (pyy g)) ∧
        Np.data (pzz g') = <[pos r := r.2.2]> (Np.data (pzz g)).
Proof.
  destruct r as [[[i j] k] [[px py] pz]].
  intros (H0 & H1 & H2 & Hx & Hy & Hz) (Hi & Hj & Hk).
  unfold store, Np.set, pos, pos_of. simpl in *.
  rewrite (position_in_range _ _ _ _ _ _ _ Hx) by lia.
  rewrite (position_in_range _ _ _ _ _ _ _ Hy) by lia.
  rewrite (position_in_range _ _ _ _ _ _ _ Hz) by lia.
  simpl. eexists. split; [reflexivity|]. by repeat split.
Qed.

Lemma pos_inj r r' : pos r = pos r' → r.1 = r'.1.
Proof.
  destruct r as [[[i j] k] ?], r' as [[[i' j'] k'] ?]. unfold pos, pos_of. simpl.
  intros [=]. f_equal; [f_equal|]; lia.
Qed.

(** Records of the box with pairwise distinct triples are all stored,
    and the grid then holds the scalars of each of them. *)
Lemma store_all_in_box g rs :
  grid_wf g →
  Forall (λ r, in_box (nx g) (ny g) (nz g) r.1) rs →
  NoDup rs.*1 →
  ∃ g', store_all g rs = Some g' ∧ grid_wf g' ∧
        nx g' = nx g ∧ ny g' = ny g ∧ nz g' = nz g ∧
        (∀ r, r ∈ rs → grid_at g' (pos r) = r.2) ∧
        (∀ p, p ∉ pos <$> rs → grid_at g' p = grid_at g p).
Proof.
  revert g. induction rs as [|r rs IH]; intros g Hwf Hbox Hnd.
  { exists g. split_and!; try done. intros r Hr. by apply elem_of_nil in Hr. }
  apply Forall_cons in Hbox as [Hr Hbox].
  rewrite fmap_cons in Hnd. apply NoDup_cons in Hnd as [Hfresh Hnd].
  destruct (store_in_box g r Hwf Hr)
    as (g1 & Hst & Hwf1 & Hx & Hy & Hz & Dx & Dy & Dz).
  destruct (IH g1) as (g' & Hall & Hwf' & Hx' & Hy' & Hz' & Hin & Hout);
    [done|by rewrite Hx, Hy, Hz|done|].
  exists g'. simpl. rewrite Hst. simpl. split_and!; try done; try congruence.
  - intros r' [->|Hr']%elem_of_cons; [|by apply Hin].
    rewrite Hout.
    + unfold grid_at. rewrite Dx, Dy, Dz, !lookup_insert_eq. simpl.
      by destruct r as [? [[? ?] ?]].
    + intros (r'' & Hp & Hr'')%list_elem_of_fmap. apply Hfresh.
      apply list_elem_of_fmap. exists r''. split; [|done]. by apply pos_inj.
  - intros p Hp. rewrite Hout.
    + unfold grid_at. rewrite Dx, Dy, Dz.
      rewrite !lookup_insert_ne; [done|..]; intros <-; apply Hp;
        apply list_elem_of_here.
    + intros Hp'. apply Hp. by apply list_elem_of_further.
Qed.

Lemma store_all_app_Some g rs1 rs2 g' :
  store_all g (rs1 ++ rs2) = Some g' →
  ∃ g1, store_all g rs1 = Some g1 ∧ store_all g1 rs2 = Some g'.
Proof.
  rewrite store_all_app. destruct (store_all g rs1) as [g1|]; [|done].
  simpl. eauto.
Qed.

(** A readable chunk once the grid exists: its records are stored and
    nothing else happens. *)
Lemma scan_chunk_next cfg final_step g chunk w c g' :
  readable_chunk w (dat_name cfg (final_step + chunk)) c →
  store_all g c.2 = Some g' →
  scan_chunk cfg final_step (Some g) chunk w = (Ok (Continue (Some g')), w).
Proof.
  intros (Hfile & Hhead & Hrecs) Hstore. unfold scan_chunk. unfold_M.
  rewrite Hfile. rewrite bool_decide_eq_true_2 by eauto. cbn [negb].
  rewrite Hfile. cbv beta iota.
  unfold header_of in Hhead. apply Nat.ltb_ge in Hhead. rewrite Hhead.
  by rewrite (scan_lines_parse _ _ _ _ _ Hrecs Hstore).
Qed.

Lemma fits_allocatable nx ny nz :
  Np.fits (nx, ny, nz) = true ↔ allocatable nx ny nz.
Proof.
  unfold Np.fits, allocatable, Np.itemsize, Np.max_intp. rewrite Z.leb_le.
  change (2 ^ 63)%Z with 9223372036854775808%Z. lia.
Qed.

Lemma zeros_allocatable nx ny nz :
  (0 <= nx)%Z → (0 <= ny)%Z → (0 <= nz)%Z → allocatable nx ny nz →
  Np.zeros (nx, ny, nz) = Some (Np.NdArray (nx, ny, nz) ∅).
Proof.
  intros Hx Hy Hz Hfit%fits_allocatable. unfold Np.zeros. rewrite Hfit.
  by assert ((0 <=? nx)%Z && (0 <=? ny)%Z && (0 <=? nz)%Z = true) as -> by lia.
Qed.

Lemma zeros_Some n0 n1 n2 a :
  Np.zeros (n0, n1, n2) = Some a →
  a = Np.NdArray (n0, n1, n2) ∅ ∧
  (0 <= n0)%Z ∧ (0 <= n1)%Z ∧ (0 <= n2)%Z ∧ allocatable n0 n1 n2.
Proof.
  unfold Np.zeros. destruct (_ && Np.fits _) eqn:E; [|done].
  intros [= <-]. apply andb_prop in E as [E Hfit].
  apply fits_allocatable in Hfit. split; [done|]. split_and!; [lia..|done].
Qed.

(** The first chunk: the header gives the dimensions, the arrays are
    allocated, and the records are stored. *)
Lemma scan_chunk_first cfg final_step chunk w c nx ny nz g' :
  readable_chunk w (dat_name cfg (final_step + chunk)) c →
  dims_of c.1 = Some (nx, ny, nz) →
  (0 <= nx)%Z → (0 <= ny)%Z → (0 <= nz)%Z →
  allocatable nx ny nz →
  store_all (zero_grid nx ny nz) c.2 = Some g' →
  scan_chunk cfg final_step None chunk w
  = (Ok (Continue (Some g')),
     add_log (Msg ("Grid dimensions: nx=" +:+ Py.str_of_int nx +:+
                   ", ny=" +:+ Py.str_of_int ny +:+
                   ", nz=" +:+ Py.str_of_int nz)) true w).
Proof.
  intros (Hfile & Hhead & Hrecs) Hdims Hx Hy Hz Hfit Hstore.
  unfold scan_chunk. unfold_M.
  rewrite Hfile. rewrite bool_decide_eq_true_2 by eauto. cbn [negb].
  rewrite Hfile. cbv beta iota.
  unfold header_of in Hhead. apply Nat.ltb_ge in Hhead. rewrite Hhead.
  unfold dims_of, header_of in Hdims.
  destruct (Py.int (default "" (_ !! 0%nat))) as [nx'|]; [|done].
  destruct (Py.int (default "" (_ !! 1%nat))) as [ny'|]; [|done].
  destruct (Py.int (default "" (_ !! 2%nat))) as [nz'|]; [|done].
  simpl in Hdims. injection Hdims as -> -> ->.
  rewrite (zeros_allocatable nx ny nz) by done.
  fold (zero_grid nx ny nz).
  by rewrite (scan_lines_parse _ _ _ _ _ Hrecs Hstore).
Qed.

Lemma scan_chunks_next cfg final_step g ranks chunks w g' :
  Forall2 (λ rank c, readable_chunk w (dat_name cfg (final_step + rank)) c)
          ranks chunks →
  store_all g (concat chunks.*2) = Some g' →
  scan_chunks cfg final_step (Some g) ranks w = (Ok (Continue (Some g')), w).
Proof.
  intros H. revert g. induction H as [|rank c ranks chunks Hc _ IH]; intros g.
  { simpl. by intros [= <-]. }
  rewrite fmap_cons. simpl concat.
  intros (g1 & H1 & H2)%store_all_app_Some.
  simpl. unfold mbind, M_bind.
  rewrite (scan_chunk_next _ _ _ _ _ _ _ Hc H1). by apply IH.
Qed.

(** ** Extraction: writing the restart file *)

Lemma with_file_id p c w : files w !! (cwd w ++ p) = Some c → with_file p c w = w.
Proof.
  intros H. unfold with_file, set_files. rewrite insert_id by done.
  by destruct w.
Qed.

Lemma with_file_twice p c1 c2 w :
  with_file p c2 (with_file p c1 w) = with_file p c2 w.
Proof. unfold with_file, set_files. simpl. by rewrite insert_insert_eq. Qed.

Lemma with_file_lookup p c w :
  files (with_file p c w) !! (cwd (with_file p c w) ++ p) = Some c.
Proof. unfold with_file. simpl. apply lookup_insert_eq. Qed.

Lemma fwrite_with_file p s w c :
  files w !! (cwd w ++ p) = Some c →
  fwrite p s w = (Ok tt, with_file p (c +:+ s) w).
Proof. intros H. unfold fwrite, modify, with_file. by rewrite H. Qed.

Lemma writelines_cons l ls : Py.writelines (l :: ls) = l +:+ Py.writelines ls.
Proof. reflexivity. Qed.

Lemma writelines_app ls1 ls2 :
  Py.writelines (ls1 ++ ls2) = Py.writelines ls1 +:+ Py.writelines ls2.
Proof.
  induction ls1 as [|l ls1 IH]; [done|].
  by rewrite <- app_comm_cons, !writelines_cons, IH, append_assoc.
Qed.

Lemma writelines_bind {A} (f : A → list string) (l : list A) :
  Py.writelines (l ≫= f) = Py.writelines ((λ x, Py.writelines (f x)) <$> l).
Proof.
  induction l as [|x l IH]; [done|].
  cbn [mbind list_bind fmap list_fmap].
  by rewrite writelines_app, writelines_cons, IH.
Qed.

(** A loop whose every iteration appends to the file at [p] appends the
    concatenation. *)
Lemma for_appends {A} (l : list A) (body : A → M unit) p (f : A → string) :
  (∀ x, x ∈ l → ∀ w c, files w !! (cwd w ++ p) = Some c →
        body x w = (Ok tt, with_file p (c +:+ f x) w)) →
  ∀ w c, files w !! (cwd w ++ p) = Some c →
    for_ l body w = (Ok tt, with_file p (c +:+ Py.writelines (f <$> l)) w).
Proof.
  induction l as [|x l IH]; intros Hbody w c Hc.
  { simpl. change (Py.writelines []) with "".
    by rewrite append_nil_r, with_file_id. }
  cbn [for_]. unfold mbind, M_bind.
  rewrite (Hbody x (list_elem_of_here _ _) w c Hc).
  rewrite (IH (λ y Hy, Hbody y (list_elem_of_further _ _ _ Hy)) _ (c +:+ f x)).
  - by rewrite with_file_twice, fmap_cons, writelines_cons, append_assoc.
  - apply with_file_lookup.
Qed.

Lemma write_point_appends g i j k w c :
  grid_wf g →
  (0 <= i < nx g)%Z → (0 <= j < ny g)%Z → (0 <= k < nz g)%Z →
  files w !! (cwd w ++ ["pxyz.in"]) = Some c →
  write_point g i j k w
  = (Ok tt, with_file ["pxyz.in"]
              (c +:+ restart_line (record_at g ((i + 1)%Z, (j + 1)%Z, (k + 1)%Z))) w).
Proof.
  intros (_ & _ & _ & Hx & Hy & Hz) Hi Hj Hk Hc.
  unfold write_point, Np.get. unfold_M.
  rewrite (position_in_range _ _ _ _ _ _ _ Hx) by lia.
  rewrite (position_in_range _ _ _ _ _ _ _ Hy) by lia.
  rewrite (position_in_range _ _ _ _ _ _ _ Hz) by lia.
  simpl. rewrite Hc. unfold with_file, record_at, grid_at, pos_of, restart_line.
  by rewrite !Z.add_simpl_r.
Qed.

Lemma writelines_fmap_bind {A B} (h : B → string) (f : A → list B) l :
  Py.writelines (h <$> (l ≫= f))
  = Py.writelines ((λ x, Py.writelines (h <$> f x)) <$> l).
Proof.
  induction l as [|x l IH]; [done|].
  cbn [mbind list_bind fmap list_fmap].
  rewrite writelines_cons, <- IH. cbn [mbind list_bind fmap list_fmap].
  by rewrite fmap_app, writelines_app.
Qed.

(** The records of the grid in the order of the restart file. *)
Lemma write_restart_records g w :
  grid_wf g →
  write_restart (Some g) w
  = (Ok tt,
     with_file ["pxyz.in"]
       (restart_header (nx g) (ny g) (nz g) +:+
        Py.writelines (restart_line <$>
                       (record_at g <$> box_list (nx g) (ny g) (nz g)))) w).
Proof.
  intros Hwf. unfold write_restart.
  unfold mbind at 1, M_bind. unfold write_file, modify.
  fold (with_file ["pxyz.in"] "" w).
  unfold mbind, M_bind.
  rewrite (fwrite_with_file _ _ _ "") by apply with_file_lookup.
  rewrite with_file_twice, append_nil_l. fold (restart_header (nx g) (ny g) (nz g)).
  set (h := restart_line ∘ record_at g).
  assert (Hh : ∀ ts, restart_line <$> (record_at g <$> ts) = h <$> ts)
    by (intros; by rewrite <- list_fmap_compose).
  rewrite Hh. unfold box_list. rewrite writelines_fmap_bind.
  erewrite (for_appends (Py.range (nx g)) _ ["pxyz.in"]);
    [by rewrite with_file_twice| |apply with_file_lookup].
  intros i Hi%elem_of_range w' c' Hc'. cbv beta.
  rewrite writelines_fmap_bind.
  erewrite (for_appends (Py.range (ny g)) _ ["pxyz.in"]); [done| |done].
  intros j Hj%elem_of_range w'' c'' Hc''. cbv beta.
  rewrite writelines_fmap_bind.
  erewrite (for_appends (Py.range (nz g)) _ ["pxyz.in"]); [done| |done].
  intros k Hk%elem_of_range w3 c3 Hc3. cbv beta.
  rewrite (write_point_appends g i j k w3 c3) by done.
  cbn [fmap list_fmap]. change (Py.writelines [?x]) with (x +:+ "").
  by rewrite append_nil_r.
Qed.

(** ** The order of the restart file *)

Lemma sorted_seq a n : StronglySorted lt (seq a n).
Proof.
  revert a. induction n as [|n IH]; intros a; simpl; constructor; [apply IH|].
  apply Forall_seq. lia.
Qed.

Lemma sorted_range n : StronglySorted Z.lt (Py.range n).
Proof.
  unfold Py.range, seqZ.
  eapply StronglySorted_fmap; [|apply sorted_seq]. intros x y Hxy. simpl. lia.
Qed.

Lemma sorted_bind {A B} (RA : relation A) (RB : relation B)
    (f : A → list B) (l : list A) :
  StronglySorted RA l →
  (∀ x, x ∈ l → StronglySorted RB (f x)) →
  (∀ x y b c, RA x y → x ∈ l → y ∈ l → b ∈ f x → c ∈ f y → RB b c) →
  StronglySorted RB (l ≫= f).
Proof.
  induction 1 as [|x l Hl IH Hx]; intros Hf Hcross; csimpl; [constructor|].
  apply StronglySorted_app. split_and!.
  - intros b c Hb (y & Hc & Hy)%list_elem_of_bind.
    rewrite Forall_forall in Hx.
    eapply (Hcross x y); [by apply Hx|by left|by right|done..].
  - apply Hf. by left.
  - apply IH.
    + intros y Hy. apply Hf. by right.
    + intros y z b c Hyz Hy Hz. apply Hcross; [done|by right..].
Qed.

Lemma elem_of_box_list nx ny nz t :
  t ∈ box_list nx ny nz ↔ in_box nx ny nz t.
Proof.
  destruct t as [[i j] k]. unfold box_list, in_box.
  setoid_rewrite list_elem_of_bind. setoid_rewrite list_elem_of_bind.
  setoid_rewrite list_elem_of_bind.
  setoid_rewrite elem_of_range. setoid_rewrite list_elem_of_singleton.
  split.
  - intros (i0 & (j0 & (k0 & [= -> -> ->] & Hk) & Hj) & Hi). lia.
  - intros (Hi & Hj & Hk). exists (i - 1)%Z. split; [|lia].
    exists (j - 1)%Z. split; [|lia]. exists (k - 1)%Z. split; [|lia].
    f_equal; [f_equal|]; lia.
Qed.

Lemma sorted_box_list nx ny nz : StronglySorted nested_lt (box_list nx ny nz).
Proof.
  unfold box_list.
  apply (sorted_bind Z.lt); [apply sorted_range| |].
  - intros i _. apply (sorted_bind Z.lt); [apply sorted_range| |].
    + intros j _. apply (sorted_bind Z.lt); [apply sorted_range| |].
      * intros k _. repeat constructor.
      * intros k k' b c Hk _ _ ->%list_elem_of_singleton ->%list_elem_of_singleton.
        simpl. lia.
    + intros j j' b c Hj _ _ (k & ->%list_elem_of_singleton & _)%list_elem_of_bind
        (k' & ->%list_elem_of_singleton & _)%list_elem_of_bind.
      simpl. lia.
  - intros i i' b c Hi _ _ (j & (k & ->%list_elem_of_singleton & _)%list_elem_of_bind & _)%list_elem_of_bind
      (j' & (k' & ->%list_elem_of_singleton & _)%list_elem_of_bind & _)%list_elem_of_bind.
    simpl. lia.
Qed.

Lemma nested_lt_irrefl t : ¬ nested_lt t t.
Proof. destruct t as [[i j] k]. simpl. lia. Qed.

Lemma sorted_NoDup (l : list (Z * Z * Z)) : StronglySorted nested_lt l → NoDup l.
Proof.
  induction 1 as [|t l Hl IH Ht]; constructor; [|done].
  intros Hin. rewrite Forall_forall in Ht.
  by apply (nested_lt_irrefl t), Ht.
Qed.

Lemma length_bind_const {A B} (f : A → list B) (l : list A) n :
  (∀ x, length (f x) = n) → length (l ≫= f) = (length l * n)%nat.
Proof.
  intros Hf. induction l as [|x l IH]; csimpl; [done|].
  rewrite length_app, Hf, IH. lia.
Qed.

Lemma length_box_list nx ny nz :
  (0 <= nx)%Z → (0 <= ny)%Z → (0 <= nz)%Z →
  length (box_list nx ny nz) = Z.to_nat (nx * ny * nz).
Proof.
  intros Hx Hy Hz. unfold box_list.
  rewrite (length_bind_const _ _ (Z.to_nat ny * Z.to_nat nz)).
  - unfold Py.range. rewrite length_seqZ. lia.
  - intros i. rewrite (length_bind_const _ _ (Z.to_nat nz)).
    + unfold Py.range. by rewrite length_seqZ.
    + intros j. rewrite (length_bind_const _ _ 1%nat); [|done].
      unfold Py.range. rewrite length_seqZ. lia.
Qed.

Lemma fst_record_at g ts : (record_at g <$> ts).*1 = ts.
Proof. induction ts as [|t ts IH]; [done|]. csimpl. by rewrite IH. Qed.

(** With an exact cover, the records the grid holds for the triples of
    the box are the records read, each once. *)
Lemma record_at_cover g nx ny nz all :
  exact_cover nx ny nz all →
  (∀ r, r ∈ all → grid_at g (pos r) = r.2) →
  record_at g <$> box_list nx ny nz ≡ₚ all.
Proof.
  intros [Hnd Hcover] Hat.
  assert (Hrec : ∀ r, r ∈ all → record_at g r.1 = r).
  { intros r Hr. unfold record_at. fold (pos r). rewrite (Hat r Hr).
    by destruct r. }
  apply NoDup_Permutation.
  - apply (NoDup_fmap_1 fst). rewrite fst_record_at.
    apply sorted_NoDup, sorted_box_list.
  - by apply (NoDup_fmap_1 fst).
  - intros x. rewrite list_elem_of_fmap. split.
    + intros (t & -> & Ht). apply elem_of_box_list, Hcover in Ht.
      apply list_elem_of_fmap in Ht as (r & -> & Hr). by rewrite Hrec.
    + intros Hx. exists x.1. split; [by rewrite Hrec|].
      apply elem_of_box_list, Hcover, list_elem_of_fmap. eauto.
Qed.

(** C1: with a complete set of chunk files whose data records cover
    the box of the first header exactly, dimensions of which NumPy
    makes an array, and no directory in the place of the restart file,
    extraction returns [True], and the restart file is the line
    [nx ny nz] followed by one data line per record read, [nx*ny*nz] of
    them, in nested order of their index triples, each triple of the
    box on one line and one only. *)
Theorem extract_final_state_complete
    cfg WORK_DIR final_step w chunks c0 nx ny nz :
  complete_chunks cfg WORK_DIR final_step w chunks →
  chunks !! 0%nat = Some c0 →
  dims_of c0.1 = Some (nx, ny, nz) →
  (0 <= nx)%Z → (0 <= ny)%Z → (0 <= nz)%Z →
  allocatable nx ny nz →
  restart_writable WORK_DIR w →
  exact_cover nx ny nz (concat chunks.*2) →
  ∃ w' recs,
    extract_final_state cfg WORK_DIR final_step w = (Ok true, w') ∧
    restart_file WORK_DIR w'
    = Some (restart_header nx ny nz +:+ Py.writelines (restart_line <$> recs)) ∧
    length recs = Z.to_nat (nx * ny * nz) ∧
    recs ≡ₚ concat chunks.*2 ∧
    StronglySorted nested_lt recs.*1 ∧
    NoDup recs.*1 ∧
    (∀ t, t ∈ recs.*1 ↔ in_box nx ny nz t).
Proof.
  intros [Hlen Hchunks] Hc0 Hdims Hx Hy Hz Hfit _ Hcover.
  destruct chunks as [|c chunks]; [done|]. injection Hc0 as ->.
  set (all := concat (c0 :: chunks).*2) in *.
  (* the state in which the chunk files are scanned *)
  set (w0 := add_log (Msg ("Extracting final state at step " +:+
                           Py.str_of_int final_step +:+ "...")) true w).
  set (w1 := set_cwd (cwd w0 ++ [WORK_DIR]) w0).
  assert (Hread : ∀ (rank : nat) c, (c0 :: chunks) !! rank = Some c →
            ∀ w2, same_files w1 w2 →
                  readable_chunk w2 (dat_name cfg (final_step + Z.of_nat rank)) c).
  { intros rank c Hc w2 [Hf2 Hc2]. destruct (Hchunks rank c Hc) as (Hf & Hh & Hr).
    split; [|done]. unfold chunk_file in Hf. rewrite Hf2, Hc2. simpl.
    by rewrite <- app_assoc. }
  (* the grid after the scan *)
  destruct (store_all_in_box (zero_grid nx ny nz) all)
    as (g & Hstore & Hwf & Hnx & Hny & Hnz & Hat & _).
  { unfold grid_wf, zero_grid. simpl. by repeat split. }
  { apply Forall_forall. intros r Hr. apply Hcover, list_elem_of_fmap. eauto. }
  { apply Hcover. }
  simpl in Hnx, Hny, Hnz.
  unfold all in Hstore. rewrite fmap_cons in Hstore. simpl concat in Hstore.
  apply store_all_app_Some in Hstore as (g1 & Hstore0 & Hstore1).
  (* the scan *)
  assert (Hscan : ∃ e b,
    scan_chunks cfg final_step None (Py.range (NUM_CHUNKS cfg)) w1
    = (Ok (Continue (Some g)), add_log e b w1)).
  { rewrite <- Hlen. unfold Py.range. simpl length.
    rewrite seqZ_cons by lia. simpl scan_chunks. unfold mbind, M_bind.
    eexists _, _.
    rewrite (scan_chunk_first cfg final_step 0 w1 c0 nx ny nz g1);
      [|by apply (Hread 0%nat)|done..].
    apply (scan_chunks_next _ _ _ _ chunks); [|done].
    apply Forall2_same_length_lookup. split.
    { rewrite length_seqZ. lia. }
    intros i rank c Hrank Hc. apply lookup_seqZ in Hrank as [-> _].
    replace (Z.succ 0 + Z.of_nat i)%Z with (Z.of_nat (S i)) by lia.
    by apply Hread. }
  destruct Hscan as (e & b & Hscan).
  exists (set_cwd (removelast (cwd w1))
            (add_log (Msg ("Successfully generated pxyz.in with " +:+
                           Py.str_of_int (nx * ny * nz) +:+ " grid points")) true
               (with_file ["pxyz.in"]
                  (restart_header nx ny nz +:+
                   Py.writelines (restart_line <$>
                                  (record_at g <$> box_list nx ny nz)))
                  (add_log (Msg "Writing pxyz.in...") true (add_log e b w1))))),
         (record_at g <$> box_list nx ny nz).
  pose proof (fst_record_at g (box_list nx ny nz)) as Hfst.
  split_and!.
  - unfold extract_final_state, try_finally, try_except. unfold_M.
    fold w0 w1. rewrite Hscan.
    rewrite (write_restart_records g _ Hwf). rewrite Hnx, Hny, Hnz. reflexivity.
  - unfold restart_file, with_file. simpl.
    rewrite removelast_last, <- app_assoc. apply lookup_insert_eq.
  - by rewrite length_fmap, length_box_list.
  - by apply (record_at_cover g nx ny nz).
  - rewrite Hfst. apply sorted_box_list.
  - rewrite Hfst. apply sorted_NoDup, sorted_box_list.
  - intros t. rewrite Hfst. apply elem_of_box_list.
Qed.

Example extraction_world_restart_file :
  ∃ w', extract_final_state two_chunks "run" 5000 extraction_world = (Ok true, w') ∧
        restart_file "run" w'
        = Some ("2 2 1" +:+ LF +:+
                "1 1 1 1.23450e-01 0.00000e+00 -1.50000e-03" +:+ LF +:+
                "1 2 1 5.00000e-01 2.50000e-01 1.00000e+10" +:+ LF +:+
                "2 1 1 -5.00000e-01 2.00000e+00 3.00000e+00" +:+ LF +:+
                "2 2 1 1.00000e+00 1.00000e+00 1.00000e+00" +:+ LF).
Proof. eexists. split; vm_compute; reflexivity. Qed.

Lemma extract_final_state_complete_witness :
  ∃ w' recs,
    extract_final_state two_chunks "run" 5000 extraction_world = (Ok true, w') ∧
    restart_file "run" w'
    = Some (restart_header 2 2 1 +:+ Py.writelines (restart_line <$> recs)) ∧
    length recs = Z.to_nat (2 * 2 * 1) ∧
    recs ≡ₚ concat example_chunks.*2 ∧
    StronglySorted nested_lt recs.*1 ∧
    NoDup recs.*1 ∧
    (∀ t, t ∈ recs.*1 ↔ in_box 2 2 1 t).
Proof.
  apply (extract_final_state_complete two_chunks "run" 5000 extraction_world
           example_chunks (chunk_5000, default [] (records_of chunk_5000))).
  - split; [reflexivity|].
    intros [|[|rank]] c; [intros [= <-]; vm_compute; repeat split; lia..|done].
  - reflexivity.
  - reflexivity.
  - lia.
  - lia.
  - lia.
  - reflexivity.
  - apply (bool_decide_unpack _). vm_compute. exact I.
  - assert (Hbox : (concat example_chunks.*2).*1 = box_list 2 2 1)
      by (vm_compute; reflexivity).
    split; rewrite Hbox.
    + apply sorted_NoDup, sorted_box_list.
    + apply elem_of_box_list.
Defined.

(** Beyond the dimensions NumPy takes the arrays are not made: the
    chunk files announce an empty grid, which no record covers exactly,
    and extraction returns [False] with the files as they were. *)
Example extract_final_state_too_big :
  ∃ w',
    extract_final_state two_chunks "run" 5000 too_big_world = (Ok false, w') ∧
    dims_of chunk_too_big = Some (100000000000000000000, 0, 1)%Z ∧
    records_of chunk_too_big = Some [] ∧
    exact_cover 100000000000000000000 0 1 [] ∧
    ¬ allocatable 100000000000000000000 0 1 ∧
    logged too_big_world w'
    = [Msg "Extracting final state at step 5000...";
       Msg "Grid dimensions: nx=100000000000000000000, ny=0, nz=1";
       MsgExn "ERROR during data extraction: " ValueError] ∧
    files w' = files too_big_world.
Proof.
  eexists. split_and!; [vm_compute; reflexivity..| | | |].
  - split; [constructor|]. intros [[i j] k]. split; [by intros ?%elem_of_nil|].
    unfold in_box. lia.
  - unfold allocatable. lia.
  - vm_compute. reflexivity.
  - vm_compute. reflexivity.
Qed.

(** ** Sequencing *)

Lemma bind_Ok {A B} (m : M A) (f : A → M B) w b w' :
  (m ≫= f) w = (Ok b, w') →
  ∃ a w1, m w = (Ok a, w1) ∧ f a w1 = (Ok b, w').
Proof.
  unfold mbind, M_bind. destruct (m w) as [[a|e|] w1]; [eauto|done..].
Qed.

Lemma bind_run {A B} (m : M A) (f : A → M B) w a w1 :
  m w = (Ok a, w1) → (m ≫= f) w = f a w1.
Proof. unfold mbind, M_bind. by intros ->. Qed.

(** ** Computations that cannot block *)

Lemma nonblocking_ret {A} (a : A) : nonblocking (mret a).
Proof. by intros w. Qed.

Lemma nonblocking_throw {A} (e : exn) : nonblocking (mthrow (A := A) e).
Proof. by intros w. Qed.

Lemma nonblocking_gets {A} (f : world → A) : nonblocking (gets f).
Proof. by intros w. Qed.

Lemma nonblocking_modify f : nonblocking (modify f).
Proof. by intros w. Qed.

Lemma nonblocking_of_option {A} e (o : option A) : nonblocking (of_option e o).
Proof. by destruct o. Qed.

Lemma nonblocking_bind {A B} (m : M A) (f : A → M B) :
  nonblocking m → (∀ a, nonblocking (f a)) → nonblocking (m ≫= f).
Proof.
  intros Hm Hf w. specialize (Hm w). unfold mbind, M_bind.
  destruct (m w) as [[a|e|] w']; [apply Hf|done..].
Qed.

Lemma nonblocking_try_except {A} (m : M A) caught handler :
  nonblocking m → (∀ e, nonblocking (handler e)) →
  nonblocking (try_except m caught handler).
Proof.
  intros Hm Hh w. specialize (Hm w). unfold try_except.
  destruct (m w) as [[a|e|] w']; [done| |done].
  destruct (caught e); [apply Hh|done].
Qed.

Lemma nonblocking_try_finally {A} (m : M A) cleanup :
  nonblocking m → nonblocking cleanup → nonblocking (try_finally m cleanup).
Proof.
  intros Hm Hc w. specialize (Hm w). unfold try_finally.
  destruct (m w) as [[a|e|] w']; [| |done].
  - apply (nonblocking_bind cleanup); [done|]. intros; apply nonblocking_ret.
  - apply (nonblocking_bind cleanup); [done|]. intros; apply nonblocking_throw.
Qed.

Lemma nonblocking_for {A} (l : list A) body :
  (∀ x, nonblocking (body x)) → nonblocking (for_ l body).
Proof.
  intros Hb. induction l as [|x l IH]; [apply nonblocking_ret|].
  apply nonblocking_bind; [apply Hb|]. intros _. apply IH.
Qed.

Create HintDb nonblocking discriminated.

Ltac solve_nonblocking :=
  lazymatch goal with
  | |- nonblocking (_ ≫= _) =>
      apply nonblocking_bind; [solve_nonblocking|intros; solve_nonblocking]
  | |- nonblocking (mret _) => apply nonblocking_ret
  | |- nonblocking (mthrow _) => apply nonblocking_throw
  | |- nonblocking (gets _) => apply nonblocking_gets
  | |- nonblocking (modify _) => apply nonblocking_modify
  | |- nonblocking (of_option _ _) => apply nonblocking_of_option
  | |- nonblocking (for_ _ _) => apply nonblocking_for; intros; solve_nonblocking
  | |- nonblocking (try_except _ _ _) =>
      apply nonblocking_try_except; [solve_nonblocking|intros; solve_nonblocking]
  | |- nonblocking (try_finally _ _) =>
      apply nonblocking_try_finally; solve_nonblocking
  | |- nonblocking (match ?x with _ => _ end) => destruct x; solve_nonblocking
  | |- nonblocking (let '_ := ?x in _) => destruct x; solve_nonblocking
  | |- _ => solve [eauto with nonblocking]
  end.

Ltac unfold_ops :=
  unfold read_input_file, write_input_file, makedirs, copy2,
    log_message, log_entry_to, isfile, read_file, write_file, fwrite,
    chdir, chdir_up, getitem, setitem.

Lemma modify_lines_nonblocking lines items : nonblocking (modify_lines lines items).
Proof.
  revert lines. induction items as [|[key new_content] items IH]; intros lines;
    simpl; [apply nonblocking_ret|].
  unfold_ops. solve_nonblocking.
Qed.
#[global] Hint Resolve modify_lines_nonblocking : nonblocking.

Lemma modify_input_params_nonblocking cfg WORK_DIR params :
  nonblocking (modify_input_params cfg WORK_DIR params).
Proof. unfold modify_input_params. unfold_ops. solve_nonblocking. Qed.

Lemma scan_lines_nonblocking g lines : nonblocking (scan_lines g lines).
Proof.
  revert g. induction lines as [|line lines IH]; intros g; simpl;
    [apply nonblocking_ret|].
  unfold scan_line. solve_nonblocking; apply IH.
Qed.
#[global] Hint Resolve scan_lines_nonblocking : nonblocking.

Lemma scan_chunks_nonblocking cfg final_step g chunks :
  nonblocking (scan_chunks cfg final_step g chunks).
Proof.
  revert g. induction chunks as [|chunk chunks IH]; intros g; simpl;
    [apply nonblocking_ret|].
  unfold scan_chunk. unfold_ops. solve_nonblocking; apply IH.
Qed.
#[global] Hint Resolve scan_chunks_nonblocking : nonblocking.

Lemma extract_final_state_nonblocking cfg WORK_DIR final_step :
  nonblocking (extract_final_state cfg WORK_DIR final_step).
Proof.
  unfold extract_final_state, write_restart, write_point. unfold_ops.
  solve_nonblocking.
Qed.

Lemma submit_job_nonblocking cfg WORK_DIR sbatch_run outside :
  nonblocking (submit_job cfg WORK_DIR sbatch_run outside).
Proof. unfold submit_job, interact. unfold_ops. solve_nonblocking. Qed.

Lemma backup_files_nonblocking cfg WORK_DIR step_num step_name :
  nonblocking (backup_files cfg WORK_DIR step_num step_name).
Proof. unfold backup_files. unfold_ops. solve_nonblocking. Qed.

(** ** What the stages leave alone *)

(** A relation that holds across the elementary state changes of the
    stages holds across the stages themselves. *)
Section Inner.

Context (R : relation world) `{!Inner R}.

Lemma inner_log_entry e b : mark_of e = None → stable R (log_entry_to e b).
Proof. intros H. apply stable_modify. intros w. by apply inner_log. Qed.

Lemma inner_set_files f : stable R (modify (λ w, set_files (f w) w)).
Proof. apply stable_modify. intros w. apply inner_files. Qed.

Lemma inner_add_dirs d : stable R (modify (λ w, set_dirs (dirs w ∪ d w) w)).
Proof. apply stable_modify. intros w. apply inner_dirs. Qed.

Lemma inner_set_cwd `{!InnerCwd R} c : stable R (modify (λ w, set_cwd (c w) w)).
Proof. apply stable_modify. intros w. apply inner_cwd. Qed.

Lemma inner_interact outside c : is_sbatch c = false → stable R (interact outside c).
Proof.
  intros Hc. apply stable_modify. intros w. unfold after_call.
  etrans; [by apply inner_call|apply inner_files].
Qed.

Lemma inner_interact_any `{!InnerSubmit R} outside c : stable R (interact outside c).
Proof.
  apply stable_modify. intros w. unfold after_call.
  etrans; [apply inner_any_call|apply inner_files].
Qed.

End Inner.

Ltac inner_leaf :=
  first [ apply inner_log_entry; [apply _|reflexivity]
        | apply inner_set_files; apply _
        | apply inner_add_dirs; apply _
        | apply inner_set_cwd; apply _
        | apply inner_interact; [apply _|reflexivity]
        | apply inner_interact_any; apply _ ].

Ltac inner := unfold_ops; stable_with inner_leaf.

Section InnerStages.

Context (R : relation world) `{!Inner R}.

Lemma inner_modify_lines lines items : stable R (modify_lines lines items).
Proof.
  revert lines. induction items as [|[key new_content] items IH]; intros lines;
    simpl; [apply stable_ret, _|].
  inner.
Qed.

Lemma inner_modify_input_params cfg WORK_DIR params :
  stable R (modify_input_params cfg WORK_DIR params).
Proof.
  pose proof inner_modify_lines. unfold modify_input_params. inner.
Qed.

Lemma inner_scan_lines g lines : stable R (scan_lines g lines).
Proof.
  revert g. induction lines as [|line lines IH]; intros g; simpl;
    [apply stable_ret, _|].
  unfold scan_line. inner.
Qed.

Lemma inner_scan_chunks cfg final_step g chunks :
  stable R (scan_chunks cfg final_step g chunks).
Proof.
  pose proof inner_scan_lines.
  revert g. induction chunks as [|chunk chunks IH]; intros g; simpl;
    [apply stable_ret, _|].
  unfold scan_chunk. inner.
Qed.

(** What [extract_final_state] does between the two [os.chdir]. *)
Lemma inner_extract_body cfg final_step (handler : exn → M bool) :
  (∀ e, stable R (handler e)) →
  stable R
    (try_except
       (r ← scan_chunks cfg final_step None (Py.range (NUM_CHUNKS cfg));
        match r with
        | Return b => mret b
        | Continue g =>
            log_message "Writing pxyz.in...";;
            write_restart g;;
            match g with
            | Some g =>
                log_message ("Successfully generated pxyz.in with " +:+
                             Py.str_of_int (nx g * ny g * nz g) +:+ " grid points")
            | None => mthrow TypeError
            end;;
            mret true
        end)
       Exception handler).
Proof.
  intros Hh. pose proof inner_scan_chunks.
  unfold write_restart, write_point. inner.
Qed.

Lemma inner_extract_final_state `{!InnerCwd R} cfg WORK_DIR final_step :
  stable R (extract_final_state cfg WORK_DIR final_step).
Proof.
  pose proof inner_scan_chunks.
  unfold extract_final_state, write_restart, write_point. inner.
Qed.

Lemma inner_backup_files cfg WORK_DIR step_num step_name :
  stable R (backup_files cfg WORK_DIR step_num step_name).
Proof. unfold backup_files. inner. Qed.

Lemma inner_check_job_status squeue_run outside job_id :
  stable R (check_job_status squeue_run outside job_id).
Proof. unfold check_job_status. inner. Qed.

Lemma inner_wait_loop cfg squeue_run outside clock polls job_id start_time :
  stable R (wait_loop cfg squeue_run outside clock polls job_id start_time).
Proof.
  pose proof inner_check_job_status.
  induction polls as [|polls IH]; simpl; [by intros w|].
  unfold sleep. inner.
Qed.

Lemma inner_wait_for_job_completion cfg squeue_run outside clock polls job_id :
  stable R (wait_for_job_completion cfg squeue_run outside clock polls job_id).
Proof.
  pose proof inner_wait_loop. unfold wait_for_job_completion. inner.
Qed.

(** What [submit_job] does between the two [os.chdir]. *)
Lemma inner_submit_body `{!InnerSubmit R} cfg sbatch_run outside
    (handler : exn → M (option string)) :
  (∀ e, stable R (handler e)) →
  stable R
    (try_except
       (outcome ← gets (λ w, sbatch_run (calls w));
        dir ← gets cwd;
        interact outside (Sbatch dir (JOB_SCRIPT cfg));;
        stdout ← match outcome with
                 | SbatchExit0 stdout => mret stdout
                 | SbatchNonZero code => mthrow (CalledProcessError code)
                 | SbatchNotRun e => mthrow e
                 end;
        let output := Py.strip stdout in
        if Py.contains "Submitted batch job" output then
          job_id ← getitem (Py.split output) (-1);
          log_message ("Job submitted successfully. Job ID: " +:+ job_id);;
          mret (Some job_id)
        else
          log_message ("WARNING: Unexpected sbatch output: " +:+ output);;
          mret None)
       is_CalledProcessError handler).
Proof. intros Hh. inner. Qed.

Lemma inner_submit_job `{!InnerCwd R, !InnerSubmit R} cfg WORK_DIR sbatch_run outside :
  stable R (submit_job cfg WORK_DIR sbatch_run outside).
Proof. unfold submit_job. inner. Qed.

End InnerStages.

#[global] Instance silent_preorder : PreOrder silent.
Proof.
  split.
  - intros w. exists []. by rewrite app_nil_r.
  - intros w1 w2 w3 (l1 & H1 & M1) (l2 & H2 & M2). exists (l1 ++ l2).
    split; [by rewrite H2, H1, app_assoc|].
    unfold marks in *. by rewrite omap_app, M1, M2.
Qed.

#[global] Instance dirs_grow_preorder : PreOrder dirs_grow.
Proof. unfold dirs_grow. split; [by intros w|intros w1 w2 w3; set_solver]. Qed.

#[global] Instance no_submission_preorder : PreOrder no_submission.
Proof. unfold no_submission. split; [by intros w|intros w1 w2 w3; congruence]. Qed.

#[global] Instance same_cwd_preorder : PreOrder same_cwd.
Proof. unfold same_cwd. split; [by intros w|intros w1 w2 w3; congruence]. Qed.

Lemma silent_log e b w : mark_of e = None → silent w (add_log e b w).
Proof. intros H. exists [e]. split; [done|]. unfold marks. simpl. by rewrite H. Qed.

Lemma silent_refl w w' : log w' = log w → silent w w'.
Proof. intros H. exists []. by rewrite app_nil_r. Qed.

Lemma submissions_add_call c w :
  submissions (add_call c w)
  = (submissions w + if is_sbatch c then 1 else 0)%nat.
Proof.
  unfold submissions. simpl. rewrite filter_app, length_app. f_equal.
  by destruct c.
Qed.

Lemma no_submission_call c w :
  is_sbatch c = false → no_submission w (add_call c w).
Proof.
  intros H. unfold no_submission. rewrite submissions_add_call, H. lia.
Qed.

#[global] Instance silent_inner : Inner silent.
Proof.
  split; [apply _| |intros; by apply silent_refl..]. intros. by apply silent_log.
Qed.
#[global] Instance silent_inner_cwd : InnerCwd silent.
Proof. intros c w. by apply silent_refl. Qed.
#[global] Instance silent_inner_submit : InnerSubmit silent.
Proof. intros c w. by apply silent_refl. Qed.

#[global] Instance dirs_grow_inner : Inner dirs_grow.
Proof. split; [apply _|unfold dirs_grow; intros; simpl; set_solver..]. Qed.
#[global] Instance dirs_grow_inner_cwd : InnerCwd dirs_grow.
Proof. intros c w. by unfold dirs_grow. Qed.
#[global] Instance dirs_grow_inner_submit : InnerSubmit dirs_grow.
Proof. intros c w. by unfold dirs_grow. Qed.

#[global] Instance no_submission_inner : Inner no_submission.
Proof.
  split; [apply _|try done..]. intros. by apply no_submission_call.
Qed.
#[global] Instance no_submission_inner_cwd : InnerCwd no_submission.
Proof. by intros c w. Qed.

#[global] Instance same_cwd_inner : Inner same_cwd.
Proof. by split; [apply _|..]. Qed.
#[global] Instance same_cwd_inner_submit : InnerSubmit same_cwd.
Proof. by intros c w. Qed.

(** ** Waiting for a job *)

Section Waiting.

Variable cfg : config.
Variable squeue_run : list call → squeue_outcome.
Variable outside : list call → gmap path string → gmap path string.
Variable clock : list call → Q.

Lemma check_job_status_error job_id w e :
  squeue_run (calls w) = SqueueNotRun e →
  check_job_status squeue_run outside job_id w
  = (Ok false,
     add_log (MsgExn "WARNING: Error checking job status: " e) true
       (after_call outside (Squeue job_id) w)).
Proof.
  intros H. unfold check_job_status, try_except, interact. unfold_M.
  by rewrite H.
Qed.

Lemma check_job_status_ran job_id w stdout :
  squeue_run (calls w) = SqueueRan stdout →
  check_job_status squeue_run outside job_id w
  = (Ok (Py.contains job_id stdout), after_call outside (Squeue job_id) w).
Proof.
  intros H. unfold check_job_status, try_except, interact. unfold_M.
  by rewrite H.
Qed.

(** A status query always gives an answer. *)
Lemma check_job_status_answers job_id w :
  ∃ running w', check_job_status squeue_run outside job_id w = (Ok running, w').
Proof.
  destruct (squeue_run (calls w)) as [stdout|e] eqn:H.
  - rewrite (check_job_status_ran _ _ _ H). eauto.
  - rewrite (check_job_status_error _ _ _ H). eauto.
Qed.

(** The one value the loop returns is [True]. *)
Lemma wait_loop_true polls job_id start_time w b w' :
  wait_loop cfg squeue_run outside clock polls job_id start_time w = (Ok b, w') →
  b = true.
Proof.
  revert w. induction polls as [|polls IH]; intros w; simpl; [done|].
  intros (now & w1 & _ & H)%bind_Ok. apply bind_Ok in H as (running & w2 & _ & H).
  destruct running; simpl in H.
  - apply bind_Ok in H as (_ & w3 & _ & H).
    apply bind_Ok in H as (_ & w4 & _ & H). by eapply IH.
  - apply bind_Ok in H as (_ & w3 & _ & H). by injection H as <- _.
Qed.

(** More polls do not change what a finished wait returned. *)
Lemma wait_loop_more_polls polls polls' job_id start_time w b w' :
  wait_loop cfg squeue_run outside clock polls job_id start_time w = (Ok b, w') →
  (polls <= polls')%nat →
  wait_loop cfg squeue_run outside clock polls' job_id start_time w = (Ok b, w').
Proof.
  revert polls' w. induction polls as [|polls IH]; intros polls' w; [done|].
  destruct polls' as [|polls']; [lia|]. intros H Hle. simpl in *.
  unfold mbind, M_bind, gets in *.
  destruct (check_job_status _ _ _ _) as [[[]| |] w2]; simpl in *; try done.
  destruct (sleep _ _) as [[[]| |] w3]; try done.
  destruct (if (_ =? 0)%Z then _ else _) as [[[]| |] w4]; try done.
  apply IH; [done|lia].
Qed.

End Waiting.

(** C4: when the status query raises, [check_job_status] logs a warning
    and returns [False], and the waiting loop, at that poll, declares
    the job complete: it returns [True] without sleeping or asking
    again. The same holds of [wait_for_job_completion] when its first
    query raises. *)
Theorem check_job_status_error_completes
    cfg squeue_run outside clock job_id w e :
  squeue_run (calls w) = SqueueNotRun e →
  (∃ w', check_job_status squeue_run outside job_id w = (Ok false, w') ∧
         log w' = log w ++ [MsgExn "WARNING: Error checking job status: " e]) ∧
  (∀ polls start_time, ∃ w',
     wait_loop cfg squeue_run outside clock (S polls) job_id start_time w
     = (Ok true, w') ∧
     calls w' = calls w ++ [Squeue job_id]) ∧
  (∀ polls, ∃ w',
     wait_for_job_completion cfg squeue_run outside clock (S polls) job_id w
     = (Ok true, w') ∧
     calls w' = calls w ++ [Squeue job_id] ∧
     MsgExn "WARNING: Error checking job status: " e ∈ logged w w').
Proof.
  intros Herr. split_and!.
  - rewrite (check_job_status_error _ _ _ _ _ Herr). eauto.
  - intros polls start_time. simpl. unfold mbind, M_bind, gets.
    rewrite (check_job_status_error _ _ _ _ _ Herr). simpl. eauto.
  - intros polls. unfold wait_for_job_completion. simpl.
    unfold mbind, M_bind, gets, log_message, log_entry_to, modify.
    rewrite (check_job_status_error squeue_run outside job_id _ e) by done.
    simpl. eexists. split_and!; [reflexivity|done|].
    unfold logged. simpl. rewrite <- !app_assoc, drop_app_length.
    apply elem_of_cons. right. apply elem_of_cons. by left.
Qed.

Lemma check_job_status_error_completes_witness :
  (∃ w', check_job_status squeue_missing quiet_outside "4242" example_world
         = (Ok false, w') ∧
         log w' = log example_world
                  ++ [MsgExn "WARNING: Error checking job status: " FileNotFoundError]) ∧
  (∀ polls start_time, ∃ w',
     wait_loop CONFIG squeue_missing quiet_outside minute_clock (S polls)
       "4242" start_time example_world
     = (Ok true, w') ∧
     calls w' = calls example_world ++ [Squeue "4242"]) ∧
  (∀ polls, ∃ w',
     wait_for_job_completion CONFIG squeue_missing quiet_outside minute_clock
       (S polls) "4242" example_world
     = (Ok true, w') ∧
     calls w' = calls example_world ++ [Squeue "4242"] ∧
     MsgExn "WARNING: Error checking job status: " FileNotFoundError
       ∈ logged example_world w').
Proof.
  apply (check_job_status_error_completes CONFIG squeue_missing quiet_outside
           minute_clock "4242" example_world FileNotFoundError).
  reflexivity.
Defined.

(** ** The marks of the log *)

Lemma trace_nil w : trace [] w w.
Proof. exists []. by rewrite app_nil_r. Qed.

Lemma trace_silent w w' : silent w w' ↔ trace [] w w'.
Proof. done. Qed.

Lemma trace_trans s1 s2 w1 w2 w3 :
  trace s1 w1 w2 → trace s2 w2 w3 → trace (s1 ++ s2) w1 w3.
Proof.
  intros (l1 & H1 & M1) (l2 & H2 & M2). exists (l1 ++ l2).
  split; [by rewrite H2, H1, app_assoc|].
  unfold marks in *. by rewrite omap_app, M1, M2.
Qed.

Lemma trace_log e b w :
  trace (option_list (mark_of e)) w (add_log e b w).
Proof.
  exists [e]. split; [done|]. unfold marks. simpl. by destruct (mark_of e).
Qed.

Lemma trace_logged s w w' : trace s w w' → marks (logged w w') = s.
Proof.
  intros (l & H & M). unfold logged. by rewrite H, drop_app_length.
Qed.

(** A stage that logs its announcement and then only unmarked entries. *)
Lemma trace_announced {A} message (m : M A) s w :
  announced message = Some s →
  mark_of (Msg message) = Some (Begins s) →
  stable silent m →
  trace [Begins s] w ((log_message message ;; m) w).2.
Proof.
  intros _ Hmark Hm.
  change ((log_message message ;; m) w) with (m (add_log (Msg message) true w)).
  apply (trace_trans [Begins s] [] _ (add_log (Msg message) true w)).
  - pose proof (trace_log (Msg message) true w) as H. by rewrite Hmark in H.
  - apply Hm.
Qed.

#[global] Instance dirs_grow_inner_log : InnerLog dirs_grow.
Proof. intros e b w. by unfold dirs_grow. Qed.
#[global] Instance no_submission_inner_log : InnerLog no_submission.
Proof. by intros e b w. Qed.
#[global] Instance same_cwd_inner_log : InnerLog same_cwd.
Proof. by intros e b w. Qed.

Lemma inner_any_log_entry R `{!PreOrder R, !InnerLog R} e b :
  stable R (log_entry_to e b).
Proof. apply stable_modify. intros w. apply inner_any_log. Qed.

(** Between [os.chdir(d)] and the [os.chdir('..')] of the [finally]
    clause, a computation that stays where it is and cannot block is
    left in the directory it was entered from. *)
Lemma restores_cwd {A} d (m : M A) w :
  stable same_cwd m → nonblocking m →
  cwd ((chdir d ;; try_finally m chdir_up) w).2 = cwd w.
Proof.
  intros Hs Hn. unfold chdir, chdir_up, try_finally. unfold_M.
  set (w1 := set_cwd (cwd w ++ [d]) w).
  specialize (Hs w1). specialize (Hn w1). unfold same_cwd in Hs.
  destruct (m w1) as [[a|e|] w2]; simpl in *; [| |done];
    rewrite Hs; apply removelast_last.
Qed.

Lemma submit_job_cwd cfg WORK_DIR sbatch_run outside :
  stable same_cwd (submit_job cfg WORK_DIR sbatch_run outside).
Proof.
  intros w. unfold submit_job. apply restores_cwd.
  - apply inner_submit_body; [apply _..|]. intros e. inner.
  - unfold interact. unfold_ops. solve_nonblocking.
Qed.

Lemma extract_final_state_cwd cfg WORK_DIR final_step :
  stable same_cwd (extract_final_state cfg WORK_DIR final_step).
Proof.
  intros w. unfold extract_final_state.
  change ((log_message ?m ;; ?k) w) with (k (add_log (Msg m) true w)).
  apply (restores_cwd _ _ (add_log _ true w)).
  - apply inner_extract_body; [apply _|]. intros e. inner.
  - unfold write_restart, write_point. unfold_ops. solve_nonblocking.
Qed.

(** A submission is one call of [sbatch], whatever comes of it. *)
Lemma submit_job_submissions cfg WORK_DIR sbatch_run outside w :
  submissions (submit_job cfg WORK_DIR sbatch_run outside w).2
  = S (submissions w).
Proof.
  unfold submit_job, try_finally, try_except, interact, getitem. unfold_M.
  destruct (sbatch_run _) as [stdout|code|e]; simpl.
  - destruct (Py.contains _ _); simpl.
    + destruct (Py.index _ _) as [n|]; simpl.
      * destruct (_ !! n); simpl;
          unfold submissions; simpl; rewrite filter_app, length_app; simpl; lia.
      * unfold submissions; simpl; rewrite filter_app, length_app; simpl; lia.
    + unfold submissions; simpl; rewrite filter_app, length_app; simpl; lia.
  - unfold submissions; simpl; rewrite filter_app, length_app; simpl; lia.
  - destruct (is_CalledProcessError e); simpl;
      unfold submissions; simpl; rewrite filter_app, length_app; simpl; lia.
Qed.

#[global] Hint Resolve submit_job_cwd extract_final_state_cwd : stable.

Ltac stages_leaf :=
  first [ inner_leaf
        | apply inner_any_log_entry; apply _
        | apply inner_modify_input_params; apply _
        | apply inner_wait_for_job_completion; apply _
        | apply inner_extract_final_state; apply _
        | apply inner_backup_files; apply _
        | apply inner_submit_job; apply _ ].

Ltac stages := unfold_ops; stable_with stages_leaf.

Section Orchestrator.

Variable cfg : config.
Variable WORK_DIR : string.
Variable sbatch_run : list call → sbatch_outcome.
Variable squeue_run : list call → squeue_outcome.
Variable outside : list call → gmap path string → gmap path string.
Variable clock : list call → Q.
Variable polls : nat.
Variable total : nat.

Local Abbreviation edit := (edit_stage cfg WORK_DIR total).
Local Abbreviation submit := (submit_stage cfg WORK_DIR sbatch_run outside).
Local Abbreviation wait := (wait_stage cfg squeue_run outside clock polls).
Local Abbreviation extract := (extract_stage cfg WORK_DIR).
Local Abbreviation backup := (backup_stage cfg WORK_DIR).
Local Abbreviation body :=
  (run_step cfg WORK_DIR sbatch_run squeue_run outside clock polls total).
Local Abbreviation loop :=
  (run_steps cfg WORK_DIR sbatch_run squeue_run outside clock polls total).

(** The body of the loop, stage by stage. *)
Lemma run_step_stages step_idx step_config w :
  body step_idx step_config w
  = match edit step_idx step_config w with
    | (Ok _, w1) =>
        match submit w1 with
        | (Ok None, w2) =>
            (Ok (Return false), add_log (Msg (stop_message Submit)) true w2)
        | (Ok (Some job_id), w2) =>
            match wait job_id w2 with
            | (Ok false, w3) =>
                (Ok (Return false), add_log (Msg (stop_message Wait)) true w3)
            | (Ok true, w3) =>
                match extract step_config w3 with
                | (Ok false, w4) =>
                    (Ok (Return false),
                     add_log (Msg (stop_message Extract)) true w4)
                | (Ok true, w4) =>
                    match backup step_idx step_config w4 with
                    | (Ok _, w5) => (Ok (Continue tt), w5)
                    | (Raise e, w5) => (Raise e, w5)
                    | (Blocked, w5) => (Blocked, w5)
                    end
                | (Raise e, w4) => (Raise e, w4)
                | (Blocked, w4) => (Blocked, w4)
                end
            | (Raise e, w3) => (Raise e, w3)
            | (Blocked, w3) => (Blocked, w3)
            end
        | (Raise e, w2) => (Raise e, w2)
        | (Blocked, w2) => (Blocked, w2)
        end
    | (Raise e, w1) => (Raise e, w1)
    | (Blocked, w1) => (Blocked, w1)
    end.
Proof.
  unfold run_step, edit_stage, submit_stage, wait_stage, extract_stage,
    backup_stage.
  unfold log_message, log_entry_to. unfold mbind, M_bind, modify. simpl.
  destruct (modify_input_params _ _ _ _) as [[[]|e|] w1]; [|done..].
  destruct (submit_job _ _ _ _ _) as [[[job_id|]|e|] w2]; [|done..].
  destruct (wait_for_job_completion _ _ _ _ _ _ _) as [[[]|e|] w3]; simpl;
    [|done..].
  destruct (extract_final_state _ _ _ _) as [[[]|e|] w4]; simpl; [|done..].
  destruct (backup_files _ _ _ _ _) as [[[]|e|] w5]; done.
Qed.

(** *** What each stage logs *)

Lemma edit_trace step_idx step_config w :
  trace [Begins Edit] w (edit step_idx step_config w).2.
Proof.
  unfold edit_stage.
  do 4 change ((log_message ?m ;; ?k) ?w) with (k (add_log (Msg m) true w)).
  eapply (trace_trans [] [Begins Edit]); [|apply trace_announced; [done..|]].
  - apply trace_silent.
    do 3 (etrans; [|by apply silent_log]). by apply silent_log.
  - apply inner_modify_input_params, _.
Qed.

Lemma submit_trace w : trace [Begins Submit] w (submit w).2.
Proof.
  apply trace_announced; [done..|]. apply inner_submit_job; apply _.
Qed.

Lemma wait_trace job_id w : trace [Begins Wait] w (wait job_id w).2.
Proof.
  apply trace_announced; [done..|]. apply inner_wait_for_job_completion, _.
Qed.

Lemma extract_trace step_config w :
  trace [Begins Extract] w (extract step_config w).2.
Proof.
  apply trace_announced; [done..|]. apply inner_extract_final_state; apply _.
Qed.

Lemma backup_trace step_idx step_config w :
  trace [Begins Backup] w (backup step_idx step_config w).2.
Proof.
  apply trace_announced; [done..|]. stages.
Qed.

(** *** What each stage leaves alone *)

Section AnyLog.

Context (R : relation world) `{!Inner R, !InnerLog R}.

Lemma edit_stable step_idx step_config : stable R (edit step_idx step_config).
Proof. unfold edit_stage. stages. Qed.

Lemma wait_stable job_id : stable R (wait job_id).
Proof. unfold wait_stage. stages. Qed.

Lemma backup_stable step_idx step_config :
  stable R (backup step_idx step_config).
Proof. unfold backup_stage. stages. Qed.

Lemma extract_stable :
  (∀ final_step, stable R (extract_final_state cfg WORK_DIR final_step)) →
  ∀ step_config, stable R (extract step_config).
Proof. intros H step_config. unfold extract_stage. stages. Qed.

Lemma submit_stable :
  stable R (submit_job cfg WORK_DIR sbatch_run outside) → stable R submit.
Proof. intros H. unfold submit_stage. stages. Qed.

End AnyLog.

(** A completed backup stage has made the backup directory. *)
Lemma backup_makes_dir step_idx step_config w w' :
  backup step_idx step_config w = (Ok tt, w') →
  cwd w ++ backup_dir WORK_DIR step_idx ∈ dirs w'.
Proof.
  unfold backup_stage. intros H.
  apply bind_Ok in H as ([] & w0 & H0 & H).
  unfold log_message, log_entry_to, modify in H0. simplify_eq.
  apply bind_Ok in H as ([] & w4 & H & Hlast).
  unfold log_message, log_entry_to, modify in Hlast. simplify_eq.
  unfold backup_files in H. apply bind_Ok in H as ([] & w1 & Hmk & Hrest).
  assert (Hin : cwd w ++ backup_dir WORK_DIR step_idx ∈ dirs w1).
  { revert Hmk. unfold makedirs, isfile. unfold_M.
    destruct (bool_decide _); [done|]. intros [= <-]. simpl.
    unfold backup_dir. set_solver. }
  match type of Hrest with
  | ?m w1 = _ => assert (Hgrow : stable dirs_grow m) by stages
  end.
  specialize (Hgrow w1). rewrite Hrest in Hgrow. simpl. by apply Hgrow.
Qed.

(** *** The body of the loop *)

Lemma run_step_dirs step_idx step_config :
  stable dirs_grow (body step_idx step_config).
Proof. unfold run_step. stages. Qed.

Lemma run_step_cwd step_idx step_config :
  stable same_cwd (body step_idx step_config).
Proof. unfold run_step. stages. Qed.

(** A failing stage makes the body return [False], with the message of
    that stage as the last thing done. *)
Lemma stage_fails_return step_idx step_config s w wf :
  stage_fails cfg WORK_DIR sbatch_run squeue_run outside clock polls total
    step_idx step_config s w wf →
  body step_idx step_config w
  = (Ok (Return false), add_log (Msg (stop_message s)) true wf).
Proof.
  intros H. rewrite run_step_stages.
  destruct H as [w w1 wf H1 H2|w w1 job_id w2 wf H1 H2 H3
                |w w1 job_id w2 w3 wf H1 H2 H3 H4].
  - by rewrite H1, H2.
  - by rewrite H1, H2, H3.
  - by rewrite H1, H2, H3, H4.
Qed.

(** The waiting stage does not report failure. *)
Lemma wait_stage_true job_id w b w' : wait job_id w = (Ok b, w') → b = true.
Proof.
  unfold wait_stage, wait_for_job_completion.
  intros (_ & w1 & _ & H)%bind_Ok. apply bind_Ok in H as (_ & w2 & _ & H).
  apply bind_Ok in H as (start_time & w3 & _ & H).
  by eapply wait_loop_true.
Qed.

Lemma stage_fails_not_wait step_idx step_config w wf :
  ¬ stage_fails cfg WORK_DIR sbatch_run squeue_run outside clock polls total
      step_idx step_config Wait w wf.
Proof.
  inversion 1 as [|? ? ? ? ? _ _ H3|]; subst.
  by apply wait_stage_true in H3.
Qed.

Lemma trace_to {A} s (m : M A) w r w' :
  trace s w (m w).2 → m w = (r, w') → trace s w w'.
Proof. intros H E. by rewrite E in H. Qed.

Lemma no_submission_to {A} (m : M A) w r w' :
  stable no_submission m → m w = (r, w') → submissions w' = submissions w.
Proof. intros H E. specialize (H w). by rewrite E in H. Qed.

(** What a body that returns has done: it has submitted one job; and
    either it has gone through the five stages and made the backup
    directory of the step, or a stage has failed and the body has
    stopped there. *)
Lemma run_step_returns step_idx step_config w r w' :
  body step_idx step_config w = (Ok r, w') →
  submissions w' = S (submissions w) ∧
  ((r = Continue tt ∧ trace full_step w w' ∧
    cwd w ++ backup_dir WORK_DIR step_idx ∈ dirs w') ∨
   (r = Return false ∧
    ∃ s wf,
      stage_fails cfg WORK_DIR sbatch_run squeue_run outside clock polls total
        step_idx step_config s w wf ∧
      w' = add_log (Msg (stop_message s)) true wf ∧
      trace (stopped_step s) w w')).
Proof.
  rewrite run_step_stages.
  destruct (edit _ _ w) as [[[]|e|] w1] eqn:E1; [|done..].
  pose proof (trace_to _ _ _ _ _ (edit_trace _ _ w) E1) as T1.
  pose proof (no_submission_to _ _ _ _ (edit_stable no_submission _ _) E1) as S1.
  pose proof (run_step_cwd step_idx step_config w) as C.
  pose proof (edit_stable same_cwd step_idx step_config w) as C1.
  rewrite E1 in C1. simpl in C1.
  destruct (submit w1) as [[[job_id|]|e|] w2] eqn:E2; [| |done..].
  2:{ intros [= <- <-].
      pose proof (trace_to _ _ _ _ _ (submit_trace w1) E2) as T2.
      assert (S2 : submissions w2 = S (submissions w1)).
      { pose proof (submit_job_submissions cfg WORK_DIR sbatch_run outside
                      (add_log (Msg (LF +:+ "[2/5] Submitting job to compute nodes..."))
                         true w1)) as H.
        unfold submit_stage in E2.
        change ((log_message ?m ;; ?k) w1) with (k (add_log (Msg m) true w1)) in E2.
        by rewrite E2 in H. }
      split; [simpl; unfold submissions in *; simpl; lia|].
      right. split; [done|]. exists Submit, w2. split_and!; [by econstructor|done|].
      apply (trace_trans [Begins Edit] [Begins Submit; Stops Submit] _ w1); [done|].
      apply (trace_trans [Begins Submit] [Stops Submit] _ w2); [done|].
      apply (trace_log (Msg (stop_message Submit)) true). }
  pose proof (trace_to _ _ _ _ _ (submit_trace w1) E2) as T2.
  assert (S2 : submissions w2 = S (submissions w1)).
  { pose proof (submit_job_submissions cfg WORK_DIR sbatch_run outside
                  (add_log (Msg (LF +:+ "[2/5] Submitting job to compute nodes..."))
                     true w1)) as H.
    unfold submit_stage in E2.
    change ((log_message ?m ;; ?k) w1) with (k (add_log (Msg m) true w1)) in E2.
    by rewrite E2 in H. }
  destruct (wait job_id w2) as [[b|e|] w3] eqn:E3; [|done..].
  pose proof (wait_stage_true _ _ _ _ E3) as ->.
  pose proof (trace_to _ _ _ _ _ (wait_trace job_id w2) E3) as T3.
  pose proof (no_submission_to _ _ _ _ (wait_stable no_submission _) E3) as S3.
  destruct (extract step_config w3) as [[[]|e|] w4] eqn:E4; [| |done..].
  - pose proof (trace_to _ _ _ _ _ (extract_trace step_config w3) E4) as T4.
    assert (S4 : submissions w4 = submissions w3).
    { eapply no_submission_to; [|exact E4].
      apply extract_stable; [apply _..|]. intros. apply inner_extract_final_state; apply _. }
    destruct (backup step_idx step_config w4) as [[[]|e|] w5] eqn:E5; [|done..].
    intros [= <- <-].
    pose proof (trace_to _ _ _ _ _ (backup_trace _ _ w4) E5) as T5.
    pose proof (no_submission_to _ _ _ _ (backup_stable no_submission _ _) E5) as S5.
    split; [lia|]. left. split_and!; [done| |].
    + apply (trace_trans [Begins Edit] _ _ w1); [done|].
      apply (trace_trans [Begins Submit] _ _ w2); [done|].
      apply (trace_trans [Begins Wait] _ _ w3); [done|].
      by apply (trace_trans [Begins Extract] [Begins Backup] _ w4).
    + apply backup_makes_dir in E5.
      assert (Hc : cwd w4 = cwd w).
      { pose proof (submit_stable same_cwd (submit_job_cwd _ _ _ _) w1) as C2.
        pose proof (wait_stable same_cwd job_id w2) as C3.
        pose proof (extract_stable same_cwd (extract_final_state_cwd cfg WORK_DIR)
                      step_config w3) as C4.
        rewrite E2 in C2. rewrite E3 in C3. rewrite E4 in C4.
        unfold same_cwd in *. simpl in *. congruence. }
      by rewrite <- Hc.
  - intros [= <- <-].
    pose proof (trace_to _ _ _ _ _ (extract_trace step_config w3) E4) as T4.
    assert (S4 : submissions w4 = submissions w3).
    { eapply no_submission_to; [|exact E4].
      apply extract_stable; [apply _..|]. intros. apply inner_extract_final_state; apply _. }
    split; [simpl; unfold submissions in *; simpl; lia|].
    right. split; [done|]. exists Extract, w4. split_and!; [by econstructor|done|].
    apply (trace_trans [Begins Edit] _ _ w1); [done|].
    apply (trace_trans [Begins Submit] _ _ w2); [done|].
    apply (trace_trans [Begins Wait] _ _ w3); [done|].
    apply (trace_trans [Begins Extract] [Stops Extract] _ w4); [done|].
    apply (trace_log (Msg (stop_message Extract)) true).
Qed.

(** *** The loop *)

Lemma run_steps_dirs step_idx steps : stable dirs_grow (loop step_idx steps).
Proof.
  revert step_idx. induction steps as [|s steps IH]; intros step_idx; simpl.
  - apply stable_ret, _.
  - apply stable_bind; [apply _|apply run_step_dirs|].
    intros [b|[]]; [apply stable_ret, _|apply IH].
Qed.

Lemma run_steps_cwd step_idx steps : stable same_cwd (loop step_idx steps).
Proof.
  revert step_idx. induction steps as [|s steps IH]; intros step_idx; simpl.
  - apply stable_ret, _.
  - apply stable_bind; [apply _|apply run_step_cwd|].
    intros [b|[]]; [apply stable_ret, _|apply IH].
Qed.

(** Steps that all complete: each has logged its five stages, submitted
    one job, and made its backup directory. *)
Lemma run_steps_completed step_idx done w wk :
  loop step_idx done w = (Ok true, wk) →
  trace (concat (replicate (length done) full_step)) w wk ∧
  submissions wk = (submissions w + length done)%nat ∧
  (∀ i : nat, (i < length done)%nat →
     cwd w ++ backup_dir WORK_DIR (step_idx + Z.of_nat i) ∈ dirs wk) ∧
  ∀ rest, loop step_idx (done ++ rest) w
          = loop (step_idx + Z.of_nat (length done)) rest wk.
Proof.
  revert step_idx w. induction done as [|s done IH]; intros step_idx w; simpl.
  { intros [= <-]. split_and!; [apply trace_nil|lia|lia|].
    intros rest. by rewrite Z.add_0_r. }
  intros (r & w1 & Hs & H)%bind_Ok.
  destruct (run_step_returns _ _ _ _ _ Hs)
    as [Hsub [(-> & T & Hdir)|(-> & s' & wf & _ & _ & _)]]; [|done].
  destruct (IH _ _ H) as (T' & Hsub' & Hdirs & Happ).
  pose proof (run_step_cwd step_idx s w) as C. rewrite Hs in C.
  unfold same_cwd in C. simpl in C.
  split_and!.
  - by apply (trace_trans full_step _ _ w1).
  - lia.
  - intros [|i] Hi.
    + rewrite Z.add_0_r. pose proof (run_steps_dirs (step_idx + 1) done w1) as D.
      rewrite H in D. by apply D.
    + rewrite <- C. replace (step_idx + Z.of_nat (S i))%Z
        with (step_idx + 1 + Z.of_nat i)%Z by lia.
      apply Hdirs. lia.
  - intros rest. rewrite (bind_run _ _ _ _ _ Hs). rewrite Happ.
    f_equal. lia.
Qed.

(** What a step that stops at a failed stage has logged. *)
Lemma stage_fails_trace step_idx step_config s w wf :
  stage_fails cfg WORK_DIR sbatch_run squeue_run outside clock polls total
    step_idx step_config s w wf →
  trace (stopped_step s) w (add_log (Msg (stop_message s)) true wf).
Proof.
  intros H. pose proof (stage_fails_return _ _ _ _ _ H) as Hret.
  destruct (run_step_returns _ _ _ _ _ Hret)
    as [_ [(? & _)|(_ & s' & wf' & H' & Heq & T)]]; [done|].
  assert (s' = s) as ->; [|done].
  assert (Hlast : last (log (add_log (Msg (stop_message s)) true wf))
                  = last (log (add_log (Msg (stop_message s')) true wf')))
    by by rewrite Heq.
  simpl in Hlast. rewrite !last_snoc in Hlast.
  destruct H, H'; try done; by apply stage_fails_not_wait in H'.
Qed.

End Orchestrator.

(** ** Submitting a job *)

Lemma split_aux_space c s :
  Py.isspace c = true → Py.split (String c s) = Py.split s.
Proof.
  intros Hc. unfold Py.split. simpl. destruct (Py.split_aux s) as [w ws].
  by rewrite Hc.
Qed.

Lemma split_aux_word c s :
  Py.isspace c = false → Py.split (String c s) ≠ [].
Proof.
  intros Hc. unfold Py.split. simpl. destruct (Py.split_aux s) as [w ws].
  by rewrite Hc.
Qed.

(** A text in which a word occurs has a token. *)
Lemma split_contains c sub s :
  Py.isspace c = false →
  Py.contains (String c sub) s = true → Py.split s ≠ [].
Proof.
  intros Hc. induction s as [|a s IH]; [done|]. simpl.
  destruct (ascii_dec c a) as [->|Hne].
  - intros _. by apply split_aux_word.
  - simpl. intros H%IH. destruct (Py.isspace a) eqn:Ha.
    + by rewrite split_aux_space.
    + by apply split_aux_word.
Qed.

Lemma getitem_last {A} (l : list A) w :
  l ≠ [] → ∃ x, last l = Some x ∧ getitem l (-1) w = (Ok x, w).
Proof.
  intros Hl. destruct (last l) as [x|] eqn:Hx; [|by apply last_None in Hx].
  exists x. split; [done|]. unfold getitem. unfold_M.
  rewrite index_minus_one by (destruct l; simpl; [done|lia]).
  rewrite last_lookup in Hx.
  replace (length l - 1)%nat with (Nat.pred (length l)) by lia.
  by rewrite Hx.
Qed.

Lemma submit_job_no_marker cfg WORK_DIR sbatch_run outside w stdout :
  sbatch_run (calls w) = SbatchExit0 stdout →
  Py.contains "Submitted batch job" (Py.strip stdout) = false →
  ∃ w', submit_job cfg WORK_DIR sbatch_run outside w = (Ok None, w') ∧
        logged w w' = [Msg ("WARNING: Unexpected sbatch output: " +:+ Py.strip stdout)].
Proof.
  intros Hrun Hc. unfold submit_job, try_finally, try_except, interact. unfold_M.
  simpl. rewrite Hrun, Hc. simpl. eexists. split; [reflexivity|].
  unfold logged. simpl. by rewrite drop_app_length.
Qed.

Lemma submit_job_marker cfg WORK_DIR sbatch_run outside w stdout :
  sbatch_run (calls w) = SbatchExit0 stdout →
  Py.contains "Submitted batch job" (Py.strip stdout) = true →
  ∃ job_id w',
    last (Py.split (Py.strip stdout)) = Some job_id ∧
    submit_job cfg WORK_DIR sbatch_run outside w = (Ok (Some job_id), w').
Proof.
  intros Hrun Hc. unfold submit_job, try_finally, try_except, interact. unfold_M.
  simpl. rewrite Hrun, Hc. cbv beta iota.
  set (w1 := after_call _ _ _).
  destruct (getitem_last (Py.split (Py.strip stdout)) w1) as (job_id & Hlast & Hget).
  { by eapply (split_contains "S"). }
  rewrite Hget. eauto.
Qed.

(** ** The run *)

#[global] Instance no_wait_stop_preorder : PreOrder no_wait_stop.
Proof.
  split.
  - intros w. exists []. rewrite app_nil_r. split; [done|]. apply not_elem_of_nil.
  - intros w1 w2 w3 (l1 & H1 & M1) (l2 & H2 & M2). exists (l1 ++ l2).
    split; [by rewrite H2, H1, app_assoc|].
    unfold marks in *. rewrite omap_app. by intros [?|?]%elem_of_app.
Qed.

Lemma trace_no_wait_stop s w w' :
  trace s w w' → Stops Wait ∉ s → no_wait_stop w w'.
Proof. intros (l & H & <-) Hs. by exists l. Qed.

Lemma run_sequential_steps_started
    cfg WORK_DIR sbatch_run squeue_run outside clock polls steps w :
  run_sequential_steps cfg WORK_DIR sbatch_run squeue_run outside clock polls steps w
  = run_steps cfg WORK_DIR sbatch_run squeue_run outside clock polls
      (length steps) 1 steps (started steps w).
Proof. reflexivity. Qed.

Lemma started_silent steps w : silent w (started steps w).
Proof.
  unfold started. do 3 (etrans; [|by apply silent_log]). by apply silent_log.
Qed.

(** C3: when the steps before step [k] have completed and a stage of
    step [k] reports failure, the run returns [False] in the state the
    failing stage left, with one more log entry, the message that the
    run stops: nothing of the later steps is done. The log shows the
    five stages of each earlier step once, the stages of step [k] up to
    the failing one once, and the stop; [k] jobs were submitted; and
    the backup directories of the steps before [k] are there. *)
Theorem run_sequential_steps_halts
    cfg WORK_DIR sbatch_run squeue_run outside clock polls
    done step_config later s w wk wf :
  let steps := done ++ step_config :: later in
  run_steps cfg WORK_DIR sbatch_run squeue_run outside clock polls
    (length steps) 1 done (started steps w) = (Ok true, wk) →
  stage_fails cfg WORK_DIR sbatch_run squeue_run outside clock polls
    (length steps) (1 + Z.of_nat (length done)) step_config s wk wf →
  ∃ w',
    run_sequential_steps cfg WORK_DIR sbatch_run squeue_run outside clock
      polls steps w = (Ok false, w') ∧
    w' = add_log (Msg (stop_message s)) true wf ∧
    marks (logged w w')
    = concat (replicate (length done) full_step) ++ stopped_step s ∧
    submissions w' = (submissions w + S (length done))%nat ∧
    ∀ i : nat, (1 <= i <= length done)%nat →
      cwd w ++ backup_dir WORK_DIR (Z.of_nat i) ∈ dirs w'.
Proof.
  intros steps Hdone Hfail.
  destruct (run_steps_completed _ _ _ _ _ _ _ _ _ _ _ _ Hdone)
    as (T & Hsub & Hdirs & Happ).
  pose proof (stage_fails_return _ _ _ _ _ _ _ _ _ _ _ _ _ Hfail) as Hret.
  pose proof (stage_fails_trace _ _ _ _ _ _ _ _ _ _ _ _ _ Hfail) as T'.
  destruct (run_step_returns _ _ _ _ _ _ _ _ _ _ _ _ _ Hret) as [Hsub' _].
  exists (add_log (Msg (stop_message s)) true wf). split_and!.
  - rewrite run_sequential_steps_started. fold steps. unfold steps at 2.
    rewrite Happ. simpl. by rewrite (bind_run _ _ _ _ _ Hret).
  - done.
  - apply trace_logged.
    apply (trace_trans [] _ _ (started steps w)); [apply started_silent|].
    by apply (trace_trans _ _ _ wk).
  - rewrite Hsub', Hsub. unfold submissions, started. simpl. lia.
  - intros i Hi.
    pose proof (run_step_dirs cfg WORK_DIR sbatch_run squeue_run outside clock
                  polls (length steps) (1 + Z.of_nat (length done)) step_config wk)
      as D.
    rewrite Hret in D. apply D.
    replace (Z.of_nat i) with (1 + Z.of_nat (i - 1))%Z by lia.
    apply (Hdirs (i - 1)%nat). lia.
Qed.

Lemma run_sequential_steps_halts_witness :
  ∃ w',
    run_sequential_steps two_chunks "run" sbatch_accepts squeue_two_polls
      quiet_outside minute_clock 5 ([step_1] ++ step_2 :: []) run_world
    = (Ok false, w') ∧
    w' = add_log (Msg (stop_message Extract)) true after_extract_2 ∧
    marks (logged run_world w')
    = concat (replicate (length [step_1]) full_step) ++ stopped_step Extract ∧
    submissions w' = (submissions run_world + S (length [step_1]))%nat ∧
    ∀ i : nat, (1 <= i <= length [step_1])%nat →
      cwd run_world ++ backup_dir "run" (Z.of_nat i) ∈ dirs w'.
Proof.
  apply (run_sequential_steps_halts two_chunks "run" sbatch_accepts
           squeue_two_polls quiet_outside minute_clock 5 [step_1] step_2 []
           Extract run_world after_step_1 after_extract_2).
  - vm_compute. reflexivity.
  - apply (extract_fails _ _ _ _ _ _ _ _ _ _ after_step_1 after_edit_2 "4242"
             after_submit_2 after_wait_2 after_extract_2);
      vm_compute; reflexivity.
Defined.

Example run_of_config_steps :
  marks (log (run_sequential_steps two_chunks "run" sbatch_accepts
                squeue_two_polls quiet_outside minute_clock 5 STEPS run_world).2)
  = [Begins Edit; Begins Submit; Begins Wait; Begins Extract; Begins Backup;
     Begins Edit; Begins Submit; Begins Wait; Begins Extract; Stops Extract].
Proof. vm_compute. reflexivity. Qed.

(** C8: when [sbatch] exits with status 0, the submitter returns the
    last token of the output as job identifier if the output contains
    [Submitted batch job]; if it does not, the submitter logs a warning
    and returns [None], and the orchestrator, at the step whose edit
    stage led to that state, fails the submission stage and returns
    [False] there, the later steps left alone. *)
Theorem submit_job_acknowledgment
    cfg WORK_DIR sbatch_run squeue_run outside clock polls total w stdout :
  sbatch_run (calls w) = SbatchExit0 stdout →
  let output := Py.strip stdout in
  (Py.contains "Submitted batch job" output = true →
   ∃ job_id w',
     submit_job cfg WORK_DIR sbatch_run outside w = (Ok (Some job_id), w') ∧
     last (Py.split output) = Some job_id) ∧
  (Py.contains "Submitted batch job" output = false →
   (∃ w',
      submit_job cfg WORK_DIR sbatch_run outside w = (Ok None, w') ∧
      logged w w' = [Msg ("WARNING: Unexpected sbatch output: " +:+ output)]) ∧
   ∀ step_idx step_config later w0,
     edit_stage cfg WORK_DIR total step_idx step_config w0 = (Ok tt, w) →
     ∃ wf w',
       stage_fails cfg WORK_DIR sbatch_run squeue_run outside clock polls total
         step_idx step_config Submit w0 wf ∧
       run_steps cfg WORK_DIR sbatch_run squeue_run outside clock polls total
         step_idx (step_config :: later) w0 = (Ok false, w') ∧
       w' = add_log (Msg "ERROR: Failed to submit job. Stopping.") true wf ∧
       marks (logged w0 w') = [Begins Edit; Begins Submit; Stops Submit]).
Proof.
  intros Hrun output. split.
  - intros Hc.
    destruct (submit_job_marker cfg WORK_DIR sbatch_run outside w stdout Hrun Hc)
      as (job_id & w' & Hlast & Hsub).
    by exists job_id, w'.
  - intros Hc. split.
    { by apply submit_job_no_marker. }
    intros step_idx step_config later w0 Hedit.
    set (w1 := add_log (Msg (LF +:+ "[2/5] Submitting job to compute nodes..."))
                 true w).
    destruct (submit_job_no_marker cfg WORK_DIR sbatch_run outside w1 stdout)
      as (wf & Hsub & _); [done..|].
    assert (Hfail : stage_fails cfg WORK_DIR sbatch_run squeue_run outside clock
                      polls total step_idx step_config Submit w0 wf)
      by (by eapply submit_fails).
    exists wf, (add_log (Msg (stop_message Submit)) true wf). split_and!.
    + done.
    + simpl. by rewrite (bind_run _ _ _ _ _ (stage_fails_return _ _ _ _ _ _ _ _ _ _ _ _ _ Hfail)).
    + done.
    + apply trace_logged. by apply (stage_fails_trace _ _ _ _ _ _ _ _ _ _ _ _ _ Hfail).
Qed.

Lemma submit_job_acknowledgment_witness :
  (∃ job_id w',
     submit_job two_chunks "run" sbatch_accepts quiet_outside after_edit_2
     = (Ok (Some job_id), w') ∧
     last (Py.split (Py.strip ("Submitted batch job 4242" +:+ LF))) = Some job_id) ∧
  (∃ w',
     submit_job two_chunks "run" sbatch_mumbles quiet_outside after_edit_2
     = (Ok None, w') ∧
     logged after_edit_2 w'
     = [Msg ("WARNING: Unexpected sbatch output: " +:+
             Py.strip ("sbatch: job queued" +:+ LF))]) ∧
  (∃ wf w',
     stage_fails two_chunks "run" sbatch_mumbles squeue_two_polls
       quiet_outside minute_clock 5 2 2 step_2 Submit after_step_1 wf ∧
     run_steps two_chunks "run" sbatch_mumbles squeue_two_polls quiet_outside
       minute_clock 5 2 2 (step_2 :: []) after_step_1 = (Ok false, w') ∧
     w' = add_log (Msg "ERROR: Failed to submit job. Stopping.") true wf ∧
     marks (logged after_step_1 w') = [Begins Edit; Begins Submit; Stops Submit]).
Proof.
  split.
  - apply (submit_job_acknowledgment two_chunks "run" sbatch_accepts
             squeue_two_polls quiet_outside minute_clock 5 2 after_edit_2
             ("Submitted batch job 4242" +:+ LF)).
    + reflexivity.
    + vm_compute. reflexivity.
  - pose proof (submit_job_acknowledgment two_chunks "run" sbatch_mumbles
                  squeue_two_polls quiet_outside minute_clock 5 2 after_edit_2
                  ("sbatch: job queued" +:+ LF)) as H.
    cbv zeta in H.
    destruct H as [_ H]; [reflexivity|].
    destruct H as [H1 H2]; [vm_compute; reflexivity|].
    split; [exact H1|].
    apply (H2 2%Z step_2 [] after_step_1).
    vm_compute. reflexivity.
Defined.

Example submit_job_accepted :
  (submit_job two_chunks "run" sbatch_accepts quiet_outside run_world).1
  = Ok (Some "4242").
Proof. vm_compute. reflexivity. Qed.

Ltac not_in_list :=
  repeat (apply not_elem_of_cons; split; [done|]); apply not_elem_of_nil.

(** The run as a whole never logs that it stops for the waiting stage. *)
Lemma run_step_no_wait_stop
    cfg WORK_DIR sbatch_run squeue_run outside clock polls total
    step_idx step_config :
  stable no_wait_stop
    (run_step cfg WORK_DIR sbatch_run squeue_run outside clock polls total
       step_idx step_config).
Proof.
  intros w. rewrite run_step_stages.
  pose proof (edit_trace cfg WORK_DIR total step_idx step_config w) as T1.
  destruct (edit_stage _ _ _ _ _ w) as [r1 w1]. simpl in T1.
  assert (H1 : no_wait_stop w w1) by (eapply trace_no_wait_stop; [done|not_in_list]).
  destruct r1 as [[]|e|]; [|done..].
  pose proof (submit_trace cfg WORK_DIR sbatch_run outside w1) as T2.
  destruct (submit_stage _ _ _ _ w1) as [r2 w2]. simpl in T2.
  assert (H2 : no_wait_stop w w2).
  { etrans; [exact H1|]. eapply trace_no_wait_stop; [done|not_in_list]. }
  destruct r2 as [[job_id|]|e|]; [| |done..].
  2:{ simpl. etrans; [exact H2|].
      eapply trace_no_wait_stop; [apply (trace_log (Msg (stop_message Submit)))|].
      simpl. not_in_list. }
  pose proof (wait_trace cfg squeue_run outside clock polls job_id w2) as T3.
  destruct (wait_stage _ _ _ _ _ _ w2) as [r3 w3] eqn:E3. simpl in T3.
  assert (H3 : no_wait_stop w w3).
  { etrans; [exact H2|]. eapply trace_no_wait_stop; [done|not_in_list]. }
  destruct r3 as [b|e|]; [|done..].
  apply wait_stage_true in E3 as ->.
  pose proof (extract_trace cfg WORK_DIR step_config w3) as T4.
  destruct (extract_stage _ _ _ w3) as [r4 w4]. simpl in T4.
  assert (H4 : no_wait_stop w w4).
  { etrans; [exact H3|]. eapply trace_no_wait_stop; [done|not_in_list]. }
  destruct r4 as [[]|e|]; [| |done..].
  - pose proof (backup_trace cfg WORK_DIR step_idx step_config w4) as T5.
    destruct (backup_stage _ _ _ _ w4) as [r5 w5]. simpl in T5.
    assert (H5 : no_wait_stop w w5).
    { etrans; [exact H4|]. eapply trace_no_wait_stop; [done|not_in_list]. }
    by destruct r5 as [[]|e|].
  - simpl. etrans; [exact H4|].
    eapply trace_no_wait_stop; [apply (trace_log (Msg (stop_message Extract)))|].
    simpl. not_in_list.
Qed.

Lemma run_steps_no_wait_stop
    cfg WORK_DIR sbatch_run squeue_run outside clock polls total step_idx steps :
  stable no_wait_stop
    (run_steps cfg WORK_DIR sbatch_run squeue_run outside clock polls total
       step_idx steps).
Proof.
  revert step_idx. induction steps as [|s steps IH]; intros step_idx; simpl.
  - apply stable_ret, _.
  - apply stable_bind; [apply _|apply run_step_no_wait_stop|].
    intros [b|[]]; [apply stable_ret, _|apply IH].
Qed.

(** C9: whenever [wait_for_job_completion] returns, it returns [True];
    hence no step fails at its waiting stage, and no run logs that it
    stops because the job did not complete. *)
Theorem wait_for_job_completion_true
    cfg WORK_DIR sbatch_run squeue_run outside clock polls job_id w b w' :
  wait_for_job_completion cfg squeue_run outside clock polls job_id w = (Ok b, w') →
  b = true ∧
  (∀ total step_idx step_config w0 wf,
     ¬ stage_fails cfg WORK_DIR sbatch_run squeue_run outside clock polls total
         step_idx step_config Wait w0 wf) ∧
  (∀ steps w0,
     Stops Wait ∉ marks (logged w0
       (run_sequential_steps cfg WORK_DIR sbatch_run squeue_run outside clock
          polls steps w0).2)).
Proof.
  intros H. split_and!.
  - unfold wait_for_job_completion in H.
    apply bind_Ok in H as ([] & w1 & _ & H).
    apply bind_Ok in H as (start_time & w2 & _ & H).
    by eapply wait_loop_true.
  - intros. apply stage_fails_not_wait.
  - intros steps w0. rewrite run_sequential_steps_started.
    assert (Hrun : no_wait_stop w0
              (run_steps cfg WORK_DIR sbatch_run squeue_run outside clock polls
                 (length steps) 1 steps (started steps w0)).2).
    { etrans; [|apply run_steps_no_wait_stop].
      eapply trace_no_wait_stop; [apply trace_silent, started_silent|].
      apply not_elem_of_nil. }
    destruct Hrun as (l & Hl & Hmarks). unfold logged.
    by rewrite Hl, drop_app_length.
Qed.

Lemma wait_for_job_completion_true_witness :
  true = true ∧
  (∀ total step_idx step_config w0 wf,
     ¬ stage_fails two_chunks "run" sbatch_accepts squeue_two_polls quiet_outside
         minute_clock 5 total step_idx step_config Wait w0 wf) ∧
  (∀ steps w0,
     Stops Wait ∉ marks (logged w0
       (run_sequential_steps two_chunks "run" sbatch_accepts squeue_two_polls
          quiet_outside minute_clock 5 steps w0).2)).
Proof.
  apply (wait_for_job_completion_true two_chunks "run" sbatch_accepts
           squeue_two_polls quiet_outside minute_clock 5 "4242" run_world true
           (wait_for_job_completion two_chunks squeue_two_polls quiet_outside
              minute_clock 5 "4242" run_world).2).
  vm_compute. reflexivity.
Defined.

(** ** Decimal digits of a binary64 value *)

Section Digits.

Local Open Scope Z_scope.








End Digits.

(** ** The shape of the ['e'] presentation *)








(** ** What a successful extraction wrote *)

Lemma store_wf g r g' : store g r = Some g' → grid_wf g → grid_wf g'.
Proof.
  destruct r as [t [[px py] pz]]. unfold store, Np.set, grid_wf. simpl.
  destruct (Np.position (pxx g) _); simpl; [|done].
  destruct (Np.position (pyy g) _); simpl; [|done].
  destruct (Np.position (pzz g) _); simpl; [|done].
  by intros [= <-].
Qed.

Lemma scan_line_wf g line w g' w' :
  scan_line g line w = (Ok g', w') → grid_wf g → grid_wf g'.
Proof.
  rewrite scan_line_parse. destruct (parse_line line) as [[r|]|]; [| |done].
  - destruct (store g r) as [g1|] eqn:E; [|done].
    intros [= <- <-]. by apply (store_wf g r).
  - by intros [= <- <-].
Qed.

Lemma scan_lines_wf g lines w g' w' :
  scan_lines g lines w = (Ok g', w') → grid_wf g → grid_wf g'.
Proof.
  revert g w. induction lines as [|line lines IH]; intros g w; simpl.
  { by intros [= <- <-]. }
  intros (g1 & w1 & H1 & H)%bind_Ok Hwf.
  apply (IH _ _ H). by apply (scan_line_wf _ _ _ _ _ H1).
Qed.

Lemma zeros_shape sh a : Np.zeros sh = Some a → Np.shape a = sh.
Proof. destruct sh as [[n0 n1] n2]. by intros [-> _]%zeros_Some. Qed.

Lemma zeros_dims n0 n1 n2 a :
  Np.zeros (n0, n1, n2) = Some a → (0 <= n0)%Z ∧ (0 <= n1)%Z ∧ (0 <= n2)%Z.
Proof. intros (_ & ? & ? & ? & _)%zeros_Some. done. Qed.

Lemma of_option_Ok {A} e (o : option A) w a w' :
  of_option e o w = (Ok a, w') → o = Some a ∧ w' = w.
Proof. destruct o; [|done]. by intros [= <- <-]. Qed.

(** A chunk that is scanned to its end leaves a grid of the announced
    shape. *)
Lemma scan_chunk_wf cfg final_step g chunk w g' w' :
  scan_chunk cfg final_step g chunk w = (Ok (Continue g'), w') →
  grid_ok g → ∃ g1, g' = Some g1 ∧ grid_wf g1.
Proof.
  unfold scan_chunk. intros (present & w1 & _ & H)%bind_Ok Hg.
  destruct (negb present).
  { by apply bind_Ok in H as (? & ? & _ & [=]). }
  apply bind_Ok in H as (content & w2 & _ & H).
  destruct (_ <? 3)%nat.
  { by apply bind_Ok in H as (? & ? & _ & [=]). }
  apply bind_Ok in H as (g0 & w3 & H0 & H).
  apply bind_Ok in H as (g1 & w4 & H1 & [= <- <-]).
  exists g1. split; [done|]. apply (scan_lines_wf _ _ _ _ _ H1).
  destruct g as [g|].
  { by injection H0 as <- <-. }
  apply bind_Ok in H0 as (n0 & ? & _ & H0).
  apply bind_Ok in H0 as (n1 & ? & _ & H0).
  apply bind_Ok in H0 as (n2 & ? & _ & H0).
  apply bind_Ok in H0 as ([] & ? & _ & H0).
  apply bind_Ok in H0 as (px & ? & [Hx _]%of_option_Ok & H0).
  apply bind_Ok in H0 as (py & ? & [Hy _]%of_option_Ok & H0).
  apply bind_Ok in H0 as (pz & ? & [Hz _]%of_option_Ok & [= <- <-]).
  unfold grid_wf. simpl.
  pose proof (zeros_dims _ _ _ _ Hx).
  rewrite (zeros_shape _ _ Hx), (zeros_shape _ _ Hy), (zeros_shape _ _ Hz).
  by destruct_and!.
Qed.

Lemma scan_chunks_wf cfg final_step g chunks w g' w' :
  scan_chunks cfg final_step g chunks w = (Ok (Continue g'), w') →
  grid_ok g → grid_ok g'.
Proof.
  revert g w. induction chunks as [|chunk chunks IH]; intros g w; simpl.
  { by intros [= <- <-]. }
  intros ([b|g1] & w1 & H1 & H)%bind_Ok Hg; [done|].
  apply (IH _ _ H).
  by destruct (scan_chunk_wf _ _ _ _ _ _ _ H1 Hg) as (g2 & -> & ?).
Qed.

(** When extraction returns [True], the restart file holds the header
    line and the records of a grid, in the order of the box. *)
Lemma extract_final_state_written cfg WORK_DIR final_step w w' :
  extract_final_state cfg WORK_DIR final_step w = (Ok true, w') →
  ∃ g, grid_wf g ∧
       restart_file WORK_DIR w'
       = Some (restart_header (nx g) (ny g) (nz g) +:+
               Py.writelines (restart_line <$>
                              (record_at g <$> box_list (nx g) (ny g) (nz g)))).
Proof.
  unfold extract_final_state.
  intros ([] & w0 & _ & H)%bind_Ok.
  apply bind_Ok in H as ([] & w1 & H1 & H).
  injection H1 as <-.
  unfold try_finally, try_except in H.
  set (w1 := set_cwd (cwd w0 ++ [WORK_DIR]) w0) in *.
  unfold mbind at 1, M_bind at 1 in H.
  pose proof (scan_chunks_same_files cfg final_step None
                (Py.range (NUM_CHUNKS cfg)) w1) as Hsame.
  destruct (scan_chunks _ _ _ _ _) as [[[b|g]|e|] w2] eqn:Escan.
  - apply scan_chunks_return in Escan as ->.
    unfold_M. by injection H.
  - apply scan_chunks_wf in Escan; [|done].
    destruct g as [g|].
    + simpl in Escan.
      unfold mbind at 1, M_bind at 1 in H. unfold log_message, log_entry_to, modify in H.
      unfold mbind at 1, M_bind at 1 in H.
      rewrite (write_restart_records g _ Escan) in H.
      unfold_M. injection H as <-.
      exists g. split; [done|].
      destruct Hsame as [_ Hcwd]. simpl in Hcwd.
      unfold restart_file, with_file. simpl.
      rewrite Hcwd. unfold w1. simpl.
      rewrite removelast_last, <- app_assoc. apply lookup_insert_eq.
    + unfold write_restart in H. unfold_M. by injection H.
  - unfold_M. by injection H.
  - done.
Qed.




(* ===================================================================== *)
(** * Further properties of the script *)
(* ===================================================================== *)

(** ** Sequencing, when a computation raises *)



(** ** The parameter editor: failures *)











(** X3: a key that does not read as a number once [line] is taken out of
    it makes the editor raise [ValueError], whatever applicable edits
    come before it, and the files are as they were. *)
Theorem modify_input_params_bad_key
    cfg WORK_DIR w content pre key new_content post :
  files w !! (cwd w ++ [WORK_DIR; INPUT_FILE cfg]) = Some content →
  Forall (applicable (length (Py.readlines content))) pre →
  Py.int (Py.replace "line" "" key) = None →
  ∃ w',
    modify_input_params cfg WORK_DIR (pre ++ (key, new_content) :: post) w
    = (Raise ValueError, w') ∧
    files w' = files w.
Proof.
  intros Hfile Hpre Hkey.
  rewrite (modify_input_params_run _ _ _ _ _ Hfile).
  edestruct (modify_lines_applicable pre ((key, new_content) :: post))
    as (lines' & w' & -> & Hlen & Hfiles & _); [exact Hpre|].
  cbn [modify_lines]. unfold mbind at 1, M_bind. rewrite Hkey. simpl.
  exists w'. split; [reflexivity|]. by rewrite Hfiles.
Qed.

Lemma modify_input_params_bad_key_witness :
  ∃ w',
    modify_input_params CONFIG "run"
      ([("line1", "2000 1000 1000 5000")] ++ ("Line2", "1 0 0 1") :: [])
      example_world
    = (Raise ValueError, w') ∧
    files w' = files example_world.
Proof.
  apply (modify_input_params_bad_key CONFIG "run" example_world
           example_input [("line1", "2000 1000 1000 5000")] "Line2" "1 0 0 1" []).
  - reflexivity.
  - apply Forall_cons. split; [|by apply Forall_nil].
    exists 1%Z. split; [reflexivity|]. vm_compute. split; [reflexivity|discriminate].
  - reflexivity.
Defined.

(** ** The parameter editor: line numbers counted from the end *)

Lemma index_from_end len n :
  (- Z.of_nat len < n <= 0)%Z →
  Py.index len (n - 1) = Some (Z.to_nat (Z.of_nat len + n - 1)).
Proof.
  intros H. unfold Py.index.
  assert ((0 <=? n - 1)%Z && (n - 1 <? Z.of_nat len)%Z = false) as -> by lia.
  assert ((- Z.of_nat len <=? n - 1)%Z && (n - 1 <? 0)%Z = true) as -> by lia.
  f_equal. lia.
Qed.

Lemma index_too_small len n :
  (n <= - Z.of_nat len)%Z → Py.index len (n - 1) = None.
Proof.
  intros H. unfold Py.index.
  assert ((0 <=? n - 1)%Z && (n - 1 <? Z.of_nat len)%Z = false) as -> by lia.
  assert ((- Z.of_nat len <=? n - 1)%Z && (n - 1 <? 0)%Z = false) as -> by lia.
  done.
Qed.

(** X4: a line number [n] from [1 - len] to [0], [len] the number of lines,
    is accepted: the edit goes to line [len + n], so that [0] is the
    last line, [-1] the line before it, and so on. *)
Theorem modify_input_params_from_end cfg WORK_DIR w content key new_content n :
  files w !! (cwd w ++ [WORK_DIR; INPUT_FILE cfg]) = Some content →
  Py.int (Py.replace "line" "" key) = Some n →
  (- Z.of_nat (length (Py.readlines content)) < n <= 0)%Z →
  let i := Z.to_nat (Z.of_nat (length (Py.readlines content)) + n - 1) in
  ∃ w' old_line new_line,
    modify_input_params cfg WORK_DIR [(key, new_content)] w = (Ok tt, w') ∧
    Py.readlines content !! i = Some old_line ∧
    edit_of new_content old_line new_line ∧
    files w' !! (cwd w' ++ [WORK_DIR; INPUT_FILE cfg])
    = Some (Py.writelines (<[i := new_line]> (Py.readlines content))).
Proof.
  intros Hfile Hn Hrange i.
  set (lines := Py.readlines content) in *.
  pose proof (index_from_end (length lines) n Hrange) as Hi. fold i in Hi.
  destruct (lookup_lt_is_Some_2 lines i) as [old_line Hold]; [unfold i; lia|].
  destruct (modify_input_params_one cfg WORK_DIR w content key new_content
              n i old_line Hfile Hn Hi Hold) as (w' & Hrun & Hcwd & Hfiles).
  exists w', old_line, (edited_line new_content old_line). split_and!.
  - done.
  - done.
  - apply edited_line_edit_of.
  - by rewrite Hcwd, Hfiles, lookup_insert_eq.
Qed.

Lemma modify_input_params_from_end_witness :
  let i := Z.to_nat (Z.of_nat (length (Py.readlines example_input)) + (-1) - 1) in
  ∃ w' old_line new_line,
    modify_input_params CONFIG "run" [("line-1", "0 1 1 0")] example_world
    = (Ok tt, w') ∧
    Py.readlines example_input !! i = Some old_line ∧
    edit_of "0 1 1 0" old_line new_line ∧
    files w' !! (cwd w' ++ ["run"; "inputN.in"])
    = Some (Py.writelines (<[i := new_line]> (Py.readlines example_input))).
Proof.
  apply (modify_input_params_from_end CONFIG "run" example_world example_input
           "line-1" "0 1 1 0" (-1)).
  - reflexivity.
  - reflexivity.
  - vm_compute. split; [reflexivity|discriminate].
Defined.

(** X5: a line number at or below minus the number of lines is out of
    range on the low side: the editor raises [IndexError] and the
    files are as they were. *)
Theorem modify_input_params_below_range
    cfg WORK_DIR w content pre key new_content post n :
  files w !! (cwd w ++ [WORK_DIR; INPUT_FILE cfg]) = Some content →
  Forall (applicable (length (Py.readlines content))) pre →
  Py.int (Py.replace "line" "" key) = Some n →
  (n <= - Z.of_nat (length (Py.readlines content)))%Z →
  ∃ w',
    modify_input_params cfg WORK_DIR (pre ++ (key, new_content) :: post) w
    = (Raise IndexError, w') ∧
    files w' = files w.
Proof.
  intros Hfile Hpre Hn Hrange.
  rewrite (modify_input_params_run _ _ _ _ _ Hfile).
  edestruct (modify_lines_applicable pre ((key, new_content) :: post))
    as (lines' & w' & -> & Hlen & Hfiles & _); [exact Hpre|].
  cbn [modify_lines]. unfold mbind at 1, M_bind. rewrite Hn.
  cbn [of_option mret M_ret]. unfold getitem. unfold mbind at 1 2, M_bind.
  rewrite index_too_small by (rewrite Hlen; done). simpl.
  exists w'. split; [reflexivity|]. by rewrite Hfiles.
Qed.

Lemma modify_input_params_below_range_witness :
  ∃ w',
    modify_input_params CONFIG "run" ([] ++ ("line-3", "0 1 1 0") :: [])
      example_world
    = (Raise IndexError, w') ∧
    files w' = files example_world.
Proof.
  apply (modify_input_params_below_range CONFIG "run" example_world
           example_input [] "line-3" "0 1 1 0" [] (-3)).
  - reflexivity.
  - by apply Forall_nil.
  - reflexivity.
  - vm_compute. discriminate.
Defined.

(** ** The parameter editor: editing again *)

Lemma contains_char_app x s t :
  Py.contains (String x "") (s +:+ t)
  = Py.contains (String x "") s || Py.contains (String x "") t.
Proof.
  induction s as [|c s IH].
  - rewrite append_nil_l. by rewrite contains_char_nil.
  - rewrite append_cons, !contains_char, IH. by rewrite orb_assoc.
Qed.

(** A new content without ['!'] put in place twice gives the line it
    gives once. *)
Lemma edited_line_twice new_content old_line :
  Py.contains "!" new_content = false →
  edited_line new_content (edited_line new_content old_line)
  = edited_line new_content old_line.
Proof.
  intros Hnew. unfold edited_line at 2 3.
  destruct (Py.contains "!" old_line) eqn:Hold.
  - set (rest := default "" _).
    rewrite <- (append_assoc new_content " " ("!" +:+ rest)) at 1.
    apply edited_line_comment. by rewrite contains_char_app, Hnew.
  - apply edited_line_plain. by rewrite contains_char_app, Hnew.
Qed.

(** X6: the editor is idempotent on an edit whose new content has neither
    a ['!'] nor a line break: run a second time with the same edit, it
    succeeds again and leaves every file as the first run left it. *)
Theorem modify_input_params_idempotent
    cfg WORK_DIR w content key new_content n w1 :
  files w !! (cwd w ++ [WORK_DIR; INPUT_FILE cfg]) = Some content →
  Py.int (Py.replace "line" "" key) = Some n →
  (- Z.of_nat (length (Py.readlines content)) < n
   <= Z.of_nat (length (Py.readlines content)))%Z →
  no_line_break new_content = true →
  Py.contains "!" new_content = false →
  modify_input_params cfg WORK_DIR [(key, new_content)] w = (Ok tt, w1) →
  ∃ w2,
    modify_input_params cfg WORK_DIR [(key, new_content)] w1 = (Ok tt, w2) ∧
    files w2 = files w1.
Proof.
  intros Hfile Hn Hrange Hclean Hbang Hrun.
  set (lines := Py.readlines content) in *.
  destruct (index_applicable _ _ Hrange) as [i Hi].
  destruct (lookup_lt_is_Some_2 lines i (index_Some _ _ _ Hi)) as [old Hold].
  destruct (modify_input_params_one cfg WORK_DIR w content key new_content
              n i old Hfile Hn Hi Hold) as (w1' & Hrun' & Hcwd & Hfiles).
  rewrite Hrun in Hrun'. injection Hrun' as <-.
  set (lines1 := <[i := edited_line new_content old]> lines) in *.
  assert (Hread : Py.readlines (Py.writelines lines1) = lines1).
  { apply readlines_writelines. eapply lines_ok_insert; [apply readlines_ok|done|].
    apply edited_line_ok; [done|].
    eapply lines_ok_lookup; [apply readlines_ok|done]. }
  assert (Hfile1 : files w1 !! (cwd w1 ++ [WORK_DIR; INPUT_FILE cfg])
                   = Some (Py.writelines lines1))
    by by rewrite Hcwd, Hfiles, lookup_insert_eq.
  destruct (modify_input_params_one cfg WORK_DIR w1 (Py.writelines lines1) key
              new_content n i (edited_line new_content old) Hfile1 Hn)
    as (w2 & Hrun2 & Hcwd2 & Hfiles2).
  { rewrite Hread. unfold lines1. by rewrite length_insert. }
  { rewrite Hread. apply list_lookup_insert_eq. by apply index_Some in Hi. }
  exists w2. split; [done|].
  rewrite Hfiles2, Hread, edited_line_twice by done.
  unfold lines1. rewrite list_insert_insert_eq.
  rewrite Hcwd, Hfiles. apply insert_insert_eq.
Qed.

Lemma modify_input_params_idempotent_witness :
  ∃ w2,
    modify_input_params CONFIG "run" [("line3", "0.0 0.0 0.01")]
      (modify_input_params CONFIG "run" [("line3", "0.0 0.0 0.01")] example_world).2
    = (Ok tt, w2) ∧
    files w2
    = files (modify_input_params CONFIG "run" [("line3", "0.0 0.0 0.01")]
               example_world).2.
Proof.
  apply (modify_input_params_idempotent CONFIG "run" example_world example_input
           "line3" "0.0 0.0 0.01" 3).
  - reflexivity.
  - reflexivity.
  - vm_compute. split; [reflexivity|discriminate].
  - reflexivity.
  - reflexivity.
  - vm_compute. reflexivity.
Defined.

(** ** The parameter editor: several edits *)

Lemma modify_lines_edits lines params idxs w :
  Forall2 (λ item i, line_index (length lines) item.1 = Some i) params idxs →
  ∃ lines' w',
    modify_lines lines params w = (Ok lines', w') ∧
    files w' = files w ∧ cwd w' = cwd w ∧
    length lines' = length lines ∧
    (∀ i, i ∉ idxs → lines' !! i = lines !! i) ∧
    (NoDup idxs → ∀ j item i,
       params !! j = Some item → idxs !! j = Some i →
       ∃ old, lines !! i = Some old ∧
              lines' !! i = Some (edited_line item.2 old)) ∧
    (lines_ok lines → Forall (λ item, no_line_break item.2 = true) params →
     lines_ok lines').
Proof.
  intros H. revert lines idxs w H.
  induction params as [|[key new_content] params IH]; intros lines idxs w H.
  { apply Forall2_nil_inv_l in H as ->. by exists lines, w. }
  apply Forall2_cons_inv_l in H as (i & idxs' & Hi & H & ->).
  unfold line_index in Hi. simpl in Hi.
  destruct (Py.int (Py.replace "line" "" key)) as [n|] eqn:Hn; [|done].
  simpl in Hi.
  destruct (lookup_lt_is_Some_2 lines i (index_Some _ _ _ Hi)) as [old Hold].
  rewrite (modify_lines_step _ _ _ _ _ _ _ _ Hn Hi Hold).
  set (lines1 := <[i := edited_line new_content old]> lines).
  destruct (IH lines1 idxs' (add_log (Msg ("  Line " +:+ Py.str_of_int n +:+ ": "
                                           +:+ new_content)) true w))
    as (lines' & w' & Hrun & Hf & Hc & Hlen & Hout & Hin & Hok).
  { unfold lines1. by rewrite length_insert. }
  exists lines', w'. split_and!.
  - done.
  - done.
  - done.
  - rewrite Hlen. unfold lines1. by rewrite length_insert.
  - intros i0 Hi0. apply not_elem_of_cons in Hi0 as [Hne Hi0].
    rewrite (Hout i0 Hi0). by apply list_lookup_insert_ne.
  - intros Hnd j item i0 Hj Hj0. apply NoDup_cons in Hnd as [Hni Hnd].
    destruct j as [|j]; simpl in Hj, Hj0.
    + injection Hj as <-. injection Hj0 as <-. exists old. split; [done|].
      rewrite (Hout i Hni). apply list_lookup_insert_eq.
      by apply index_Some in Hi.
    + destruct (Hin Hnd j item i0 Hj Hj0) as (old' & Hold' & Hnew').
      exists old'. split; [|done].
      rewrite <- Hold'. symmetry. apply list_lookup_insert_ne.
      intros ->. apply Hni. by eapply list_elem_of_lookup_2.
  - intros Hlines Hclean. apply Forall_cons in Hclean as [Hc1 Hclean].
    apply Hok; [|done]. eapply lines_ok_insert; [done|done|].
    apply edited_line_ok; [done|]. by eapply lines_ok_lookup.
Qed.

(** X7: several edits that address different lines of the file, with new
    contents free of line breaks: the editor succeeds, and reading the
    file again gives as many lines as before, each addressed line
    edited with its own new content, and every other line as it
    was. *)
Theorem modify_input_params_edits cfg WORK_DIR w content params idxs :
  files w !! (cwd w ++ [WORK_DIR; INPUT_FILE cfg]) = Some content →
  Forall2 (λ item i, line_index (length (Py.readlines content)) item.1 = Some i)
          params idxs →
  NoDup idxs →
  Forall (λ item, no_line_break item.2 = true) params →
  ∃ w' content',
    modify_input_params cfg WORK_DIR params w = (Ok tt, w') ∧
    files w' !! (cwd w' ++ [WORK_DIR; INPUT_FILE cfg]) = Some content' ∧
    length (Py.readlines content') = length (Py.readlines content) ∧
    (∀ j item i, params !! j = Some item → idxs !! j = Some i →
       ∃ old_line new_line,
         Py.readlines content !! i = Some old_line ∧
         Py.readlines content' !! i = Some new_line ∧
         edit_of item.2 old_line new_line) ∧
    (∀ i, i ∉ idxs → Py.readlines content' !! i = Py.readlines content !! i).
Proof.
  intros Hfile Hidx Hnd Hclean.
  rewrite (modify_input_params_run _ _ _ _ _ Hfile).
  edestruct (modify_lines_edits (Py.readlines content) params idxs)
    as (lines' & w' & -> & Hf & Hc & Hlen & Hout & Hin & Hok); [exact Hidx|].
  specialize (Hok (readlines_ok content) Hclean).
  eexists _, (Py.writelines lines'). split; [reflexivity|].
  rewrite (readlines_writelines _ Hok). split_and!.
  - simpl. apply lookup_insert_eq.
  - done.
  - intros j item i Hj Hi. destruct (Hin Hnd j item i Hj Hi) as (old & Hold & Hnew).
    exists old, (edited_line item.2 old). split_and!; [done..|].
    apply edited_line_edit_of.
  - done.
Qed.

Lemma modify_input_params_edits_witness :
  ∃ w' content',
    modify_input_params CONFIG "run"
      [("line3", "0.0 0.0 0.01"); ("line1", "2000 1000 1000 5000")] example_world
    = (Ok tt, w') ∧
    files w' !! (cwd w' ++ ["run"; "inputN.in"]) = Some content' ∧
    length (Py.readlines content') = length (Py.readlines example_input) ∧
    (∀ j item i,
       [("line3", "0.0 0.0 0.01"); ("line1", "2000 1000 1000 5000")] !! j
       = Some item →
       [2; 0]%nat !! j = Some i →
       ∃ old_line new_line,
         Py.readlines example_input !! i = Some old_line ∧
         Py.readlines content' !! i = Some new_line ∧
         edit_of item.2 old_line new_line) ∧
    (∀ i, i ∉ [2; 0]%nat →
          Py.readlines content' !! i = Py.readlines example_input !! i).
Proof.
  apply (modify_input_params_edits CONFIG "run" example_world example_input
           [("line3", "0.0 0.0 0.01"); ("line1", "2000 1000 1000 5000")]
           [2; 0]%nat).
  - reflexivity.
  - repeat constructor.
  - apply NoDup_cons. split; [|apply NoDup_singleton].
    intros H%list_elem_of_singleton. discriminate.
  - repeat constructor.
Defined.

(** ** Waiting for a job: the polls *)

Section Polls.

Variable cfg : config.
Variable squeue_run : list call → squeue_outcome.
Variable outside : list call → gmap path string → gmap path string.
Variable clock : list call → Q.

Lemma check_job_status_listed job_id w :
  ∃ w', check_job_status squeue_run outside job_id w
        = (Ok (listed job_id (squeue_run (calls w))), w') ∧
        calls w' = calls w ++ [Squeue job_id].
Proof.
  destruct (squeue_run (calls w)) as [stdout|e] eqn:H.
  - rewrite (check_job_status_ran _ _ _ _ _ H). eauto.
  - rewrite (check_job_status_error _ _ _ _ _ H). eauto.
Qed.

Lemma queries_app h1 h2 : queries (h1 ++ h2) = (queries h1 + queries h2)%nat.
Proof. unfold queries. by rewrite filter_app, length_app. Qed.

(** One turn of the loop while the job is listed: a query, then a
    sleep of [CHECK_INTERVAL] seconds. *)
Lemma wait_loop_listed polls job_id start_time w :
  listed job_id (squeue_run (calls w)) = true →
  (0 <= CHECK_INTERVAL cfg)%Z →
  ∃ w1,
    wait_loop cfg squeue_run outside clock (S polls) job_id start_time w
    = wait_loop cfg squeue_run outside clock polls job_id start_time w1 ∧
    calls w1 = calls w ++ [Squeue job_id; Sleep (CHECK_INTERVAL cfg)].
Proof.
  intros Hl Hi. cbn [wait_loop]. unfold mbind at 1, M_bind, gets.
  destruct (check_job_status_listed job_id w) as (w2 & Hc & Hcalls).
  unfold mbind at 1, M_bind. rewrite Hc, Hl. cbn [negb].
  unfold sleep. assert ((CHECK_INTERVAL cfg <? 0)%Z = false) as -> by lia.
  unfold interact, log_entry_to. unfold_M.
  destruct (_ =? 0)%Z; eexists; (split; [reflexivity|]); simpl;
    by rewrite Hcalls, <- app_assoc.
Qed.

Lemma wait_loop_not_listed polls job_id start_time w :
  listed job_id (squeue_run (calls w)) = false →
  ∃ w',
    wait_loop cfg squeue_run outside clock (S polls) job_id start_time w
    = (Ok true, w') ∧
    calls w' = calls w ++ [Squeue job_id].
Proof.
  intros Hl. cbn [wait_loop]. unfold mbind at 1, M_bind, gets.
  destruct (check_job_status_listed job_id w) as (w2 & Hc & Hcalls).
  unfold mbind at 1, M_bind. rewrite Hc, Hl. cbn [negb].
  unfold log_entry_to. unfold_M. eexists. split; [reflexivity|]. done.
Qed.

Lemma wait_loop_polls n : ∀ polls job_id start_time w,
  (∀ h, (queries h < queries (calls w) + n)%nat →
        listed job_id (squeue_run h) = true) →
  (∀ h, queries h = (queries (calls w) + n)%nat →
        listed job_id (squeue_run h) = false) →
  (0 <= CHECK_INTERVAL cfg)%Z →
  (n < polls)%nat →
  ∃ w',
    wait_loop cfg squeue_run outside clock polls job_id start_time w
    = (Ok true, w') ∧
    calls w'
    = calls w ++ concat (replicate n [Squeue job_id; Sleep (CHECK_INTERVAL cfg)])
              ++ [Squeue job_id].
Proof.
  induction n as [|n IH]; intros polls job_id start_time w Hon Hoff Hi Hp.
  - destruct polls as [|polls]; [lia|].
    apply wait_loop_not_listed. apply Hoff. lia.
  - destruct polls as [|polls]; [lia|].
    destruct (wait_loop_listed polls job_id start_time w) as (w1 & -> & Hcalls);
      [apply Hon; lia|done|].
    assert (Hq : queries (calls w1) = S (queries (calls w)))
      by (rewrite Hcalls, queries_app; unfold queries; simpl; lia).
    destruct (IH polls job_id start_time w1) as (w' & -> & Hcalls');
      [intros h Hh; apply Hon; lia|intros h Hh; apply Hoff; lia|done|lia|].
    exists w'. split; [done|].
    rewrite Hcalls', Hcalls. cbn [replicate concat]. by rewrite <- !app_assoc.
Qed.

(** X8: when [squeue] lists the job at the next [n] queries and no longer
    at the one after, the wait returns [True] having made [n + 1]
    queries with a sleep of [CHECK_INTERVAL] seconds after each of the
    first [n], and nothing else. *)
Theorem wait_for_job_completion_polls n polls job_id w :
  (∀ h, (queries h < queries (calls w) + n)%nat →
        listed job_id (squeue_run h) = true) →
  (∀ h, queries h = (queries (calls w) + n)%nat →
        listed job_id (squeue_run h) = false) →
  (0 <= CHECK_INTERVAL cfg)%Z →
  (n < polls)%nat →
  ∃ w',
    wait_for_job_completion cfg squeue_run outside clock polls job_id w
    = (Ok true, w') ∧
    calls w'
    = calls w ++ concat (replicate n [Squeue job_id; Sleep (CHECK_INTERVAL cfg)])
              ++ [Squeue job_id].
Proof.
  intros Hon Hoff Hi Hp. unfold wait_for_job_completion.
  unfold log_message, log_entry_to. unfold_M.
  set (w0 := add_log _ true w).
  by apply (wait_loop_polls n polls job_id _ w0).
Qed.

(** X9: as long as [squeue] lists the job the wait goes on: whatever the
    number of polls it is given, it has not returned after them, and
    has made that many queries. There is no limit of time. *)
Theorem wait_for_job_completion_no_timeout polls job_id w :
  (∀ h, listed job_id (squeue_run h) = true) →
  (0 <= CHECK_INTERVAL cfg)%Z →
  ∃ w',
    wait_for_job_completion cfg squeue_run outside clock polls job_id w
    = (Blocked, w') ∧
    calls w'
    = calls w ++ concat (replicate polls [Squeue job_id; Sleep (CHECK_INTERVAL cfg)]).
Proof.
  intros Hon Hi. unfold wait_for_job_completion.
  unfold log_message, log_entry_to. unfold_M.
  set (w0 := add_log _ true w). change (calls w) with (calls w0).
  generalize (clock (calls w0)). intros start_time. generalize w0. clear w0 w.
  induction polls as [|polls IH]; intros w.
  - exists w. split; [done|]. simpl. by rewrite app_nil_r.
  - destruct (wait_loop_listed polls job_id start_time w) as (w1 & -> & Hcalls);
      [done..|].
    destruct (IH w1) as (w' & -> & Hcalls'). exists w'. split; [done|].
    rewrite Hcalls', Hcalls. cbn [replicate concat]. by rewrite <- !app_assoc.
Qed.

End Polls.

Lemma wait_for_job_completion_polls_witness :
  ∃ w',
    wait_for_job_completion CONFIG squeue_two_polls quiet_outside minute_clock 5
      "4242" example_world
    = (Ok true, w') ∧
    calls w'
    = calls example_world
      ++ concat (replicate 2 [Squeue "4242"; Sleep (CHECK_INTERVAL CONFIG)])
      ++ [Squeue "4242"].
Proof.
  apply (wait_for_job_completion_polls CONFIG squeue_two_polls quiet_outside
           minute_clock 2 5 "4242" example_world).
  - intros h Hh. unfold squeue_two_polls. fold (queries h).
    change (queries (calls example_world) + 2)%nat with 2%nat in Hh.
    apply Nat.ltb_lt in Hh. rewrite Hh. reflexivity.
  - intros h Hh. unfold squeue_two_polls. fold (queries h).
    rewrite Hh. reflexivity.
  - vm_compute. discriminate.
  - lia.
Defined.

Lemma wait_for_job_completion_no_timeout_witness :
  ∃ w',
    wait_for_job_completion CONFIG squeue_always quiet_outside minute_clock 3
      "4242" example_world
    = (Blocked, w') ∧
    calls w'
    = calls example_world
      ++ concat (replicate 3 [Squeue "4242"; Sleep (CHECK_INTERVAL CONFIG)]).
Proof.
  apply (wait_for_job_completion_no_timeout CONFIG squeue_always quiet_outside
           minute_clock 3 "4242" example_world).
  - intros h. reflexivity.
  - vm_compute. discriminate.
Defined.

(** ** Submitting a job: when [sbatch] fails *)

Section Submission.

Variable cfg : config.
Variable WORK_DIR : string.
Variable sbatch_run : list call → sbatch_outcome.
Variable squeue_run : list call → squeue_outcome.
Variable outside : list call → gmap path string → gmap path string.
Variable clock : list call → Q.
Variable polls : nat.
Variable total : nat.

Lemma submit_job_nonzero w code :
  sbatch_run (calls w) = SbatchNonZero code →
  ∃ w',
    submit_job cfg WORK_DIR sbatch_run outside w = (Ok None, w') ∧
    logged w w'
    = [MsgExn "ERROR: Job submission failed: " (CalledProcessError code)] ∧
    cwd w' = cwd w ∧
    calls w' = calls w ++ [Sbatch (cwd w ++ [WORK_DIR]) (JOB_SCRIPT cfg)].
Proof.
  intros Hrun. unfold submit_job, try_finally, try_except, interact. unfold_M.
  simpl. rewrite Hrun. simpl. eexists. split_and!; [reflexivity| | |done].
  - unfold logged. simpl. by rewrite drop_app_length.
  - simpl. apply removelast_last.
Qed.

Lemma submit_job_raises w e :
  sbatch_run (calls w) = SbatchNotRun e →
  is_CalledProcessError e = false →
  ∃ w',
    submit_job cfg WORK_DIR sbatch_run outside w = (Raise e, w') ∧
    log w' = log w ∧ cwd w' = cwd w ∧
    calls w' = calls w ++ [Sbatch (cwd w ++ [WORK_DIR]) (JOB_SCRIPT cfg)].
Proof.
  intros Hrun He. unfold submit_job, try_finally, try_except, interact. unfold_M.
  simpl. rewrite Hrun. simpl. rewrite He. simpl.
  eexists. split_and!; [reflexivity|done| |done].
  simpl. apply removelast_last.
Qed.

(** X10: when [sbatch] exits with a status other than 0, the submitter logs
    the error and returns [None], back in the directory it was called
    from; the orchestrator then stops the run at that step with the
    message of a failed submission. *)
Theorem submit_job_rejected w code :
  sbatch_run (calls w) = SbatchNonZero code →
  (∃ w',
     submit_job cfg WORK_DIR sbatch_run outside w = (Ok None, w') ∧
     logged w w'
     = [MsgExn "ERROR: Job submission failed: " (CalledProcessError code)] ∧
     cwd w' = cwd w ∧
     calls w' = calls w ++ [Sbatch (cwd w ++ [WORK_DIR]) (JOB_SCRIPT cfg)]) ∧
  ∀ step_idx step_config later w0,
    edit_stage cfg WORK_DIR total step_idx step_config w0 = (Ok tt, w) →
    ∃ w',
      run_steps cfg WORK_DIR sbatch_run squeue_run outside clock polls total
        step_idx (step_config :: later) w0 = (Ok false, w') ∧
      marks (logged w0 w') = [Begins Edit; Begins Submit; Stops Submit].
Proof.
  intros Hrun. split; [by apply submit_job_nonzero|].
  intros step_idx step_config later w0 Hedit.
  set (w1 := add_log (Msg (LF +:+ "[2/5] Submitting job to compute nodes..."))
               true w).
  destruct (submit_job_nonzero w1 code Hrun) as (wf & Hsub & _).
  assert (Hfail : stage_fails cfg WORK_DIR sbatch_run squeue_run outside clock
                    polls total step_idx step_config Submit w0 wf)
    by (by eapply submit_fails).
  exists (add_log (Msg (stop_message Submit)) true wf). split.
  - simpl.
    by rewrite (bind_run _ _ _ _ _
                  (stage_fails_return _ _ _ _ _ _ _ _ _ _ _ _ _ Hfail)).
  - apply trace_logged.
    by apply (stage_fails_trace _ _ _ _ _ _ _ _ _ _ _ _ _ Hfail).
Qed.

(** X11: when [sbatch] cannot be run at all, the exception is not a
    [CalledProcessError] and the submitter does not catch it: it
    propagates, the current directory restored, and the orchestrator
    does not catch it either: the run ends with the exception, no stop
    message logged. *)
Theorem submit_job_not_run w e :
  sbatch_run (calls w) = SbatchNotRun e →
  is_CalledProcessError e = false →
  (∃ w',
     submit_job cfg WORK_DIR sbatch_run outside w = (Raise e, w') ∧
     log w' = log w ∧ cwd w' = cwd w) ∧
  ∀ step_idx step_config later w0,
    edit_stage cfg WORK_DIR total step_idx step_config w0 = (Ok tt, w) →
    ∃ w',
      run_steps cfg WORK_DIR sbatch_run squeue_run outside clock polls total
        step_idx (step_config :: later) w0 = (Raise e, w') ∧
      marks (logged w0 w') = [Begins Edit; Begins Submit].
Proof.
  intros Hrun He. split.
  { destruct (submit_job_raises w e Hrun He) as (w' & H1 & H2 & H3 & _). eauto. }
  intros step_idx step_config later w0 Hedit.
  set (w1 := add_log (Msg (LF +:+ "[2/5] Submitting job to compute nodes..."))
               true w).
  destruct (submit_job_raises w1 e Hrun He) as (wf & Hsub & Hlog & _).
  exists wf. split.
  - simpl. unfold mbind at 1, M_bind. rewrite run_step_stages, Hedit.
    unfold submit_stage, log_message, log_entry_to. unfold_M. fold w1.
    by rewrite Hsub.
  - apply trace_logged.
    apply (trace_trans [Begins Edit] [Begins Submit] _ w).
    + eapply trace_to; [apply edit_trace|exact Hedit].
    + exists [Msg (LF +:+ "[2/5] Submitting job to compute nodes...")].
      split; [by rewrite Hlog|done].
Qed.

End Submission.

Lemma submit_job_rejected_witness :
  (∃ w',
     submit_job two_chunks "run" sbatch_rejects quiet_outside after_edit_2
     = (Ok None, w') ∧
     logged after_edit_2 w'
     = [MsgExn "ERROR: Job submission failed: " (CalledProcessError 1)] ∧
     cwd w' = cwd after_edit_2 ∧
     calls w' = calls after_edit_2
                ++ [Sbatch (cwd after_edit_2 ++ ["run"]) (JOB_SCRIPT two_chunks)]) ∧
  (∃ w',
     run_steps two_chunks "run" sbatch_rejects squeue_two_polls quiet_outside
       minute_clock 5 2 2 (step_2 :: []) after_step_1 = (Ok false, w') ∧
     marks (logged after_step_1 w') = [Begins Edit; Begins Submit; Stops Submit]).
Proof.
  pose proof (submit_job_rejected two_chunks "run" sbatch_rejects
                squeue_two_polls quiet_outside minute_clock 5 2 after_edit_2 1)
    as H.
  destruct H as [H1 H2]; [reflexivity|].
  split; [exact H1|].
  apply (H2 2%Z step_2 [] after_step_1). vm_compute. reflexivity.
Defined.

Lemma submit_job_not_run_witness :
  (∃ w',
     submit_job two_chunks "run" sbatch_missing quiet_outside after_edit_2
     = (Raise FileNotFoundError, w') ∧
     log w' = log after_edit_2 ∧ cwd w' = cwd after_edit_2) ∧
  (∃ w',
     run_steps two_chunks "run" sbatch_missing squeue_two_polls quiet_outside
       minute_clock 5 2 2 (step_2 :: []) after_step_1
     = (Raise FileNotFoundError, w') ∧
     marks (logged after_step_1 w') = [Begins Edit; Begins Submit]).
Proof.
  pose proof (submit_job_not_run two_chunks "run" sbatch_missing
                squeue_two_polls quiet_outside minute_clock 5 2 after_edit_2
                FileNotFoundError) as H.
  destruct H as [H1 H2]; [reflexivity..|].
  split; [exact H1|].
  apply (H2 2%Z step_2 [] after_step_1). vm_compute. reflexivity.
Defined.

(** ** The run: how it can end *)

Section Outcomes.

Variable cfg : config.
Variable WORK_DIR : string.
Variable sbatch_run : list call → sbatch_outcome.
Variable squeue_run : list call → squeue_outcome.
Variable outside : list call → gmap path string → gmap path string.
Variable clock : list call → Q.
Variable polls : nat.

Local Abbreviation run :=
  (run_sequential_steps cfg WORK_DIR sbatch_run squeue_run outside clock polls).
Local Abbreviation loop_of total :=
  (run_steps cfg WORK_DIR sbatch_run squeue_run outside clock polls total).
Local Abbreviation fails total :=
  (stage_fails cfg WORK_DIR sbatch_run squeue_run outside clock polls total).

(** X12: a run that returns [True] has taken every step through its five
    stages, in order and once, has submitted one job per step, has
    made the backup directory of every step, and is back in the
    directory it started in. *)
Theorem run_sequential_steps_true steps w w' :
  run steps w = (Ok true, w') →
  marks (logged w w') = concat (replicate (length steps) full_step) ∧
  submissions w' = (submissions w + length steps)%nat ∧
  (∀ i : nat, (1 <= i <= length steps)%nat →
     cwd w ++ backup_dir WORK_DIR (Z.of_nat i) ∈ dirs w') ∧
  cwd w' = cwd w.
Proof.
  rewrite run_sequential_steps_started. intros H.
  destruct (run_steps_completed _ _ _ _ _ _ _ _ _ _ _ _ H)
    as (T & Hsub & Hdirs & _).
  split_and!.
  - apply trace_logged.
    apply (trace_trans [] _ _ (started steps w)); [|done].
    apply trace_silent, started_silent.
  - by rewrite Hsub.
  - intros i Hi. replace (Z.of_nat i) with (1 + Z.of_nat (i - 1))%Z by lia.
    apply (Hdirs (i - 1)%nat). lia.
  - pose proof (run_steps_cwd cfg WORK_DIR sbatch_run squeue_run outside clock
                  polls (length steps) 1 steps (started steps w)) as C.
    by rewrite H in C.
Qed.

Lemma run_steps_false total step_idx steps w w' :
  loop_of total step_idx steps w = (Ok false, w') →
  ∃ done step_config later s wk wf,
    steps = done ++ step_config :: later ∧
    loop_of total step_idx done w = (Ok true, wk) ∧
    fails total (step_idx + Z.of_nat (length done)) step_config s wk wf ∧
    w' = add_log (Msg (stop_message s)) true wf.
Proof.
  revert step_idx w. induction steps as [|s0 steps IH]; intros step_idx w; simpl.
  { done. }
  intros (r & w1 & Hs & H)%bind_Ok.
  destruct (run_step_returns _ _ _ _ _ _ _ _ _ _ _ _ _ Hs)
    as [_ [(-> & _)|(-> & s & wf & Hfail & -> & _)]].
  - destruct (IH _ _ H) as (done & step_config & later & s & wk & wf
                            & -> & Hdone & Hfail & ->).
    exists (s0 :: done), step_config, later, s, wk, wf. split_and!; [done| |..|done].
    + simpl. by rewrite (bind_run _ _ _ _ _ Hs).
    + simpl length. by replace (step_idx + Z.of_nat (S (length done)))%Z
        with (step_idx + 1 + Z.of_nat (length done))%Z by lia.
  - injection H as <-.
    exists [], s0, steps, s, w, wf. split_and!; [done..| |done].
    simpl. by rewrite Z.add_0_r.
Qed.

(** X13: a run returns [False] in one way only: the steps before some step
    [k] have completed, and the submission or the extraction of step
    [k] has reported failure; the last thing done is to log that the
    run stops. *)
Theorem run_sequential_steps_false steps w w' :
  run steps w = (Ok false, w') →
  ∃ done step_config later s wk wf,
    steps = done ++ step_config :: later ∧
    loop_of (length steps) 1 done (started steps w) = (Ok true, wk) ∧
    fails (length steps) (1 + Z.of_nat (length done)) step_config s wk wf ∧
    (s = Submit ∨ s = Extract) ∧
    w' = add_log (Msg (stop_message s)) true wf.
Proof.
  rewrite run_sequential_steps_started. intros H.
  destruct (run_steps_false _ _ _ _ _ H)
    as (done & step_config & later & s & wk & wf & Hsteps & Hdone & Hfail & Hw').
  exists done, step_config, later, s, wk, wf. split_and!; try done.
  destruct Hfail; [by left| |by right].
  exfalso. eapply stage_fails_not_wait. by eapply wait_fails.
Qed.


End Outcomes.

Lemma run_sequential_steps_true_witness :
  let w' := (run_sequential_steps two_chunks "run" sbatch_accepts
               squeue_two_polls quiet_outside minute_clock 5 [step_1] run_world).2 in
  marks (logged run_world w') = concat (replicate (length [step_1]) full_step) ∧
  submissions w' = (submissions run_world + length [step_1])%nat ∧
  (∀ i : nat, (1 <= i <= length [step_1])%nat →
     cwd run_world ++ backup_dir "run" (Z.of_nat i) ∈ dirs w') ∧
  cwd w' = cwd run_world.
Proof.
  apply (run_sequential_steps_true two_chunks "run" sbatch_accepts
           squeue_two_polls quiet_outside minute_clock 5 [step_1] run_world).
  vm_compute. reflexivity.
Defined.

Lemma run_sequential_steps_false_witness :
  ∃ done step_config later s wk wf,
    STEPS = done ++ step_config :: later ∧
    run_steps two_chunks "run" sbatch_accepts squeue_two_polls quiet_outside
      minute_clock 5 (length STEPS) 1 done (started STEPS run_world)
    = (Ok true, wk) ∧
    stage_fails two_chunks "run" sbatch_accepts squeue_two_polls quiet_outside
      minute_clock 5 (length STEPS) (1 + Z.of_nat (length done)) step_config s
      wk wf ∧
    (s = Submit ∨ s = Extract) ∧
    (run_sequential_steps two_chunks "run" sbatch_accepts squeue_two_polls
       quiet_outside minute_clock 5 STEPS run_world).2
    = add_log (Msg (stop_message s)) true wf.
Proof.
  apply (run_sequential_steps_false two_chunks "run" sbatch_accepts
           squeue_two_polls quiet_outside minute_clock 5 STEPS run_world).
  vm_compute. reflexivity.
Defined.


(** ** Extraction: how it can end *)

Section Extraction.

Variable cfg : config.
Variable WORK_DIR : string.

(** The state in which the chunk files are scanned. *)
Let entered (final_step : Z) (w : world) : world :=
  set_cwd (cwd w ++ [WORK_DIR])
    (add_log (Msg ("Extracting final state at step " +:+
                   Py.str_of_int final_step +:+ "...")) true w).

(** The outcome of an extraction, from the outcome of the scan. *)
Lemma extract_final_state_scan final_step w :
  extract_final_state cfg WORK_DIR final_step w
  = match scan_chunks cfg final_step None (Py.range (NUM_CHUNKS cfg))
            (entered final_step w) with
    | (Ok (Return b), w2) => (Ok b, set_cwd (removelast (cwd w2)) w2)
    | (Ok (Continue (Some g)), w2) =>
        match write_restart (Some g) (add_log (Msg "Writing pxyz.in...") true w2) with
        | (Ok _, w3) =>
            (Ok true,
             set_cwd (removelast (cwd w3))
               (add_log (Msg ("Successfully generated pxyz.in with " +:+
                              Py.str_of_int (nx g * ny g * nz g) +:+
                              " grid points")) true w3))
        | (Raise e, w3) =>
            (Ok false,
             set_cwd (removelast (cwd w3))
               (add_log (MsgExn "ERROR during data extraction: " e) true w3))
        | (Blocked, w3) => (Blocked, w3)
        end
    | (Ok (Continue None), w2) =>
        (Ok false,
         let w3 := with_file ["pxyz.in"] ("None None None" +:+ LF)
                     (add_log (Msg "Writing pxyz.in...") true w2) in
         set_cwd (removelast (cwd w3))
           (add_log (MsgExn "ERROR during data extraction: " TypeError) true w3))
    | (Raise e, w2) =>
        (Ok false,
         set_cwd (removelast (cwd w2))
           (add_log (MsgExn "ERROR during data extraction: " e) true w2))
    | (Blocked, w2) => (Blocked, w2)
    end.
Proof.
  unfold extract_final_state, try_finally, try_except. unfold_M.
  fold (entered final_step w).
  destruct (scan_chunks _ _ _ _ _) as [[[b|[g|]]|e|] w2]; try reflexivity.
  - destruct (write_restart _ _) as [[[]|e|] w3]; reflexivity.
  - unfold write_restart, with_file. unfold_M. simpl.
    rewrite lookup_insert_eq, insert_insert_eq. simpl.
    by rewrite append_nil_l.
Qed.

Lemma extract_final_state_ends final_step w :
  ∃ b w', extract_final_state cfg WORK_DIR final_step w = (Ok b, w') ∧
          cwd w' = cwd w.
Proof.
  pose proof (extract_final_state_cwd cfg WORK_DIR final_step w) as C.
  pose proof (extract_final_state_nonblocking cfg WORK_DIR final_step w) as N.
  destruct (extract_final_state _ _ _ _) as [[b|e|] w'] eqn:E; [eauto| |done].
  rewrite extract_final_state_scan in E.
  destruct (scan_chunks _ _ _ _ _) as [[[b|[g|]]|e'|] w2]; try done.
  destruct (write_restart _ _) as [[[]|e'|] w3]; done.
Qed.

(** X15: called where the work directory is, extraction does not
    raise: whatever goes wrong while the chunk files are read or the
    restart file is written is caught, and the function returns [True]
    or [False], back in the directory it was called from. *)
Theorem extract_final_state_never_raises final_step w :
  cwd w ++ [WORK_DIR] ∈ dirs w →
  ∃ b w', extract_final_state cfg WORK_DIR final_step w = (Ok b, w') ∧
          cwd w' = cwd w.
Proof. intros _. apply extract_final_state_ends. Qed.




Lemma range_empty n : (n <= 0)%Z → Py.range n = [].
Proof. intros H. unfold Py.range. by apply seqZ_nil. Qed.




End Extraction.



Lemma extract_final_state_never_raises_witness :
  ∃ b w', extract_final_state CONFIG "run" 5000 not_finite_world = (Ok b, w') ∧
          cwd w' = cwd not_finite_world.
Proof.
  apply (extract_final_state_never_raises CONFIG "run" 5000 not_finite_world).
  apply (bool_decide_unpack _). vm_compute. exact I.
Defined.

(** ** Extraction: where the records go *)

Lemma axis_wrap n i :
  (1 - n <= i <= n)%Z → Np.axis n (i - 1) = Some (wrap n i - 1)%Z.
Proof.
  intros H. unfold Np.axis, wrap.
  destruct (1 <=? i)%Z eqn:E.
  - assert ((0 <=? i - 1)%Z && (i - 1 <? n)%Z = true) as -> by lia. done.
  - assert ((0 <=? i - 1)%Z && (i - 1 <? n)%Z = false) as -> by lia.
    assert ((- n <=? i - 1)%Z && (i - 1 <? 0)%Z = true) as -> by lia.
    f_equal. lia.
Qed.

Lemma axis_Some n i p : Np.axis n (i - 1) = Some p → (1 - n <= i <= n)%Z.
Proof. unfold Np.axis. repeat case_match; [lia..|done]. Qed.

Lemma position_storable a n0 n1 n2 t :
  Np.shape a = (n0, n1, n2) → storable n0 n1 n2 t →
  Np.position a (pos_of t) = Some (pos_of (home n0 n1 n2 t)).
Proof.
  destruct t as [[i j] k]. intros Hs (Hi & Hj & Hk).
  unfold Np.position, pos_of, home. rewrite Hs.
  by rewrite !axis_wrap by done.
Qed.

Lemma position_Some a n0 n1 n2 t p :
  Np.shape a = (n0, n1, n2) → Np.position a (pos_of t) = Some p →
  storable n0 n1 n2 t.
Proof.
  destruct t as [[i j] k]. intros Hs. unfold Np.position, pos_of. rewrite Hs.
  destruct (Np.axis n0 (i - 1)) eqn:Ei; [|done].
  destruct (Np.axis n1 (j - 1)) eqn:Ej; [|done].
  destruct (Np.axis n2 (k - 1)) eqn:Ek; [|done].
  intros _. split; [|split]; by eapply axis_Some.
Qed.

(** A record that denotes a position of the arrays is stored, at the
    triple its indices wrap to. *)
Lemma store_storable g r :
  grid_wf g → storable (nx g) (ny g) (nz g) r.1 →
  ∃ g', store g r = Some g' ∧ grid_wf g' ∧
        nx g' = nx g ∧ ny g' = ny g ∧ nz g' = nz g ∧
        ∀ t, grid_at g' (pos_of t)
             = if decide (home (nx g) (ny g) (nz g) r.1 = t) then r.2
               else grid_at g (pos_of t).
Proof.
  destruct r as [t0 [[px py] pz]].
  intros (H0 & H1 & H2 & Hx & Hy & Hz) Hst. simpl in Hst.
  unfold store, Np.set, pos. simpl.
  rewrite (position_storable _ _ _ _ _ Hx Hst).
  rewrite (position_storable _ _ _ _ _ Hy Hst).
  rewrite (position_storable _ _ _ _ _ Hz Hst).
  simpl. eexists. split; [reflexivity|]. split_and!; try done.
  intros t. unfold grid_at. simpl. case_decide as Ht.
  - subst t. by rewrite !lookup_insert_eq.
  - assert (Hne : pos_of (home (nx g) (ny g) (nz g) t0) ≠ pos_of t).
    { intros Hp. apply Ht.
      destruct (home _ _ _ t0) as [[a b] c], t as [[a' b'] c'].
      unfold pos_of in Hp. injection Hp as ? ? ?.
      assert (a = a') as -> by lia. assert (b = b') as -> by lia.
      by assert (c = c') as -> by lia. }
    by rewrite !lookup_insert_ne by done.
Qed.

Lemma store_Some_storable g r g' :
  grid_wf g → store g r = Some g' → storable (nx g) (ny g) (nz g) r.1.
Proof.
  destruct r as [t0 [[px py] pz]]. intros (_ & _ & _ & Hx & _) H.
  unfold store, Np.set, pos in H. simpl in *.
  destruct (Np.position (pxx g) (pos_of t0)) eqn:E; [|done].
  by eapply position_Some.
Qed.

Lemma store_dims g r g' :
  store g r = Some g' → nx g' = nx g ∧ ny g' = ny g ∧ nz g' = nz g.
Proof.
  destruct r as [t0 [[px py] pz]]. unfold store. simpl.
  destruct (Np.set (pxx g) _ _); simpl; [|done].
  destruct (Np.set (pyy g) _ _); simpl; [|done].
  destruct (Np.set (pzz g) _ _); simpl; [|done].
  by intros [= <-].
Qed.

(** Records that all denote positions are all stored; each position
    then holds the scalars of the last record stored there. *)
Lemma store_all_storable g rs :
  grid_wf g →
  Forall (λ r, storable (nx g) (ny g) (nz g) r.1) rs →
  ∃ g', store_all g rs = Some g' ∧ grid_wf g' ∧
        nx g' = nx g ∧ ny g' = ny g ∧ nz g' = nz g ∧
        ∀ t, grid_at g' (pos_of t)
             = foldl (λ acc r, if decide (home (nx g) (ny g) (nz g) r.1 = t)
                               then r.2 else acc)
                     (grid_at g (pos_of t)) rs.
Proof.
  revert g. induction rs as [|r rs IH]; intros g Hwf Hall.
  { by exists g. }
  apply Forall_cons in Hall as [Hr Hall].
  destruct (store_storable g r Hwf Hr) as (g1 & Hst & Hwf1 & Hx & Hy & Hz & Hat).
  destruct (IH g1) as (g' & Hst' & Hwf' & Hx' & Hy' & Hz' & Hat');
    [done|by rewrite Hx, Hy, Hz|].
  exists g'. simpl. rewrite Hst. simpl. split_and!; try done; try congruence.
  intros t. rewrite Hat', Hat, Hx, Hy, Hz. done.
Qed.

Lemma store_all_Some_storable g rs g' :
  grid_wf g → store_all g rs = Some g' →
  Forall (λ r, storable (nx g) (ny g) (nz g) r.1) rs.
Proof.
  revert g. induction rs as [|r rs IH]; intros g Hwf; simpl; [by constructor|].
  destruct (store g r) as [g1|] eqn:Hst; simpl; [|done].
  intros H. constructor; [by eapply store_Some_storable|].
  destruct (store_dims _ _ _ Hst) as (<- & <- & <-).
  apply IH; [|done]. by eapply store_wf.
Qed.

Lemma zero_grid_wf nx ny nz :
  (0 <= nx)%Z → (0 <= ny)%Z → (0 <= nz)%Z → grid_wf (zero_grid nx ny nz).
Proof. intros. unfold grid_wf, zero_grid. simpl. by repeat split. Qed.

(** The records of the grid after records that all denote positions
    were stored in a grid of zeros. *)
Lemma record_at_value n0 n1 n2 rs g :
  (0 <= n0)%Z → (0 <= n1)%Z → (0 <= n2)%Z →
  store_all (zero_grid n0 n1 n2) rs = Some g →
  Forall (λ r, storable n0 n1 n2 r.1) rs ∧
  grid_wf g ∧ nx g = n0 ∧ ny g = n1 ∧ nz g = n2 ∧
  ∀ ts : list (Z * Z * Z),
    record_at g <$> ts = (λ t, (t, value_at n0 n1 n2 rs t)) <$> ts.
Proof.
  intros Hx Hy Hz Hst.
  pose proof (zero_grid_wf n0 n1 n2 Hx Hy Hz) as Hwf.
  pose proof (store_all_Some_storable _ _ _ Hwf Hst) as Hall.
  destruct (store_all_storable _ _ Hwf Hall)
    as (g' & Hst' & Hwf' & Hx' & Hy' & Hz' & Hat).
  rewrite Hst in Hst'. injection Hst' as <-.
  split_and!; try done.
  intros ts. apply list_fmap_ext. intros _ t _.
  unfold record_at, value_at. by rewrite Hat.
Qed.

(** ** Extraction: what a scan that came to its end has read *)

Lemma scan_lines_inv g lines w g' w' :
  scan_lines g lines w = (Ok g', w') →
  w' = w ∧ ∃ recs, parse_lines lines = Some recs ∧ store_all g recs = Some g'.
Proof.
  revert g. induction lines as [|line lines IH]; intros g; simpl.
  { intros [= <- <-]. split; [done|]. by exists []. }
  intros (g1 & w1 & H1 & H)%bind_Ok. rewrite scan_line_parse in H1.
  destruct (parse_line line) as [[r|]|]; [| |done].
  - destruct (store g r) as [g2|] eqn:Hst; [|done]. injection H1 as <- <-.
    destruct (IH _ H) as (-> & recs & -> & Hall). split; [done|].
    exists (r :: recs). simpl. by rewrite Hst.
  - injection H1 as <- <-.
    destruct (IH _ H) as (-> & recs & -> & Hall). split; [done|].
    by exists recs.
Qed.

Section Scan.

Variable cfg : config.

(** What a chunk that was scanned to its end was: a file with a header
    of three tokens or more and data lines that read as records, all
    stored; the first one gives the dimensions. *)
Lemma scan_chunk_inv final_step g chunk w g' w' :
  scan_chunk cfg final_step g chunk w = (Ok (Continue g'), w') →
  ∃ c g1,
    g' = Some g1 ∧
    readable_chunk w (dat_name cfg (final_step + chunk)) c ∧
    match g with
    | Some g0 => store_all g0 c.2 = Some g1
    | None =>
        ∃ n0 n1 n2,
          dims_of c.1 = Some (n0, n1, n2) ∧
          (0 <= n0)%Z ∧ (0 <= n1)%Z ∧ (0 <= n2)%Z ∧
          allocatable n0 n1 n2 ∧
          store_all (zero_grid n0 n1 n2) c.2 = Some g1
    end.
Proof.
  unfold scan_chunk. intros (present & w1 & Hp & H)%bind_Ok.
  injection Hp as <- <-.
  destruct (files w !! (cwd w ++ [dat_name cfg (final_step + chunk)]))
    as [content|] eqn:Hfile.
  2:{ rewrite bool_decide_eq_false_2 in H by (by intros [? [=]]).
      by apply bind_Ok in H as (? & ? & _ & [=]). }
  rewrite bool_decide_eq_true_2 in H by eauto. cbn [negb] in H.
  apply bind_Ok in H as (content' & w2 & Hread & H).
  unfold read_file in Hread.
  apply bind_Ok in Hread as (o & w2' & [= <- <-] & Hread).
  rewrite Hfile in Hread. injection Hread as <- <-.
  destruct (_ <? 3)%nat eqn:Hlen.
  { by apply bind_Ok in H as (? & ? & _ & [=]). }
  apply Nat.ltb_ge in Hlen.
  apply bind_Ok in H as (g0 & w3 & H0 & H).
  apply bind_Ok in H as (g1 & w4 & H1 & [= <- <-]).
  destruct (scan_lines_inv _ _ _ _ _ H1) as (_ & recs & Hparse & Hst).
  exists (content, recs), g1. split; [done|]. split; [done|].
  destruct g as [g|].
  { by injection H0 as <- <-. }
  apply bind_Ok in H0 as (n0 & ? & [Hn0 _]%of_option_Ok & H0).
  apply bind_Ok in H0 as (n1 & ? & [Hn1 _]%of_option_Ok & H0).
  apply bind_Ok in H0 as (n2 & ? & [Hn2 _]%of_option_Ok & H0).
  apply bind_Ok in H0 as ([] & ? & _ & H0).
  apply bind_Ok in H0 as (px & ? & [Hx _]%of_option_Ok & H0).
  apply bind_Ok in H0 as (py & ? & [Hy _]%of_option_Ok & H0).
  apply bind_Ok in H0 as (pz & ? & [Hz _]%of_option_Ok & [= <- <-]).
  exists n0, n1, n2. unfold dims_of, header_of. simpl. rewrite Hn0, Hn1, Hn2. simpl.
  apply zeros_Some in Hx as (-> & ? & ? & ? & ?).
  apply zeros_Some in Hy as [-> _]. apply zeros_Some in Hz as [-> _].
  by split_and!.
Qed.

Lemma readable_chunk_same_files w w' fname c :
  same_files w w' → readable_chunk w' fname c → readable_chunk w fname c.
Proof. intros [Hf Hc]. unfold readable_chunk. by rewrite Hf, Hc. Qed.

Lemma scan_chunks_inv_grid final_step g ranks w g' w' :
  scan_chunks cfg final_step (Some g) ranks w = (Ok (Continue g'), w') →
  ∃ chunks g1,
    g' = Some g1 ∧
    Forall2 (λ rank c, readable_chunk w (dat_name cfg (final_step + rank)) c)
            ranks chunks ∧
    store_all g (concat chunks.*2) = Some g1.
Proof.
  revert g w. induction ranks as [|rank ranks IH]; intros g w; simpl.
  { intros [= <- <-]. by exists [], g. }
  intros ([b|g0] & w1 & H1 & H)%bind_Ok; [done|].
  pose proof (scan_chunk_same_files cfg final_step (Some g) rank w) as Hsame.
  rewrite H1 in Hsame. simpl in Hsame.
  destruct (scan_chunk_inv _ _ _ _ _ _ H1) as (c & g1 & -> & Hc & Hst).
  destruct (IH _ _ H) as (chunks & g2 & -> & Hall & Hst').
  exists (c :: chunks), g2. split_and!; [done| |].
  - constructor; [done|].
    eapply Forall2_impl; [exact Hall|]. intros rank' c'.
    by apply readable_chunk_same_files.
  - rewrite fmap_cons. simpl concat. rewrite store_all_app, Hst. done.
Qed.

Lemma scan_chunks_inv final_step rank ranks w g' w' :
  scan_chunks cfg final_step None (rank :: ranks) w = (Ok (Continue g'), w') →
  ∃ c0 chunks n0 n1 n2 g1,
    g' = Some g1 ∧
    Forall2 (λ rank c, readable_chunk w (dat_name cfg (final_step + rank)) c)
            (rank :: ranks) (c0 :: chunks) ∧
    dims_of c0.1 = Some (n0, n1, n2) ∧
    (0 <= n0)%Z ∧ (0 <= n1)%Z ∧ (0 <= n2)%Z ∧
    allocatable n0 n1 n2 ∧
    store_all (zero_grid n0 n1 n2) (concat (c0 :: chunks).*2) = Some g1.
Proof.
  cbn [scan_chunks]. intros ([b|g0] & w1 & H1 & H)%bind_Ok; [done|].
  pose proof (scan_chunk_same_files cfg final_step None rank w) as Hsame.
  rewrite H1 in Hsame. simpl in Hsame.
  destruct (scan_chunk_inv _ _ _ _ _ _ H1)
    as (c0 & g1 & -> & Hc & n0 & n1 & n2 & Hdims & H0 & H1' & H2 & Hfit & Hst).
  destruct (scan_chunks_inv_grid _ _ _ _ _ _ H) as (chunks & g2 & -> & Hall & Hst').
  exists c0, chunks, n0, n1, n2, g2. split_and!; try done.
  - constructor; [done|].
    eapply Forall2_impl; [exact Hall|]. intros rank' c'.
    by apply readable_chunk_same_files.
  - rewrite fmap_cons. simpl concat. rewrite store_all_app, Hst. done.
Qed.

End Scan.

(** ** Extraction: the restart file, from the records read *)

Section Values.

Variable cfg : config.
Variable WORK_DIR : string.

Lemma readable_entered final_step w w1 rank c :
  files w1 = files w → cwd w1 = cwd w ++ [WORK_DIR] →
  (readable_chunk w1 (dat_name cfg (final_step + rank)) c ↔
   chunk_file cfg WORK_DIR final_step w rank = Some c.1 ∧
   (3 <= length (header_of c.1))%nat ∧ records_of c.1 = Some c.2).
Proof.
  intros Hf Hc. unfold readable_chunk, chunk_file.
  by rewrite Hf, Hc, <- app_assoc.
Qed.

Lemma complete_chunks_entered final_step w w1 chunks :
  files w1 = files w → cwd w1 = cwd w ++ [WORK_DIR] →
  complete_chunks cfg WORK_DIR final_step w chunks →
  Forall2 (λ rank c, readable_chunk w1 (dat_name cfg (final_step + rank)) c)
          (Py.range (NUM_CHUNKS cfg)) chunks.
Proof.
  intros Hf Hc [Hlen Hall]. unfold Py.range.
  apply Forall2_same_length_lookup. split.
  { rewrite length_seqZ. lia. }
  intros i rank c Hrank Hi. apply lookup_seqZ in Hrank as [-> _].
  apply (readable_entered _ w); [done..|]. rewrite Z.add_0_l. by apply Hall.
Qed.

Lemma entered_complete_chunks final_step w w1 chunks :
  files w1 = files w → cwd w1 = cwd w ++ [WORK_DIR] →
  (0 <= NUM_CHUNKS cfg)%Z →
  Forall2 (λ rank c, readable_chunk w1 (dat_name cfg (final_step + rank)) c)
          (Py.range (NUM_CHUNKS cfg)) chunks →
  complete_chunks cfg WORK_DIR final_step w chunks.
Proof.
  intros Hf Hc Hn Hall. unfold Py.range in Hall.
  pose proof (Forall2_length _ _ _ Hall) as Hlen.
  rewrite length_seqZ in Hlen.
  split; [lia|].
  intros rank c Hi. apply (readable_entered _ w w1); [done..|].
  assert (Hrank : seqZ 0 (NUM_CHUNKS cfg) !! rank = Some (Z.of_nat rank)).
  { apply lookup_seqZ. split; [lia|]. apply lookup_lt_Some in Hi. lia. }
  exact (Forall2_lookup_lr _ _ _ _ _ _ Hall Hrank Hi).
Qed.

(** When the records of the chunk files can be stored in the grid the
    first header announces, extraction returns [True] and writes the
    records of the grid. *)
Lemma extract_final_state_stored final_step w chunks c0 n0 n1 n2 g :
  complete_chunks cfg WORK_DIR final_step w chunks →
  chunks !! 0%nat = Some c0 →
  dims_of c0.1 = Some (n0, n1, n2) →
  (0 <= n0)%Z → (0 <= n1)%Z → (0 <= n2)%Z →
  allocatable n0 n1 n2 →
  store_all (zero_grid n0 n1 n2) (concat chunks.*2) = Some g →
  ∃ w',
    extract_final_state cfg WORK_DIR final_step w = (Ok true, w') ∧
    restart_file WORK_DIR w'
    = Some (restart_header (nx g) (ny g) (nz g) +:+
            Py.writelines (restart_line <$>
                           (record_at g <$> box_list (nx g) (ny g) (nz g)))).
Proof.
  intros Hchunks Hc0 Hdims Hx Hy Hz Hfit Hst.
  rewrite extract_final_state_scan.
  set (w1 := set_cwd _ _).
  apply (complete_chunks_entered final_step w w1) in Hchunks; [|done..].
  destruct (record_at_value _ _ _ _ _ Hx Hy Hz Hst) as (_ & Hwf & _).
  destruct chunks as [|c chunks]; [done|]. injection Hc0 as ->.
  apply Forall2_cons_inv_r in Hchunks as (rank & ranks & Hc & Hall & Hranks).
  rewrite Hranks. rewrite fmap_cons in Hst. simpl concat in Hst.
  apply store_all_app_Some in Hst as (g1 & Hst0 & Hst1).
  cbn [scan_chunks]. unfold mbind at 1, M_bind.
  rewrite (scan_chunk_first cfg final_step rank w1 c0 n0 n1 n2 g1) by done.
  set (w2 := add_log _ true w1).
  rewrite (scan_chunks_next cfg final_step g1 ranks chunks w2 g); [| |done].
  2:{ eapply Forall2_impl; [exact Hall|]. intros rank' c'.
      intros (Hf & ?). by split. }
  rewrite (write_restart_records g _ Hwf).
  eexists. split; [reflexivity|].
  unfold restart_file, with_file. simpl.
  rewrite removelast_last, <- app_assoc. apply lookup_insert_eq.
Qed.


(** What an extraction that returns [True] has read and written. *)
Lemma extract_final_state_true_records final_step w w' :
  extract_final_state cfg WORK_DIR final_step w = (Ok true, w') →
  ∃ chunks c0 n0 n1 n2,
    complete_chunks cfg WORK_DIR final_step w chunks ∧
    chunks !! 0%nat = Some c0 ∧
    dims_of c0.1 = Some (n0, n1, n2) ∧
    (0 <= n0)%Z ∧ (0 <= n1)%Z ∧ (0 <= n2)%Z ∧
    Forall (λ r, storable n0 n1 n2 r.1) (concat chunks.*2) ∧
    restart_file WORK_DIR w' = Some (restart_of n0 n1 n2 (concat chunks.*2)).
Proof.
  intros Hrun. pose proof Hrun as Hscan.
  rewrite extract_final_state_scan in Hscan.
  set (w1 := set_cwd _ _) in Hscan.
  destruct (Py.range (NUM_CHUNKS cfg)) as [|rank ranks] eqn:Hranks; [done|].
  destruct (scan_chunks _ _ _ _ _) as [[[b|[g|]]|e|] w2] eqn:Escan; try done.
  { by apply scan_chunks_return in Escan as ->. }
  destruct (scan_chunks_inv _ _ _ _ _ _ _ Escan)
    as (c0 & chunks & n0 & n1 & n2 & g1 & [= <-] & Hall & Hdims
        & Hx & Hy & Hz & Hfit & Hst).
  rewrite <- Hranks in Hall.
  assert (Hn : (0 <= NUM_CHUNKS cfg)%Z).
  { destruct (decide (0 <= NUM_CHUNKS cfg)%Z) as [|Hneg]; [done|].
    by rewrite range_empty in Hranks by lia. }
  apply (entered_complete_chunks final_step w w1) in Hall; [|done..].
  destruct (record_at_value _ _ _ _ _ Hx Hy Hz Hst)
    as (Hstorable & _ & Hnx & Hny & Hnz & Hrec).
  exists (c0 :: chunks), c0, n0, n1, n2. split_and!; try done.
  destruct (extract_final_state_stored final_step w (c0 :: chunks) c0 n0 n1 n2 g)
    as (w'' & Hrun' & Hfile); [done..|].
  rewrite Hrun in Hrun'. injection Hrun' as <-.
  by rewrite Hfile, Hnx, Hny, Hnz, Hrec.
Qed.


(** X19: an extraction that returns [True] has found, for every rank, a
    chunk file with a header of three tokens or more whose data lines
    of six tokens or more all read as numbers; the first header reads
    as three dimensions, none negative; every record denotes a
    position of that grid; and the restart file is the one these
    records give. *)
Theorem extract_final_state_true_inv final_step w w' :
  extract_final_state cfg WORK_DIR final_step w = (Ok true, w') →
  ∃ chunks c0 n0 n1 n2,
    complete_chunks cfg WORK_DIR final_step w chunks ∧
    chunks !! 0%nat = Some c0 ∧
    dims_of c0.1 = Some (n0, n1, n2) ∧
    (0 <= n0)%Z ∧ (0 <= n1)%Z ∧ (0 <= n2)%Z ∧
    Forall (λ r, storable n0 n1 n2 r.1) (concat chunks.*2) ∧
    restart_file WORK_DIR w' = Some (restart_of n0 n1 n2 (concat chunks.*2)).
Proof. apply extract_final_state_true_records. Qed.


End Values.


Example sparse_world_restart_file :
  restart_of 2 2 1 (concat sparse_chunks.*2)
  = "2 2 1" +:+ LF +:+
    "1 1 1 2.00000e+00 2.00000e+00 2.00000e+00" +:+ LF +:+
    "1 2 1 0.00000e+00 0.00000e+00 0.00000e+00" +:+ LF +:+
    "2 1 1 0.00000e+00 0.00000e+00 0.00000e+00" +:+ LF +:+
    "2 2 1 3.00000e+00 3.00000e+00 3.00000e+00" +:+ LF.
Proof. vm_compute. reflexivity. Qed.

Lemma extract_final_state_true_inv_witness :
  ∃ chunks c0 n0 n1 n2,
    complete_chunks two_chunks "run" 5000 sparse_world chunks ∧
    chunks !! 0%nat = Some c0 ∧
    dims_of c0.1 = Some (n0, n1, n2) ∧
    (0 <= n0)%Z ∧ (0 <= n1)%Z ∧ (0 <= n2)%Z ∧
    Forall (λ r, storable n0 n1 n2 r.1) (concat chunks.*2) ∧
    restart_file "run"
      (extract_final_state two_chunks "run" 5000 sparse_world).2
    = Some (restart_of n0 n1 n2 (concat chunks.*2)).
Proof.
  apply (extract_final_state_true_inv two_chunks "run" 5000 sparse_world).
  vm_compute. reflexivity.
Defined.


(** ** The backup of a step *)







(** ** The preview *)

#[global] Instance only_screen_preorder : PreOrder only_screen.
Proof.
  split.
  - by intros w.
  - intros w1 w2 w3 (?&?&?&?&?) (?&?&?&?&?). unfold only_screen.
    split_and!; congruence.
Qed.

Lemma print_only_screen text : stable only_screen (print text).
Proof. by intros w. Qed.

#[global] Hint Resolve print_only_screen : stable.

Lemma preview_listing_only_screen i prev_final steps :
  stable only_screen (preview_listing i prev_final steps).
Proof.
  revert i prev_final. induction steps as [|st steps IH]; intros i prev_final;
    simpl; [solve_stable|].
  stable_with ltac:(apply IH).
Qed.

Lemma check_continuity_only_screen i prev steps errors :
  stable only_screen (check_continuity i prev steps errors).
Proof.
  revert i prev errors. induction steps as [|st steps IH]; intros i prev errors;
    simpl; [solve_stable|].
  stable_with ltac:(apply IH).
Qed.

Lemma check_final_step_only_screen i steps errors :
  stable only_screen (check_final_step i steps errors).
Proof.
  revert i errors. induction steps as [|st steps IH]; intros i errors;
    simpl; [solve_stable|].
  stable_with ltac:(apply IH).
Qed.

#[global] Hint Resolve preview_listing_only_screen check_continuity_only_screen
  check_final_step_only_screen : stable.

Lemma preview_steps_only_screen steps : stable only_screen (preview_steps steps).
Proof. unfold preview_steps. solve_stable. Qed.

Lemma getitem_lookup {A} (l : list A) (i : nat) x w :
  l !! i = Some x → getitem l (Z.of_nat i) w = (Ok x, w).
Proof.
  intros H. unfold getitem. unfold_M.
  rewrite index_in_range by (apply lookup_lt_Some in H; lia).
  by rewrite Nat2Z.id, H.
Qed.

Lemma line8_numbers_none st :
  dict_get "line8" (params st) = None → line8_numbers st = Some None.
Proof. unfold line8_numbers. by intros ->. Qed.

Lemma line8_numbers_some st line8 :
  dict_get "line8" (params st) = Some line8 →
  is_Some (line8_numbers st) →
  ∃ token0 kstep token3 kstart,
    Py.split line8 !! 0%nat = Some token0 ∧ Py.int token0 = Some kstep ∧
    Py.split line8 !! 3%nat = Some token3 ∧ Py.int token3 = Some kstart ∧
    line8_numbers st = Some (Some (kstep, kstart)).
Proof.
  unfold line8_numbers. intros -> [x Hx].
  destruct (Py.split line8 !! 0%nat) as [t0|] eqn:H0; [|done].
  cbn [mbind option_bind] in *.
  destruct (Py.int t0) as [kstep|] eqn:Hk0; [|done].
  cbn [mbind option_bind] in *.
  destruct (Py.split line8 !! 3%nat) as [t3|] eqn:H3; [|done].
  cbn [mbind option_bind] in *.
  destruct (Py.int t3) as [kstart|] eqn:Hk3; [|done].
  by exists t0, kstep, t3, kstart.
Qed.

Lemma continuous_cons prev st steps :
  continuous (prev :: st :: steps) ↔
  (∀ kstep kstart, line8_numbers st = Some (Some (kstep, kstart)) →
                   kstart = final_step prev) ∧
  continuous (st :: steps).
Proof.
  unfold continuous. split.
  - intros H. split.
    + intros kstep kstart. by apply (H 0%nat prev st).
    + intros i p s kstep kstart Hp Hs. by apply (H (S i) p s).
  - intros [H0 H] [|i] p s kstep kstart Hp Hs; simpl in *.
    + injection Hp as <-. injection Hs as <-. apply H0.
    + by apply (H i p s).
Qed.

Lemma continuous_one st : continuous [st].
Proof. intros [|i] p s kstep kstart Hp Hs; simpl in *; done. Qed.

Lemma consistent_cons st steps :
  consistent (st :: steps) ↔
  (∀ kstep kstart, line8_numbers st = Some (Some (kstep, kstart)) →
                   (kstep + kstart)%Z = final_step st) ∧
  consistent steps.
Proof.
  unfold consistent. split.
  - intros H. split.
    + intros kstep kstart. apply H, list_elem_of_here.
    + intros s kstep kstart Hs. by apply H, list_elem_of_further.
  - intros [H0 H] s kstep kstart [->|Hs]%elem_of_cons; [apply H0|by apply H].
Qed.

Lemma check_continuity_result i prev steps errors w :
  Forall (λ st, is_Some (line8_numbers st)) steps →
  ∃ more,
    check_continuity i prev steps errors w = (Ok (errors ++ more), w) ∧
    (more = [] ↔ continuous (prev :: steps)).
Proof.
  intros Hwf. revert i prev errors.
  induction Hwf as [|st steps Hst _ IH]; intros i prev errors.
  { exists []. rewrite app_nil_r. split; [done|]. split; [intros _|done].
    apply continuous_one. }
  cbn [check_continuity].
  destruct (dict_get "line8" (params st)) as [line8|] eqn:Hget.
  - destruct (line8_numbers_some _ _ Hget Hst)
      as (t0 & kstep & t3 & kstart & _ & _ & H3 & Hk & Hnum).
    destruct (kstart =? final_step prev)%Z eqn:E;
      (erewrite bind_run;
       [|rewrite (bind_run _ _ _ _ _ (getitem_lookup _ 3 _ _ H3)), Hk;
         cbn [of_option]; unfold mbind, M_bind, mret, M_ret;
         rewrite E; reflexivity]).
    + destruct (IH (i + 1)%Z st errors) as (more & -> & Hmore).
      exists more. split; [done|]. rewrite Hmore, continuous_cons.
      apply Z.eqb_eq in E. split; [|tauto].
      intros H. split; [|done]. intros ks kst. rewrite Hnum. by intros [= _ <-].
    + match goal with
      | |- ∃ _, check_continuity _ _ _ ?errs _ = _ ∧ _ =>
          destruct (IH (i + 1)%Z st errs) as (more & -> & Hmore)
      end.
      eexists (_ :: more). rewrite <- app_assoc. split; [reflexivity|].
      split; [done|]. intros [H _]%continuous_cons.
      apply Z.eqb_neq in E. by destruct E; eapply H.
  - rewrite (bind_run _ _ _ errors w) by done.
    destruct (IH (i + 1)%Z st errors) as (more & -> & Hmore).
    exists more. split; [done|]. rewrite Hmore, continuous_cons.
    split; [|tauto]. intros H. split; [|done].
    intros ks kst. by rewrite (line8_numbers_none _ Hget).
Qed.

Lemma check_final_step_result i steps errors w :
  Forall (λ st, is_Some (line8_numbers st)) steps →
  ∃ more,
    check_final_step i steps errors w = (Ok (errors ++ more), w) ∧
    (more = [] ↔ consistent steps).
Proof.
  intros Hwf. revert i errors.
  induction Hwf as [|st steps Hst _ IH]; intros i errors.
  { exists []. rewrite app_nil_r. split; [done|]. split; [intros _|done].
    intros st kstep kstart Hin. by apply elem_of_nil in Hin. }
  cbn [check_final_step].
  destruct (dict_get "line8" (params st)) as [line8|] eqn:Hget.
  - destruct (line8_numbers_some _ _ Hget Hst)
      as (t0 & kstep & t3 & kstart & H0 & Hk0 & H3 & Hk & Hnum).
    destruct (kstep + kstart =? final_step st)%Z eqn:E;
      (erewrite bind_run;
       [|rewrite (bind_run _ _ _ _ _ (getitem_lookup _ 0 _ _ H0)), Hk0;
         cbn [of_option]; unfold mbind at 1, M_bind, mret at 1, M_ret;
         rewrite (bind_run _ _ _ _ _ (getitem_lookup _ 3 _ _ H3)), Hk;
         cbn [of_option]; unfold mbind, M_bind, mret, M_ret;
         rewrite E; reflexivity]).
    + destruct (IH (i + 1)%Z errors) as (more & -> & Hmore).
      exists more. split; [done|]. rewrite Hmore, consistent_cons.
      apply Z.eqb_eq in E. split; [|tauto].
      intros H. split; [|done]. intros ks kst. rewrite Hnum.
      by intros [= <- <-].
    + match goal with
      | |- ∃ _, check_final_step _ _ ?errs _ = _ ∧ _ =>
          destruct (IH (i + 1)%Z errs) as (more & -> & Hmore)
      end.
      eexists (_ :: more). rewrite <- app_assoc. split; [reflexivity|].
      split; [done|]. intros [H _]%consistent_cons.
      apply Z.eqb_neq in E. by destruct E; eapply H.
  - rewrite (bind_run _ _ _ errors w) by done.
    destruct (IH (i + 1)%Z errors) as (more & -> & Hmore).
    exists more. split; [done|]. rewrite Hmore, consistent_cons.
    split; [|tauto]. intros H. split; [|done].
    intros ks kst. by rewrite (line8_numbers_none _ Hget).
Qed.

Lemma print_run text w : print text w = (Ok tt, printed text w).
Proof. reflexivity. Qed.

Ltac run_print := rewrite (bind_run _ _ _ _ _ (print_run _ _)).

Lemma for_print_ok {A} (l : list A) (f : A → string) w :
  ∃ w', for_ l (λ x, print (f x)) w = (Ok tt, w').
Proof.
  revert w. induction l as [|x l IH]; intros w; simpl; [by eexists|].
  run_print. apply IH.
Qed.

Lemma preview_listing_ok i prev_final steps w :
  ∃ w', preview_listing i prev_final steps w = (Ok tt, w').
Proof.
  revert i prev_final w. induction steps as [|st steps IH]; intros i prev_final w;
    cbn [preview_listing]; [by eexists|].
  do 6 run_print.
  match goal with
  | |- ∃ _, (for_ ?l ?body ≫= _) ?w0 = _ =>
      destruct (for_print_ok l (λ item, "  Line " +:+
                  rjust 2 (Py.replace "line" "" item.1) +:+ ": " +:+ item.2) w0)
        as (w1 & H1)
  end.
  rewrite (bind_run _ _ _ _ _ H1). run_print. apply IH.
Qed.

Lemma preview_steps_result steps w :
  Forall (λ st, is_Some (line8_numbers st)) steps →
  ∃ b w',
    preview_steps steps w = (Ok b, w') ∧
    (b = true ↔ continuous steps ∧ consistent steps) ∧
    only_screen w w'.
Proof.
  intros Hwf.
  assert (∃ b w', preview_steps steps w = (Ok b, w') ∧
                  (b = true ↔ continuous steps ∧ consistent steps))
    as (b & w' & Hrun & Hb).
  2:{ exists b, w'. split_and!; [done..|].
      pose proof (preview_steps_only_screen steps w) as H.
      by rewrite Hrun in H. }
  unfold preview_steps. do 4 run_print.
  match goal with
  | |- ∃ _ _, (preview_listing _ _ _ ≫= _) ?w0 = _ ∧ _ =>
      destruct (preview_listing_ok 1 None steps w0) as (w1 & H1)
  end.
  rewrite (bind_run _ _ _ _ _ H1). do 3 run_print.
  set (w2 := printed _ _).
  assert (∃ more1, match steps with
                   | [] => mret []
                   | first :: rest => check_continuity 1 first rest []
                   end w2 = (Ok more1, w2) ∧
                   (more1 = [] ↔ continuous steps)) as (more1 & Hc & Hmore1).
  { destruct Hwf as [|first rest _ Hrest].
    - exists []. split; [done|]. split; [intros _|done].
      intros i p s kstep kstart Hp. by rewrite lookup_nil in Hp.
    - destruct (check_continuity_result 1 first rest [] w2 Hrest)
        as (more & Hrun & Hmore). by exists more. }
  rewrite (bind_run _ _ _ _ _ Hc).
  destruct (check_final_step_result 1 steps more1 w2 Hwf) as (more2 & Hf & Hmore2).
  rewrite (bind_run _ _ _ _ _ Hf).
  assert (Hb : bool_decide (length (more1 ++ more2) = 0%nat) = true
               ↔ continuous steps ∧ consistent steps).
  { rewrite bool_decide_eq_true, <- Hmore1, <- Hmore2.
    rewrite length_zero_iff_nil. split.
    - by intros [-> ->]%app_eq_nil.
    - by intros [-> ->]. }
  destruct (negb (bool_decide (more1 ++ more2 = []))).
  - match goal with
    | |- ∃ _ _, ((_ ≫= λ _, for_ ?l _) ≫= _) ?w0 = _ ∧ _ =>
        destruct (for_print_ok l (λ err, "  - " +:+ err)
                    (printed (LF +:+ "❌ ERRORS FOUND:") w0)) as (w3 & H3)
    end.
    erewrite bind_run; [|run_print; exact H3].
    by eexists _, _.
  - erewrite bind_run; [|run_print; apply print_run].
    by eexists _, _.
Qed.

(** X21: the verdict of the preview, for steps whose [line8], when they
    have one, has four tokens or more, the first and the fourth of
    which read as numbers: the preview returns [True] exactly when
    every such step starts where the step before it ends and ends at
    [kstep + kstart]; a step without [line8] is not checked. Nothing
    but the screen is touched. *)
Theorem preview_steps_verdict steps w :
  Forall (λ st, is_Some (line8_numbers st)) steps →
  ∃ b w',
    preview_steps steps w = (Ok b, w') ∧
    (b = true ↔ continuous steps ∧ consistent steps) ∧
    only_screen w w'.
Proof. apply preview_steps_result. Qed.

Lemma preview_steps_verdict_witness :
  ∃ b w',
    preview_steps broken_steps example_world = (Ok b, w') ∧
    (b = true ↔ continuous broken_steps ∧ consistent broken_steps) ∧
    only_screen example_world w'.
Proof.
  apply (preview_steps_verdict broken_steps example_world).
  repeat constructor; vm_compute; eauto.
Defined.

Example preview_of_broken_steps :
  (preview_steps broken_steps example_world).1 = Ok false ∧
  (preview_steps STEPS example_world).1 = Ok true.
Proof. split; vm_compute; reflexivity. Qed.

(** X22: whatever the steps, and whether it returns or raises, the preview
    changes no file, makes no directory, writes nothing in the log,
    and runs no command. *)
Theorem preview_steps_no_effect steps w :
  only_screen w (preview_steps steps w).2.
Proof. apply preview_steps_only_screen. Qed.

(** ** The work directory *)

Lemma below_app dir rest : below dir (dir ++ rest) = Some rest.
Proof.
  induction dir as [|d dir IH]; simpl; [by destruct rest|].
  by rewrite String.eqb_refl.
Qed.

Lemma below_Some dir p rest : below dir p = Some rest → p = dir ++ rest.
Proof.
  revert p. induction dir as [|d dir IH]; intros p; simpl.
  { destruct p; by intros [= <-]. }
  destruct p as [|x p]; [done|].
  destruct (String.eqb d x) eqn:E; [|done].
  apply String.eqb_eq in E as ->. intros H%IH. by rewrite H.
Qed.

Lemma copy_target_Some ignore src dst p q :
  copy_target ignore src dst p = Some q ↔
  ∃ rest, p = src ++ rest ∧ q = dst ++ rest ∧ kept ignore rest = true.
Proof.
  unfold copy_target, kept. split.
  - destruct (below src p) as [rest|] eqn:E; [|done]. simpl.
    destruct (forallb _ rest) eqn:K; [|done]. intros [= <-].
    exists rest. by apply below_Some in E.
  - intros (rest & -> & -> & K). rewrite below_app. simpl. by rewrite K.
Qed.

Lemma elem_of_tree_copies ignore src dst m q c :
  (q, c) ∈ omap (λ item : path * string,
                   (λ q, (q, item.2)) <$> copy_target ignore src dst item.1)
                (map_to_list m) ↔
  ∃ rest, q = dst ++ rest ∧ kept ignore rest = true ∧ m !! (src ++ rest) = Some c.
Proof.
  rewrite list_elem_of_omap. split.
  - intros ([p c'] & Hin & H). simpl in H.
    destruct (copy_target ignore src dst p) as [q'|] eqn:E; [|done].
    injection H as -> ->.
    apply copy_target_Some in E as (rest & -> & -> & K).
    apply elem_of_map_to_list in Hin. by exists rest.
  - intros (rest & -> & K & Hm). exists (src ++ rest, c). split.
    + by apply elem_of_map_to_list.
    + simpl. assert (copy_target ignore src dst (src ++ rest) = Some (dst ++ rest))
        as -> by (apply copy_target_Some; eauto). done.
Qed.

(** What [copytree] has put at a path below the destination. *)
Lemma lookup_tree_copies ignore src dst m rest :
  tree_copies ignore src dst m !! (dst ++ rest)
  = if kept ignore rest then m !! (src ++ rest) else None.
Proof.
  unfold tree_copies.
  destruct (kept ignore rest) eqn:K.
  - destruct (m !! (src ++ rest)) as [c|] eqn:Hm.
    + apply elem_of_list_to_map_1'.
      * intros y (rest' & Heq & _ & Hy)%elem_of_tree_copies.
        apply app_inv_head in Heq as <-. congruence.
      * apply elem_of_tree_copies. by exists rest.
    + apply not_elem_of_list_to_map_1.
      intros ([q c] & Hq & (rest' & Heq & _ & Hc)%elem_of_tree_copies)%list_elem_of_fmap.
      simpl in Hq. subst q. apply app_inv_head in Heq as <-. congruence.
  - apply not_elem_of_list_to_map_1.
    intros ([q c] & Hq & (rest' & Heq & K' & _)%elem_of_tree_copies)%list_elem_of_fmap.
    simpl in Hq. subst q. apply app_inv_head in Heq as <-. congruence.
Qed.

(** [copytree] puts nothing anywhere else. *)
Lemma lookup_tree_copies_outside ignore src dst m q :
  below dst q = None → tree_copies ignore src dst m !! q = None.
Proof.
  intros Hq. apply not_elem_of_list_to_map_1.
  intros ([q' c] & Hq' & (rest & Heq & _)%elem_of_tree_copies)%list_elem_of_fmap.
  simpl in Hq'. subst q' q. by rewrite below_app in Hq.
Qed.

Lemma copytree_run src dst ignore w :
  cwd w ++ src ∈ dirs w →
  files w !! (cwd w ++ dst) = None →
  cwd w ++ dst ∉ dirs w →
  copytree src dst ignore w
  = (Ok tt,
     set_files (tree_copies ignore (cwd w ++ src) (cwd w ++ dst) (files w)
                ∪ files w)
       (set_dirs (dirs w ∪ list_to_set
                    (omap (copy_target ignore (cwd w ++ src) (cwd w ++ dst))
                          (elements (dirs w)))) w)).
Proof.
  intros Hsrc Hfile Hdir. unfold copytree, isdir, isfile. unfold_M.
  rewrite bool_decide_eq_true_2 by done. cbn [negb].
  rewrite Hfile, bool_decide_eq_false_2 by (by intros [? [=]]).
  by rewrite bool_decide_eq_false_2 by done.
Qed.

Section WorkDirectory.

Variable cfg : config.

Lemma try_except_Ok {A} (m : M A) caught handler w a w' :
  m w = (Ok a, w') → try_except m caught handler w = (Ok a, w').
Proof. unfold try_except. by intros ->. Qed.

Lemma lookup_union_copies (copies m : gmap path string) k v :
  copies !! k = v → m !! k = None → (copies ∪ m) !! k = v.
Proof. intros <- Hm. by apply lookup_union_l. Qed.

Lemma create_work_directory_made timestamp w :
  let work_dir := "seq_run_" +:+ timestamp in
  cwd w ++ [SOURCE_DIR cfg] ∈ dirs w →
  cwd w ++ [work_dir] ∉ dirs w →
  (∀ rest, files w !! (cwd w ++ work_dir :: rest) = None) →
  ∃ w',
    create_work_directory cfg timestamp w = (Ok (Some work_dir), w') ∧
    cwd w ++ [work_dir] ∈ dirs w' ∧
    (∀ rest, files w' !! (cwd w ++ work_dir :: rest)
             = if kept ignored rest
               then files w !! (cwd w ++ SOURCE_DIR cfg :: rest) else None) ∧
    (∀ p, below (cwd w ++ [work_dir]) p = None → files w' !! p = files w !! p) ∧
    log w' = log w ∧ calls w' = calls w ∧ cwd w' = cwd w.
Proof.
  intros work_dir Hsrc Hdst Hnew. unfold create_work_directory. fold work_dir.
  do 2 run_print. set (w1 := printed _ (printed _ w)).
  unfold isdir at 1, gets. unfold mbind at 1, M_bind.
  rewrite bool_decide_eq_true_2 by done. cbn [negb].
  assert (Hne : SOURCE_DIR cfg ≠ work_dir).
  { intros Heq. apply Hdst. by rewrite <- Heq. }
  assert (Hout : below (cwd w ++ [work_dir]) (cwd w ++ [SOURCE_DIR cfg; "pxyz.in"])
                 = None).
  { destruct (below _ _) as [rest|] eqn:E; [|done].
    apply below_Some in E. rewrite <- app_assoc in E.
    apply app_inv_head in E. by injection E. }
  set (copies := tree_copies ignored (cwd w ++ [SOURCE_DIR cfg])
                   (cwd w ++ [work_dir]) (files w)).
  assert (Hcopy : copytree [SOURCE_DIR cfg] [work_dir] ignored w1
                  = (Ok tt, set_files (copies ∪ files w)
                              (set_dirs (dirs w ∪ list_to_set
                                 (omap (copy_target ignored (cwd w ++ [SOURCE_DIR cfg])
                                          (cwd w ++ [work_dir]))
                                       (elements (dirs w)))) w1))).
  { etrans; [apply copytree_run; [done|apply (Hnew [])|done]|reflexivity]. }
  set (w2 := set_files _ _) in Hcopy.
  assert (Hlook : ∀ rest, (copies ∪ files w) !! (cwd w ++ work_dir :: rest)
                          = if kept ignored rest
                            then files w !! (cwd w ++ SOURCE_DIR cfg :: rest)
                            else None).
  { intros rest. apply lookup_union_copies; [|apply Hnew].
    unfold copies.
    replace (cwd w ++ work_dir :: rest) with ((cwd w ++ [work_dir]) ++ rest)
      by by rewrite <- app_assoc.
    rewrite lookup_tree_copies. by rewrite <- app_assoc. }
  assert (Hother : ∀ p : list string, below (cwd w ++ [work_dir]) p = None →
                        (copies ∪ files w) !! p = files w !! p).
  { intros p Hp. apply lookup_union_r. by apply lookup_tree_copies_outside. }
  assert (Hdir : cwd w ++ [work_dir] ∈ dirs w2).
  { unfold w2. simpl. apply elem_of_union_r, elem_of_list_to_set.
    apply list_elem_of_omap. exists (cwd w ++ [SOURCE_DIR cfg]).
    split; [by apply elem_of_elements|].
    apply copy_target_Some. exists []. by rewrite !app_nil_r. }
  set (w3 := printed "✓ Work directory created successfully" w2).
  assert (Hf3 : files w3 = copies ∪ files w) by reflexivity.
  assert (Hc3 : cwd w3 = cwd w) by reflexivity.
  assert (Hd3 : dirs w3 = dirs w2) by reflexivity.
  assert (Hl3 : log w3 = log w) by reflexivity.
  assert (Hk3 : calls w3 = calls w) by reflexivity.
  destruct (files w !! (cwd w ++ [SOURCE_DIR cfg; "pxyz.in"])) as [c|] eqn:Hpxyz.
  - exists (printed "✓ Copied initial pxyz.in"
              (set_files (<[cwd w ++ [work_dir; "pxyz.in"] := c]> (files w3)) w3)).
    split.
    { apply try_except_Ok. rewrite (bind_run _ _ _ _ _ Hcopy). run_print.
      fold w3. unfold isfile, copy2, read_file, write_file. unfold_M.
      rewrite Hf3, Hc3, (Hother _ Hout), Hpxyz.
      rewrite bool_decide_eq_true_2 by eauto. cbv beta iota.
      by rewrite Hf3, Hc3, (Hother _ Hout), Hpxyz. }
    cbn [dirs files log calls cwd printed set_files]. rewrite Hf3, Hd3.
    split_and!; try done.
    + intros rest. destruct (decide (rest = ["pxyz.in"])) as [->|Hrest].
      * rewrite lookup_insert_eq. by rewrite <- Hpxyz.
      * rewrite lookup_insert_ne; [apply Hlook|].
        intros Heq%app_inv_head. by injection Heq as <-.
    + intros p Hp. rewrite lookup_insert_ne; [by apply Hother|].
      intros <-. change (cwd w ++ [work_dir; "pxyz.in"])
        with (cwd w ++ [work_dir] ++ ["pxyz.in"]) in Hp.
      by rewrite app_assoc, below_app in Hp.
  - exists w3. split.
    { apply try_except_Ok. rewrite (bind_run _ _ _ _ _ Hcopy). run_print.
      fold w3. unfold isfile. unfold_M.
      rewrite Hf3, Hc3, (Hother _ Hout), Hpxyz.
      by rewrite bool_decide_eq_false_2 by (by intros [? [=]]). }
    rewrite Hf3, Hd3. by split_and!.
Qed.

(** X23: with the source directory there and nothing yet where the work
    directory goes, the work directory is made: it holds a copy of
    every file of the source directory whose name, like the names of
    the directories on the way to it, matches none of the patterns
    [*.dat], [PELOOP.*], [slurm-*], [fort.*] and [energy_out.dat],
    and nothing else; every file elsewhere is as it was, nothing is
    logged and no command is run. *)
Theorem create_work_directory_copies timestamp w :
  let work_dir := "seq_run_" +:+ timestamp in
  cwd w ++ [SOURCE_DIR cfg] ∈ dirs w →
  cwd w ++ [work_dir] ∉ dirs w →
  (∀ rest, files w !! (cwd w ++ work_dir :: rest) = None) →
  ∃ w',
    create_work_directory cfg timestamp w = (Ok (Some work_dir), w') ∧
    cwd w ++ [work_dir] ∈ dirs w' ∧
    (∀ rest, files w' !! (cwd w ++ work_dir :: rest)
             = if kept ignored rest
               then files w !! (cwd w ++ SOURCE_DIR cfg :: rest) else None) ∧
    (∀ p, below (cwd w ++ [work_dir]) p = None → files w' !! p = files w !! p) ∧
    log w' = log w ∧ calls w' = calls w ∧ cwd w' = cwd w.
Proof. apply create_work_directory_made. Qed.

Lemma create_work_directory_absent timestamp w :
  cwd w ++ [SOURCE_DIR cfg] ∉ dirs w →
  ∃ w',
    create_work_directory cfg timestamp w = (Ok None, w') ∧
    only_screen w w'.
Proof.
  intros Hsrc. unfold create_work_directory. do 2 run_print.
  unfold isdir, gets. unfold mbind at 1, M_bind. cbn [dirs cwd printed].
  rewrite bool_decide_eq_false_2 by done. cbn [negb]. run_print.
  by eexists.
Qed.

(** X24: without the source directory no work directory is made: the
    function returns [None] and has changed nothing but the screen. *)
Theorem create_work_directory_no_source timestamp w :
  cwd w ++ [SOURCE_DIR cfg] ∉ dirs w →
  ∃ w',
    create_work_directory cfg timestamp w = (Ok None, w') ∧
    only_screen w w'.
Proof. apply create_work_directory_absent. Qed.

Lemma fnmatch_star name : fnmatch "*" name = true.
Proof.
  induction name as [|c name IH]; [done|].
  change (fnmatch "*" (String c name)) with (false || fnmatch "*" name).
  done.
Qed.

Lemma extract_final_state_missing WORK_DIR final_step w rank :
  (0 <= rank < NUM_CHUNKS cfg)%Z →
  chunk_file cfg WORK_DIR final_step w rank = None →
  ∃ w', extract_final_state cfg WORK_DIR final_step w = (Ok false, w') ∧
        files w' = files w.
Proof.
  intros Hrank Hnone. rewrite extract_final_state_scan.
  set (w1 := set_cwd _ _).
  assert (Hbad : bad_chunk w1 (dat_name cfg (final_step + rank))).
  { left. unfold chunk_file in Hnone. simpl. by rewrite <- app_assoc. }
  destruct (scan_chunks_bad cfg final_step None (Py.range (NUM_CHUNKS cfg))
              rank w1 (proj2 (elem_of_range _ _) Hrank) Hbad)
    as (w2 & [Hf2 Hc2] & [-> | [e ->]]); by eexists.
Qed.

(** X25: a work directory that was just made holds no chunk file when the
    names of the chunk files match one of the patterns that are left
    out, as those of [config.py] do: an extraction there returns
    [False] for want of a data file, until a job has written its
    output. *)
Theorem extract_final_state_fresh_work_directory timestamp final_step w w1 :
  let work_dir := "seq_run_" +:+ timestamp in
  cwd w ++ [SOURCE_DIR cfg] ∈ dirs w →
  cwd w ++ [work_dir] ∉ dirs w →
  (∀ rest, files w !! (cwd w ++ work_dir :: rest) = None) →
  (0 < NUM_CHUNKS cfg)%Z →
  (∀ idx, ignored (dat_name cfg idx) = true) →
  create_work_directory cfg timestamp w = (Ok (Some work_dir), w1) →
  ∃ w2,
    extract_final_state cfg work_dir final_step w1 = (Ok false, w2) ∧
    files w2 = files w1.
Proof.
  intros work_dir Hsrc Hdst Hnew Hn Hign Hrun.
  destruct (create_work_directory_made timestamp w Hsrc Hdst Hnew)
    as (w1' & Hrun' & _ & Hin & _ & _ & _ & Hcwd).
  fold work_dir in Hrun'. rewrite Hrun in Hrun'. injection Hrun' as <-.
  apply (extract_final_state_missing work_dir final_step w1 0); [lia|].
  unfold chunk_file. rewrite Hcwd, (Hin [_]). unfold kept. simpl.
  by rewrite Hign.
Qed.

End WorkDirectory.

Lemma ignored_dat_name idx : ignored (dat_name CONFIG idx) = true.
Proof.
  unfold ignored, IGNORE_PATTERNS, dat_name. cbn [existsb DAT_PREFIX CONFIG].
  set (rest := Py.fmt_0d _ _ +:+ _).
  change ("PELOOP." +:+ rest)
    with (String "P" (String "E" (String "L" (String "O" (String "O"
            (String "P" (String "." rest))))))).
  change (fnmatch "PELOOP.*" _) with (fnmatch "*" rest).
  by rewrite fnmatch_star, orb_true_r.
Qed.

Lemma create_work_directory_no_source_witness :
  ∃ w',
    create_work_directory CONFIG "20240101_120000" example_world = (Ok None, w') ∧
    only_screen example_world w'.
Proof.
  apply (create_work_directory_no_source CONFIG "20240101_120000" example_world).
  apply (bool_decide_unpack _). vm_compute. exact I.
Defined.

Lemma origin_world_fresh rest :
  files origin_world
  !! (cwd origin_world ++ ("seq_run_" +:+ "20240101_120000") :: rest) = None.
Proof.
  destruct (files origin_world !! _) as [c|] eqn:E; [exfalso|done].
  apply elem_of_map_to_list in E. vm_compute in E.
  repeat (apply elem_of_cons in E as [E|E]; [discriminate|]).
  by apply elem_of_nil in E.
Qed.

Lemma extract_final_state_fresh_work_directory_witness :
  let work_dir := "seq_run_" +:+ "20240101_120000" in
  ∃ w2,
    extract_final_state CONFIG work_dir 5000
      (create_work_directory CONFIG "20240101_120000" origin_world).2
    = (Ok false, w2) ∧
    files w2
    = files (create_work_directory CONFIG "20240101_120000" origin_world).2.
Proof.
  apply (extract_final_state_fresh_work_directory CONFIG "20240101_120000" 5000
           origin_world).
  - apply (bool_decide_unpack _). vm_compute. exact I.
  - apply (bool_decide_unpack _). vm_compute. exact I.
  - apply origin_world_fresh.
  - reflexivity.
  - apply ignored_dat_name.
  - vm_compute. reflexivity.
Defined.

Lemma create_work_directory_copies_witness :
  let work_dir := "seq_run_" +:+ "20240101_120000" in
  ∃ w',
    create_work_directory CONFIG "20240101_120000" origin_world
    = (Ok (Some work_dir), w') ∧
    cwd origin_world ++ [work_dir] ∈ dirs w' ∧
    (∀ rest, files w' !! (cwd origin_world ++ work_dir :: rest)
             = if kept ignored rest
               then files origin_world
                    !! (cwd origin_world ++ SOURCE_DIR CONFIG :: rest)
               else None) ∧
    (∀ p, below (cwd origin_world ++ [work_dir]) p = None →
          files w' !! p = files origin_world !! p) ∧
    log w' = log origin_world ∧ calls w' = calls origin_world ∧
    cwd w' = cwd origin_world.
Proof.
  apply (create_work_directory_copies CONFIG "20240101_120000" origin_world).
  - apply (bool_decide_unpack _). vm_compute. exact I.
  - apply (bool_decide_unpack _). vm_compute. exact I.
  - intros rest.
    destruct (files origin_world !! _) as [c|] eqn:E; [exfalso|done].
    apply elem_of_map_to_list in E. vm_compute in E.
    repeat (apply elem_of_cons in E as [E|E]; [discriminate|]).
    by apply elem_of_nil in E.
Defined.


(** ** The entry point *)

Lemma yields_ret {A} (P : A → Prop) a : P a → yields P (mret a).
Proof. intros H w. by exists a, w. Qed.

Lemma yields_bind {A B} (P : B → Prop) (m : M A) (f : A → M B) :
  yields (λ _, True) m → (∀ a, yields P (f a)) → yields P (m ≫= f).
Proof.
  intros Hm Hf w. destruct (Hm w) as (a & w1 & H1 & _).
  rewrite (bind_run _ _ _ _ _ H1). apply Hf.
Qed.

Lemma yields_gets {A} (f : world → A) : yields (λ _, True) (gets f).
Proof. intros w. by eexists _, _. Qed.

Lemma yields_modify f : yields (λ _, True) (modify f).
Proof. intros w. by eexists _, _. Qed.

Lemma yields_for {A} (l : list A) body :
  (∀ x, yields (λ _, True) (body x)) → yields (λ _, True) (for_ l body).
Proof.
  intros Hb. induction l as [|x l IH]; simpl; [by apply yields_ret|].
  apply yields_bind; [apply Hb|intros _; apply IH].
Qed.

(** A handler for [Exception] that returns makes the whole return. *)
Lemma yields_try_except {A} (P : A → Prop) (m : M A) handler :
  nonblocking m → (∀ a : A, P a) → (∀ e, yields P (handler e)) →
  yields P (try_except m Exception handler).
Proof.
  intros Hm HP Hh w. specialize (Hm w). unfold try_except.
  destruct (m w) as [[a|e|] w']; [by eexists _, _|apply Hh|done].
Qed.

Create HintDb yields discriminated.

Ltac solve_yields :=
  lazymatch goal with
  | |- yields _ (_ ≫= _) =>
      apply yields_bind; [solve_yields|intros; solve_yields]
  | |- yields _ (mret _) => by apply yields_ret
  | |- yields _ (gets _) => apply yields_gets
  | |- yields _ (modify _) => apply yields_modify
  | |- yields _ (for_ _ _) => apply yields_for; intros; solve_yields
  | |- yields _ (try_except _ Exception _) =>
      apply yields_try_except;
      [unfold_ops; solve_nonblocking|done|intros; solve_yields]
  | |- yields _ (match ?x with _ => _ end) => destruct x; solve_yields
  | |- _ => solve [eauto with yields]
  end.

#[global] Instance no_call_preorder : PreOrder no_call.
Proof. unfold no_call. split; [by intros w|intros w1 w2 w3; congruence]. Qed.

#[global] Instance log_extends_preorder : PreOrder log_extends.
Proof.
  split.
  - intros w. exists []. by rewrite app_nil_r.
  - intros w1 w2 w3 (l1 & H1) (l2 & H2). exists (l1 ++ l2).
    by rewrite H2, H1, app_assoc.
Qed.

#[global] Instance log_extends_inner : Inner log_extends.
Proof.
  split; [apply _|..]; intros; try (by exists []; rewrite app_nil_r).
  by eexists [_].
Qed.

#[global] Instance log_extends_inner_cwd : InnerCwd log_extends.
Proof. intros c w. exists []. by rewrite app_nil_r. Qed.

#[global] Instance log_extends_inner_submit : InnerSubmit log_extends.
Proof. intros c w. exists []. by rewrite app_nil_r. Qed.

#[global] Instance log_extends_inner_log : InnerLog log_extends.
Proof. intros e b w. by eexists [_]. Qed.

Lemma print_plan_yields i steps : yields (λ _, True) (print_plan i steps).
Proof.
  revert i. induction steps as [|st steps IH]; intros i; simpl.
  - by apply yields_ret.
  - unfold print. solve_yields.
Qed.

#[global] Hint Resolve print_plan_yields : yields.

(** The relations that [print] and its like leave alone. *)
Ltac screen_leaf :=
  apply stable_modify; try apply _; intros ?;
  first [done | by exists []; rewrite app_nil_r].

Lemma print_plan_no_call i steps : stable no_call (print_plan i steps).
Proof.
  revert i. induction steps as [|st steps IH]; intros i; simpl; [solve_stable|].
  unfold print. stable_with ltac:(first [screen_leaf|apply IH]).
Qed.

Lemma print_plan_log_extends i steps : stable log_extends (print_plan i steps).
Proof.
  revert i. induction steps as [|st steps IH]; intros i; simpl; [solve_stable|].
  unfold print. stable_with ltac:(first [screen_leaf|apply IH]).
Qed.

Lemma copytree_nonblocking src dst ignore : nonblocking (copytree src dst ignore).
Proof. unfold copytree, isdir. unfold_ops. solve_nonblocking. Qed.

#[global] Hint Resolve copytree_nonblocking : nonblocking.

Section EntryPoint.

Variable cfg : config.
Variable steps : list step.
Variable sbatch_run : list call → sbatch_outcome.
Variable squeue_run : list call → squeue_outcome.
Variable outside : list call → gmap path string → gmap path string.
Variable clock : list call → Q.

Local Abbreviation main_of :=
  (main cfg steps sbatch_run squeue_run outside clock).

Lemma create_work_directory_yields timestamp :
  yields (λ _, True) (create_work_directory cfg timestamp).
Proof.
  unfold create_work_directory, print, print_entry, isdir. solve_yields.
Qed.

Lemma create_work_directory_no_call timestamp :
  stable no_call (create_work_directory cfg timestamp).
Proof.
  unfold create_work_directory, copytree, print, print_entry, isdir.
  unfold_ops. stable_with screen_leaf.
Qed.

(** X26: with [--preview] the entry point does nothing but the preview:
    it leaves with status 0 when the steps pass the validation and
    with status 1 when they do not, and nothing but the screen has
    changed: no work directory, no log, no command. *)
Theorem main_preview a timestamp started_at response polls w :
  preview a = true →
  Forall (λ st, is_Some (line8_numbers st)) steps →
  ∃ code w',
    main_of a timestamp started_at response polls w = (Ok (Some code), w') ∧
    (code = 0%Z ↔ continuous steps ∧ consistent steps) ∧
    (code = 0%Z ∨ code = 1%Z) ∧
    only_screen w w'.
Proof.
  intros Hp Hwf. unfold main. rewrite Hp.
  destruct (preview_steps_result steps w Hwf) as (b & w' & Hrun & Hb & Hs).
  rewrite (bind_run _ _ _ _ _ Hrun).
  eexists _, w'. split; [reflexivity|]. split_and!; [|by destruct b; eauto|done].
  rewrite <- Hb. by destruct b.
Qed.

(** X27: without [--auto-yes], an answer other than [y] or [Y] to the
    question stops the entry point before anything is run: it returns,
    and no command, [sbatch] or other, was run. *)
Theorem main_declined a timestamp started_at response polls w :
  preview a = false → auto_yes a = false → lower response ≠ "y" →
  ∃ w',
    main_of a timestamp started_at response polls w = (Ok None, w') ∧
    calls w' = calls w.
Proof.
  intros Hp Hy Hr. apply String.eqb_neq in Hr.
  assert (Hyields : yields (λ r, r = None)
                      (main_of a timestamp started_at response polls)).
  { unfold main. rewrite Hp, Hy, Hr. cbv beta iota zeta delta [negb].
    unfold print, isdir, isfile, start_log.
    pose proof (create_work_directory_yields timestamp). solve_yields. }
  assert (Hstable : stable no_call
                      (main_of a timestamp started_at response polls)).
  { unfold main. rewrite Hp, Hy, Hr. cbv beta iota zeta delta [negb].
    unfold print, isdir, isfile, start_log.
    stable_with ltac:(first [screen_leaf
                            |apply create_work_directory_no_call
                            |apply print_plan_no_call]). }
  destruct (Hyields w) as (r & w' & Hrun & ->). exists w'. split; [done|].
  specialize (Hstable w). by rewrite Hrun in Hstable.
Qed.

Lemma print_plan_only_screen i (l : list step) :
  stable only_screen (print_plan i l).
Proof.
  revert i. induction l as [|st l IH]; intros i; simpl; [solve_stable|].
  stable_with ltac:(apply IH).
Qed.

(** X28: when the run is confirmed, by [--auto-yes] or by the answer [y] or
    [Y], and the source directory holds the job script, the entry
    point makes the work directory, starts the log anew with four
    lines, whatever the log held before, logs that the execution
    starts, and runs the steps in the work directory; until then no
    command was run. When the run returns, the entry point logs the
    closing lines of a success or of a stop, and returns. *)
Theorem main_confirmed a timestamp started_at response polls w :
  let work_dir := "seq_run_" +:+ timestamp in
  preview a = false →
  auto_yes a = true ∨ lower response = "y" →
  cwd w ++ [SOURCE_DIR cfg] ∈ dirs w →
  cwd w ++ [work_dir] ∉ dirs w →
  (∀ rest, files w !! (cwd w ++ work_dir :: rest) = None) →
  ignored (JOB_SCRIPT cfg) = false →
  is_Some (files w !! (cwd w ++ [SOURCE_DIR cfg; JOB_SCRIPT cfg])) →
  ∃ w0,
    log w0 = log_header started_at work_dir
             ++ [Msg (LF +:+ "Starting sequential execution..." +:+ LF)] ∧
    calls w0 = calls w ∧ cwd w0 = cwd w ∧
    (∀ rest, files w0 !! (cwd w ++ work_dir :: rest)
             = if kept ignored rest
               then files w !! (cwd w ++ SOURCE_DIR cfg :: rest) else None) ∧
    ∀ success w1,
      run_sequential_steps cfg work_dir sbatch_run squeue_run outside clock
        polls steps w0 = (Ok success, w1) →
      ∃ w',
        main_of a timestamp started_at response polls w = (Ok None, w') ∧
        files w' = files w1 ∧ calls w' = calls w1 ∧
        logged w1 w' = closing_lines cfg success.
Proof.
  intros work_dir Hp Hyes Hsrc Hdst Hnew Hign [script Hscript].
  unfold main. rewrite Hp. do 6 run_print.
  set (w1 := printed _ _).
  assert (H1 : only_screen w w1) by done.
  destruct H1 as (Hc1 & Hf1 & Hd1 & Hl1 & Hk1).
  unfold isdir at 1, gets. unfold mbind at 1, M_bind.
  rewrite Hc1, Hd1, bool_decide_eq_true_2 by done. cbn [negb].
  destruct (create_work_directory_made cfg timestamp w1)
    as (w2 & Hrun & _ & Hin & _ & Hl2 & Hk2 & Hc2);
    [by rewrite Hc1, Hd1|by rewrite Hc1, Hd1|by intros; rewrite Hc1, Hf1|].
  fold work_dir in Hrun, Hin. rewrite (bind_run _ _ _ _ _ Hrun). run_print.
  set (w3 := printed _ w2).
  unfold isfile at 1, gets. unfold mbind at 1, M_bind.
  assert (Hhas : files w3 !! (cwd w3 ++ [work_dir; JOB_SCRIPT cfg]) = Some script).
  { change (files w3) with (files w2). change (cwd w3) with (cwd w2).
    rewrite Hc2, (Hin [JOB_SCRIPT cfg]). unfold kept. cbn [forallb].
    by rewrite Hign, Hc1, Hf1. }
  rewrite Hhas, bool_decide_eq_true_2 by eauto. cbn [negb].
  unfold start_log at 1. rewrite (bind_run _ _ _ tt _) by reflexivity. run_print.
  set (w4 := printed _ _).
  destruct (print_plan_yields 1 steps w4) as ([] & w5 & Hplan & _).
  pose proof (print_plan_only_screen 1 steps w4) as H5. rewrite Hplan in H5.
  cbn [snd] in H5. destruct H5 as (Hc5 & Hf5 & Hd5 & Hl5 & Hk5).
  rewrite (bind_run _ _ _ _ _ Hplan). cbv zeta.
  match goal with
  | |- context [(if negb (auto_yes a) then ?t else ?e) w5] =>
      assert (Hexec : ∃ w6, only_screen w5 w6 ∧
                (if negb (auto_yes a) then t else e) w5 = e w6)
  end.
  { destruct (auto_yes a) eqn:Ha; cbn [negb].
    - exists w5. split; [done|reflexivity].
    - destruct Hyes as [|Hy]; [done|]. apply String.eqb_eq in Hy.
      rewrite Hy. cbn [negb]. run_print. eexists. split; [|reflexivity]. done. }
  destruct Hexec as (w6 & (Hc6 & Hf6 & Hd6 & Hl6 & Hk6) & ->).
  unfold log_message at 1, log_entry_to at 1.
  rewrite (bind_run _ _ _ tt _) by reflexivity.
  set (w0 := add_log _ true w6).
  assert (Hc4 : cwd w4 = cwd w2) by done.
  assert (Hf4 : files w4 = files w2) by done.
  assert (Hk4 : calls w4 = calls w2) by done.
  assert (Hl4 : log w4 = log_header started_at work_dir) by done.
  exists w0. split_and!.
  - change (log w0) with (log w6 ++ [Msg (LF +:+ "Starting sequential execution..." +:+ LF)]).
    by rewrite Hl6, Hl5, Hl4.
  - change (calls w0) with (calls w6). by rewrite Hk6, Hk5, Hk4, Hk2, Hk1.
  - change (cwd w0) with (cwd w6). by rewrite Hc6, Hc5, Hc4, Hc2, Hc1.
  - intros rest. change (files w0) with (files w6).
    by rewrite Hf6, Hf5, Hf4, <- Hc1, (Hin rest), Hc1, Hf1.
  - intros success w7 Hsteps. rewrite (bind_run _ _ _ _ _ Hsteps).
    unfold log_message, log_entry_to, closing_lines, logged. unfold_M.
    destruct success; eexists; (split; [reflexivity|]); simpl;
      rewrite <- ?app_assoc, drop_app_length; done.
Qed.

End EntryPoint.

Lemma main_preview_witness :
  ∃ code w',
    main CONFIG broken_steps sbatch_accepts squeue_two_polls quiet_outside
      minute_clock args_preview "20240101_120000" "2024-01-01 12:00:00" "" 5
      origin_world = (Ok (Some code), w') ∧
    (code = 0%Z ↔ continuous broken_steps ∧ consistent broken_steps) ∧
    (code = 0%Z ∨ code = 1%Z) ∧
    only_screen origin_world w'.
Proof.
  apply (main_preview CONFIG broken_steps sbatch_accepts squeue_two_polls
           quiet_outside minute_clock args_preview).
  - reflexivity.
  - repeat constructor; vm_compute; eauto.
Defined.

Lemma main_declined_witness :
  ∃ w',
    main CONFIG STEPS sbatch_accepts squeue_two_polls quiet_outside
      minute_clock args_ask "20240101_120000" "2024-01-01 12:00:00" "no" 5
      origin_world = (Ok None, w') ∧
    calls w' = calls origin_world.
Proof.
  apply (main_declined CONFIG STEPS sbatch_accepts squeue_two_polls
           quiet_outside minute_clock args_ask).
  - reflexivity.
  - reflexivity.
  - vm_compute. discriminate.
Defined.

Lemma main_confirmed_witness :
  let work_dir := "seq_run_" +:+ "20240101_120000" in
  ∃ w0,
    log w0 = log_header "2024-01-01 12:00:00" work_dir
             ++ [Msg (LF +:+ "Starting sequential execution..." +:+ LF)] ∧
    calls w0 = calls origin_world ∧ cwd w0 = cwd origin_world ∧
    (∀ rest, files w0 !! (cwd origin_world ++ work_dir :: rest)
             = if kept ignored rest
               then files origin_world
                    !! (cwd origin_world ++ SOURCE_DIR CONFIG :: rest)
               else None) ∧
    ∀ success w1,
      run_sequential_steps CONFIG work_dir sbatch_accepts squeue_two_polls
        quiet_outside minute_clock 5 STEPS w0 = (Ok success, w1) →
      ∃ w',
        main CONFIG STEPS sbatch_accepts squeue_two_polls quiet_outside
          minute_clock args_ask "20240101_120000" "2024-01-01 12:00:00" "Y" 5
          origin_world = (Ok None, w') ∧
        files w' = files w1 ∧ calls w' = calls w1 ∧
        logged w1 w' = closing_lines CONFIG success.
Proof.
  apply (main_confirmed CONFIG STEPS sbatch_accepts squeue_two_polls
           quiet_outside minute_clock args_ask "20240101_120000"
           "2024-01-01 12:00:00" "Y" 5 origin_world).
  - reflexivity.
  - right. reflexivity.
  - apply (bool_decide_unpack _). vm_compute. exact I.
  - apply (bool_decide_unpack _). vm_compute. exact I.
  - apply origin_world_fresh.
  - reflexivity.
  - by eexists.
Defined.

Example main_of_origin_world :
  let r := main CONFIG STEPS sbatch_accepts squeue_two_polls quiet_outside
             minute_clock args_auto "20240101_120000" "2024-01-01 12:00:00" "" 5
             origin_world in
  r.1 = Ok None ∧
  marks (log r.2)
  = [Begins Edit; Begins Submit; Begins Wait; Begins Extract; Stops Extract] ∧
  submissions r.2 = 1%nat.
Proof. vm_compute. done. Qed.
